(** * sync_git: wiki revisions replayed as git commits

    A shallow embedding of [sync_git.py].  The script reads the revision
    history of wiki pages through the reddit API and replays every revision
    that is not yet in the local git repository as one commit.

    The embedding has four layers:
    - [Py]: the few operations of Python's [str] that the script (and
      [uuid.UUID], which it calls) relies on, over ASCII text;
    - [Uuid]: [uuid.UUID(hex)] and [str(uuid)];
    - the version store: a working tree, a staging area and a linear
      commit log, driven through [git add], [git commit] and [git log];
    - the functions of the script itself, in a state-and-exception monad
      over the version store.

    What the embedding leaves out: text is ASCII ([bytes.decode] is the
    identity); a path is the text [wiki/page.md], without the
    normalisation of [pathlib]; directories are implicit in the paths of
    the working tree; the paths given to [git log] name files, not
    directories or patterns; the names and emails of a commit are kept
    as they are given, without git's trimming of punctuation at their
    ends; the pagination of the API, whose generators are lists here; the
    logger; and failures to start a subprocess or to write a file. *)

From Stdlib Require Import Ascii String ZArith NArith Lia List.
From stdpp Require Import base decidable option list strings gmap fin_maps pretty
  sorting.

Local Open Scope Z_scope.

(** ** Python strings *)

Module Py.

(** [str.isspace] restricted to ASCII: TAB, LF, VT, FF, CR, the four
    separators FS, GS, RS, US, and the space. *)
Definition isspace (c : ascii) : bool :=
  let n := N_of_ascii c in
  ((9 <=? n) && (n <=? 13) || (28 <=? n) && (n <=? 31) || (n =? 32))%N.

Definition nonempty (s : string) : bool :=
  match s with "" => false | String _ _ => true end.

(** Every character of [s] satisfies [p]. *)
Fixpoint all (p : ascii → bool) (s : string) : bool :=
  match s with
  | "" => true
  | String c s' => p c && all p s'
  end.

(** A token: what [str.split()] returns as one element. *)
Definition is_token (s : string) : bool :=
  nonempty s && all (λ c, negb (isspace c)) s.

Definition blank (s : string) : bool := all isspace s.

Definition flush (word : string) : list string :=
  if nonempty word then [word] else [].

(** [s.split()] with no argument: maximal runs of non-whitespace.
    [word] is the run read so far. *)
Fixpoint split_from (word : string) (s : string) : list string :=
  match s with
  | "" => flush word
  | String c s' =>
      if isspace c then flush word ++ split_from "" s'
      else split_from (word +:+ String c "") s'
  end.

Definition split (s : string) : list string := split_from "" s.

(** [s.lstrip(chars)] and [s.rstrip(chars)], the set of characters given
    as a predicate. *)
Fixpoint lstrip_by (p : ascii → bool) (s : string) : string :=
  match s with
  | "" => ""
  | String c s' => if p c then lstrip_by p s' else s
  end.

Fixpoint rstrip_by (p : ascii → bool) (s : string) : string :=
  match s with
  | "" => ""
  | String c s' =>
      let r := rstrip_by p s' in
      if negb (nonempty r) && p c then "" else String c r
  end.

Definition strip_by (p : ascii → bool) (s : string) : string :=
  lstrip_by p (rstrip_by p s).

(** [s.strip()] *)
Definition strip (s : string) : string := strip_by isspace s.

(** [s.strip(chars)] *)
Definition strip_chars (chars : string) (s : string) : string :=
  strip_by (λ c, bool_decide (c ∈ list_ascii_of_string chars)) s.

(** [s.replace(old, "")] for a non-empty [old]: occurrences are found
    left to right and do not overlap.  [skip] counts the characters of
    the occurrence being deleted that are still to be dropped. *)
Fixpoint remove_from (old : string) (skip : nat) (s : string) : string :=
  match s with
  | "" => ""
  | String c s' =>
      match skip with
      | S k => remove_from old k s'
      | O =>
          if String.prefix old s
          then remove_from old (String.length old - 1) s'
          else String c (remove_from old 0 s')
      end
  end.

Definition remove (old : string) (s : string) : string :=
  remove_from old 0 s.

(** [s[i:j]] for [0 <= i <= j]. *)
Definition slice (i j : nat) (s : string) : string :=
  String.substring i (j - i) s.

(** Value of a digit in bases up to 36 ([_PyLong_DigitValue]), here only
    asked for base 16. *)
Definition hexval (c : ascii) : option N :=
  let n := N_of_ascii c in
  if ((48 <=? n) && (n <=? 57))%N then Some (n - 48)%N
  else if ((97 <=? n) && (n <=? 102))%N then Some (n - 87)%N
  else if ((65 <=? n) && (n <=? 70))%N then Some (n - 55)%N
  else None.

Definition is_hex (c : ascii) : bool :=
  match hexval c with Some _ => true | None => false end.

(** The digit loop of [int(s, 16)]: hexadecimal digits, where single
    underscores may separate digits.  [prev_us] tells whether the
    previous character was an underscore; a second one in a row, or one
    at the end, is an error. *)
Fixpoint digits16 (acc : N) (prev_us : bool) (s : string) : option N :=
  match s with
  | "" => if prev_us then None else Some acc
  | String c s' =>
      if Ascii.eqb c "_" then
        if prev_us then None else digits16 acc true s'
      else
        match hexval c with
        | Some d => digits16 (acc * 16 + d)%N false s'
        | None => None
        end
  end.

(** [int(s, 16)] on text without whitespace; [None] is [ValueError].
    An optional sign, an optional [0x] or [0X] prefix (after which one
    underscore is allowed), then the digits, which may neither be empty
    nor start with an underscore. *)
Definition unsigned16 (s : string) : option N :=
  let body :=
    match s with
    | String "0" (String x rest) =>
        if Ascii.eqb x "x" || Ascii.eqb x "X" then
          match rest with
          | String "_" rest' => rest'
          | _ => rest
          end
        else s
    | _ => s
    end in
  match body with
  | "" => None
  | String "_" _ => None
  | _ => digits16 0 false body
  end.

Definition int16 (s : string) : option Z :=
  match s with
  | String "+" s' => Z.of_N <$> unsigned16 s'
  | String "-" s' => (λ n, - Z.of_N n) <$> unsigned16 s'
  | _ => Z.of_N <$> unsigned16 s
  end.

Definition hexdigit (d : N) : ascii :=
  if (d <? 10)%N then ascii_of_N (48 + d) else ascii_of_N (87 + d).

(** The [w] low hexadecimal digits of [n], most significant first. *)
Fixpoint hex_width (w : nat) (n : Z) : string :=
  match w with
  | O => ""
  | S w' => String (hexdigit (Z.to_N ((n / 16 ^ Z.of_nat w') mod 16)))
                   (hex_width w' n)
  end.

(** Number of hexadecimal digits of a non-negative [n] (one for zero). *)
Definition hexlen (n : Z) : nat :=
  if n =? 0 then 1%nat else Z.to_nat ((Z.log2 n) / 4 + 1).

(** ['%032x' % n] for [0 <= n]: at least 32 digits, zero padded. *)
Definition format_032x (n : Z) : string :=
  hex_width (Nat.max 32 (hexlen n)) n.

(** [s.upper()] over ASCII. *)
Definition upper_char (c : ascii) : ascii :=
  let n := N_of_ascii c in
  if ((97 <=? n) && (n <=? 122))%N then ascii_of_N (n - 32) else c.

Fixpoint upper (s : string) : string :=
  match s with
  | "" => ""
  | String c s' => String (upper_char c) (upper s')
  end.

(** [str(None)] is the text [None]; [str(s)] is [s]. *)
Definition str_opt (o : option string) : string :=
  match o with Some s => s | None => "None" end.

(** Truth value of an optional string or list: [None] and the empty
    value are false. *)
Definition truthy_str (o : option string) : bool :=
  match o with Some s => nonempty s | None => false end.

Definition truthy_list {A} (o : option (list A)) : bool :=
  match o with Some (_ :: _) => true | _ => false end.

(** The last word of a text: [s.split()[-1]], if there is one. *)
Definition last_word (s : string) : option string := last (split s).

(** The value of a digit, zero for anything else. *)
Definition hv (c : ascii) : Z := Z.of_N (default 0%N (hexval c)).

(** The number a string of digits denotes, most significant first. *)
Fixpoint zval (ds : string) : Z :=
  match ds with
  | "" => 0
  | String c ds' => hv c * 16 ^ Z.of_nat (String.length ds') + zval ds'
  end.

End Py.

(** ** uuid.UUID *)

Module Uuid.

(** [uuid.UUID(hex)]: drop [urn:] and [uuid:], strip braces, drop the
    hyphens, insist on 32 characters and read them with [int(_, 16)];
    the value has to fit 128 bits.  [None] stands for [ValueError]. *)
Definition UUID (hex : string) : option Z :=
  let hex := Py.remove "uuid:" (Py.remove "urn:" hex) in
  let hex := Py.remove "-" (Py.strip_chars "{}" hex) in
  if bool_decide (String.length hex = 32%nat) then
    match Py.int16 hex with
    | Some n => if (0 <=? n) && (n <? 2 ^ 128) then Some n else None
    | None => None
    end
  else None.

(** [str(u)]: the 32 digits in groups of 8, 4, 4, 4 and 12. *)
Definition str (u : Z) : string :=
  let hex := Py.format_032x u in
  Py.slice 0 8 hex +:+ "-" +:+ Py.slice 8 12 hex +:+ "-" +:+
  Py.slice 12 16 hex +:+ "-" +:+ Py.slice 16 20 hex +:+ "-" +:+
  String.substring 20 (String.length hex - 20) hex.

Definition is_lower_hex (c : ascii) : bool :=
  let n := N_of_ascii c in
  ((48 <=? n) && (n <=? 57) || (97 <=? n) && (n <=? 102))%N.

(** The canonical form: 36 characters, hyphens at 8, 13, 18 and 23,
    lowercase hexadecimal digits elsewhere. *)
Definition canonical (s : string) : bool :=
  bool_decide (String.length s = 36%nat) &&
  Py.all is_lower_hex (Py.slice 0 8 s) &&
  bool_decide (Py.slice 8 9 s = "-") &&
  Py.all is_lower_hex (Py.slice 9 13 s) &&
  bool_decide (Py.slice 13 14 s = "-") &&
  Py.all is_lower_hex (Py.slice 14 18 s) &&
  bool_decide (Py.slice 18 19 s = "-") &&
  Py.all is_lower_hex (Py.slice 19 23 s) &&
  bool_decide (Py.slice 23 24 s = "-") &&
  Py.all is_lower_hex (Py.slice 24 36 s).

(** The five groups of digits of a canonical id. *)
Record groups (a b c d e : string) : Prop := {
  len_a : String.length a = 8%nat;
  len_b : String.length b = 4%nat;
  len_c : String.length c = 4%nat;
  len_d : String.length d = 4%nat;
  len_e : String.length e = 12%nat;
  hex_a : Py.all is_lower_hex a = true;
  hex_b : Py.all is_lower_hex b = true;
  hex_c : Py.all is_lower_hex c = true;
  hex_d : Py.all is_lower_hex d = true;
  hex_e : Py.all is_lower_hex e = true;
}.

Definition hyphens (a b c d e : string) : string :=
  a +:+ "-" +:+ b +:+ "-" +:+ c +:+ "-" +:+ d +:+ "-" +:+ e.

(** A character of a canonical id: a lowercase digit or the hyphen. *)
Definition id_char (c : ascii) : bool := is_lower_hex c || Ascii.eqb c "-".

(** Other ways to write the UUID of a canonical id, which [uuid.UUID]
    reads as well: in braces, as a URN, without the hyphens, with
    capital digits. *)
Definition spellings (id : string) : list string :=
  [ "{" +:+ id +:+ "}"; "urn:uuid:" +:+ id; Py.remove "-" id;
    Py.upper id; "{" +:+ Py.upper id +:+ "}" ].

End Uuid.

(** ** Data model *)

(** A revision as the reddit API materialises it ([WikiPage] with a
    revision id): [name] is the name of the page it belongs to,
    [revision_by] is absent when the account was deleted. *)
Record Revision := {
  revision_id : string;
  name : string;
  revision_by : option string;
  revision_date : Z;
  reason : option string;
  content_md : string;
}.

(** What [page.mod.settings()] returns, as far as the script reads it. *)
Record Settings := { permlevel : Z; listed : bool }.

(** What the API holds for one page: its settings and its revisions,
    newest first ([page.revisions(limit=None)]). *)
Record PageData := { settings : Settings; history : list Revision }.

(** The wiki of the subreddit: the names [for page in subreddit.wiki]
    yields, the pages by name, and the wiki-wide feed of recent revisions
    ([subreddit.wiki.revisions()], newest first, bounded).  A page handle
    ([subreddit.wiki[name]]) is lazy in PRAW, so a page is handled by its
    name and the API is asked when the script asks. *)
Record Subreddit := {
  display_name : string;
  wiki_names : list string;
  wiki_pages : gmap string PageData;
  wiki_recent : list Revision;
}.

Definition PERMLEVEL_MOD_ONLY : Z := 2.

(** ** The version store *)

(** A commit: the snapshot of all tracked files, the identity and dates
    given in the environment, and the message as git keeps it, without
    the line feed that ends its last line. *)
Record Commit := {
  tree : gmap string string;
  author_name : string;
  author_email : string;
  author_date : Z;
  committer_name : string;
  committer_email : string;
  committer_date : Z;
  message : string;
}.

(** The working tree (path to content), the staging area, the commit log
    (newest first) and the return codes of the [subprocess.run] calls made
    so far (newest first), which the script never looks at. *)
Record Store := {
  worktree : gmap string string;
  staged : gmap string string;
  log : list Commit;
  exits : list Z;
}.

Definition head_tree (l : list Commit) : gmap string string :=
  match l with
  | [] => ∅
  | c :: _ => tree c
  end.

(** The variables [add_commit] sets for [git commit]. The dates are the
    integer the script renders with [str(int(_))] and git reads back as
    seconds since the epoch. *)
Record Env := {
  GIT_AUTHOR_DATE : Z;
  GIT_AUTHOR_NAME : string;
  GIT_AUTHOR_EMAIL : string;
  GIT_COMMITTER_DATE : Z;
  GIT_COMMITTER_NAME : string;
  GIT_COMMITTER_EMAIL : string;
}.

Module Git.

(** [git add path]: stage the file as it is in the working tree; a path
    that matches no file is an error (128) and stages nothing. *)
Definition add (path : string) (s : Store) : Store * Z :=
  match worktree s !! path with
  | Some content =>
      ({| worktree := worktree s; staged := <[path := content]> (staged s);
          log := log s; exits := exits s |}, 0)
  | None => (s, 128)
  end.

(** git's own [isspace]: TAB, LF, CR and the space. *)
Definition isspace (c : ascii) : bool :=
  let n := N_of_ascii c in
  ((n =? 9) || (n =? 10) || (n =? 13) || (n =? 32))%N.

(** A date given as a bare integer is read as seconds since the epoch
    from nine digits on and up to the end of the year 2099; anything
    else [str(int(_))] can print is no date for git. *)
Definition date_ok (date : Z) : bool :=
  (100000000 <=? date) && (date <? 4102444800).

(** The lines of a text: each ends at a LF, the last one at the end of
    the text if no LF is there. *)
Fixpoint lines (s : string) : list string :=
  match s with
  | "" => []
  | String c s' =>
      if Ascii.eqb c "010" then "" :: lines s'
      else match lines s' with
           | [] => [String c ""]
           | line :: rest => String c line :: rest
           end
  end.

(** The loop of [strbuf_stripspace] over the lines, their trailing
    white space gone: empty lines are dropped, and one empty line is
    put before a line that follows empty ones, unless nothing was
    written yet. *)
Fixpoint squeeze (written empties : bool) (ls : list string)
    : list string :=
  match ls with
  | [] => []
  | line :: rest =>
      if Py.nonempty line then
        (if empties && written then [""] else []) ++
        line :: squeeze true false rest
      else squeeze written true rest
  end.

Fixpoint unlines (ls : list string) : string :=
  match ls with
  | [] => ""
  | [line] => line
  | line :: rest => line +:+ String "010" (unlines rest)
  end.

(** What [git commit -m] makes of the message (the clean-up mode
    [whitespace]): trailing white space is cut from every line, empty
    lines go from the start and the end, and runs of empty lines
    become one. *)
Definition stripspace (msg : string) : string :=
  unlines (squeeze false false (Py.rstrip_by isspace <$> lines msg)).

(** A line that this leaves as it is: not empty, without LF, not
    ending in white space. *)
Definition tidy_line (line : string) : bool :=
  Py.nonempty line &&
  Py.all (λ c, negb (Ascii.eqb c "010")) line &&
  bool_decide (Py.rstrip_by isspace line = line).

(** [git commit -m msg]: fatal (128) when the author or the committer
    date is no date; refused (1) when the staging area equals the last
    commit (nothing to commit) and when the message is empty once
    tidied; otherwise the staging area becomes the new head of the
    log, with the tidied message. *)
Definition commit (env : Env) (msg : string) (s : Store) : Store * Z :=
  if negb (date_ok (GIT_AUTHOR_DATE env) && date_ok (GIT_COMMITTER_DATE env))
  then (s, 128)
  else if decide (staged s = head_tree (log s)) then (s, 1)
  else if negb (Py.nonempty (stripspace msg)) then (s, 1)
  else
    ({| worktree := worktree s; staged := staged s;
        log := {| tree := staged s;
                  author_name := GIT_AUTHOR_NAME env;
                  author_email := GIT_AUTHOR_EMAIL env;
                  author_date := GIT_AUTHOR_DATE env;
                  committer_name := GIT_COMMITTER_NAME env;
                  committer_email := GIT_COMMITTER_EMAIL env;
                  committer_date := GIT_COMMITTER_DATE env;
                  message := stripspace msg |} :: log s;
        exits := exits s |}, 0).

(** A commit touches a path when the file differs from its parent's. *)
Definition touches (paths : list string) (c : Commit)
    (parent : gmap string string) : bool :=
  bool_decide (paths = []) ||
  existsb (λ p, bool_decide (tree c !! p ≠ parent !! p)) paths.

(** The newest commit that touches one of the paths. *)
Fixpoint last_touching (paths : list string) (l : list Commit)
    : option Commit :=
  match l with
  | [] => None
  | c :: older =>
      if touches paths c (head_tree older) then Some c
      else last_touching paths older
  end.

(** [--pretty=medium]: a header, a blank line, the indented message.
    The hash and the calendar form of the date are not rendered; they
    are never the last word of the output.  Nor are the four spaces
    git puts before the later lines of the message, which are white
    space at the start of a line. *)
Definition medium (c : Commit) : string :=
  "commit" +:+ String "010" "Author: " +:+ author_name c +:+ " <" +:+
  author_email c +:+ ">" +:+ String "010" "Date:   " +:+
  pretty (author_date c) +:+ " +0000" +:+ String "010" (String "010" "    ") +:+
  message c +:+ String "010" "".

(** [git log -n 1 --pretty=medium -- paths], given the words of the
    command line after [--]: the return code and the output.  A
    repository without any commit makes [git log] fail (128). *)
Definition log_1 (paths : list string) (s : Store) : Z * string :=
  match log s with
  | [] => (128, "")
  | _ =>
      match last_touching paths (log s) with
      | Some c => (0, medium c)
      | None => (0, "")
      end
  end.

End Git.

(** ** Exceptions and the monad of the script *)

Inductive exn :=
  | IndexError            (* [output_list[-1]] on an empty list *)
  | CalledProcessError    (* [subprocess.check_output], non-zero return code *)
  | APIException.         (* the reddit API refuses or does not know the page *)

Inductive outcome (A : Type) :=
  | Return (a : A)
  | Raise (e : exn).
Arguments Return {A} a.
Arguments Raise {A} e.

(** A computation reads and updates the version store and either returns
    or raises; what was committed before an exception stays committed. *)
Definition M (A : Type) : Type := Store → Store * outcome A.

Definition ret {A} (a : A) : M A := λ s, (s, Return a).

Definition bind {A B} (m : M A) (f : A → M B) : M B :=
  λ s, match m s with
       | (s', Return a) => f a s'
       | (s', Raise e) => (s', Raise e)
       end.

Definition raise {A} (e : exn) : M A := λ s, (s, Raise e).

Declare Scope script_scope.
Delimit Scope script_scope with script.
Notation "'let*' x ':=' m 'in' k" := (bind m (λ x, k))
  (at level 10, x name, m at level 100, k at level 200) : script_scope.
Notation "m ;; k" := (bind m (λ _, k))
  (at level 100, k at level 200, right associativity) : script_scope.
Local Open Scope script_scope.

(** [for x in xs: body(x)] *)
Fixpoint for_each {A} (xs : list A) (body : A → M unit) : M unit :=
  match xs with
  | [] => ret tt
  | x :: xs' => body x ;; for_each xs' body
  end.

(** [subprocess.run(cmd)] without [check=True]: the return code is
    recorded by the world and handed back, and nothing is raised. *)
Definition subprocess_run (cmd : Store → Store * Z) : M Z :=
  λ s, let '(s', code) := cmd s in
       ({| worktree := worktree s'; staged := staged s'; log := log s';
           exits := code :: exits s' |}, Return code).

(** [subprocess.check_output(cmd)]: the output, or [CalledProcessError]
    when the return code is not zero. *)
Definition check_output (cmd : Store → Z * string) : M string :=
  λ s, let '(code, out) := cmd s in
       if decide (code = 0) then (s, Return out)
       else (s, Raise CalledProcessError).

Definition path_exists (path : string) : M bool :=
  λ s, (s, Return (bool_decide (is_Some (worktree s !! path)))).

(** [with path.open("w") as f: f.write(content)] *)
Definition write_file (path content : string) : M unit :=
  λ s, ({| worktree := <[path := content]> (worktree s); staged := staged s;
           log := log s; exits := exits s |}, Return tt).

(** ** The script *)

Section Script.

(** The globals of the module: the subreddit, and [CONFIG["email"]]
    (the environment's [SUBREDDIT_COMMIT_EMAIL], if any). *)
Variable subreddit : Subreddit.
Variable CONFIG_email : option string.

(** [pathlib.Path(subreddit.display_name) / f"{page_name}.md"] *)
Definition page_file (page_name : string) : string :=
  display_name subreddit +:+ "/" +:+ page_name +:+ ".md".

(** [page.mod.settings()] and [page.revisions(limit=None)]: requests to
    the API, refused for a page it does not hold. *)
Definition mod_settings (page : string) : M Settings :=
  match wiki_pages subreddit !! page with
  | Some d => ret (settings d)
  | None => raise APIException
  end.

Definition revisions (page : string) : M (list Revision) :=
  match wiki_pages subreddit !! page with
  | Some d => ret (history d)
  | None => raise APIException
  end.

Definition add_commit (file_path : string) (commit_timestamp : Z)
    (commit_author : option string) (commit_message : string) : M unit :=
  subprocess_run (Git.add file_path) ;;
  let commit_email :=
    if Py.truthy_str CONFIG_email then Py.str_opt CONFIG_email
    else Py.str_opt commit_author +:+ "@" +:+ display_name subreddit
         +:+ ".reddit" in
  let env := {|
    GIT_AUTHOR_DATE := commit_timestamp;
    GIT_AUTHOR_NAME :=
      if Py.truthy_str commit_author then Py.str_opt commit_author
      else "[deleted]";
    GIT_AUTHOR_EMAIL := commit_email;
    GIT_COMMITTER_DATE := commit_timestamp;
    GIT_COMMITTER_NAME :=
      if Py.truthy_str commit_author then Py.str_opt commit_author
      else "[deleted]";
    GIT_COMMITTER_EMAIL := commit_email |} in
  subprocess_run (Git.commit env commit_message) ;;
  ret tt.

(** The command line is one formatted string cut at whitespace, so the
    paths handed to [git log] are the words after the six of
    [git log -n 1 --pretty=medium --]. *)
Definition get_last_saved_revision (file_path : string)
    : M (option string) :=
  let* found := path_exists file_path in
  if negb found then ret None
  else
    let* output_bytes :=
      check_output
        (Git.log_1
           (drop 6 (Py.split ("git log -n 1 --pretty=medium -- "
                              +:+ file_path)))) in
    let output_list := Py.split (Py.strip output_bytes) in
    match last output_list with
    | None => raise IndexError
    | Some word =>
        match Uuid.UUID word with
        | None => ret None
        | Some revision_uuid => ret (Some (Uuid.str revision_uuid))
        end
    end.

Definition save_revision (revision : Revision) : M unit :=
  let file_path := page_file (name revision) in
  write_file file_path (content_md revision) ;;
  let author := revision_by revision in
  let commit_message :=
    if Py.truthy_str (reason revision)
    then Py.str_opt (reason revision) +:+ String "010" (String "010" "")
         +:+ revision_id revision
    else revision_id revision in
  add_commit file_path (revision_date revision) author commit_message.

(** The loop of [get_recent_revisions]: walk the history newest first,
    put each revision in front of [revision_list], stop at the one whose
    id is [last_revision]. *)
Fixpoint walk (last_revision : string) (newest_first : list Revision)
    (revision_list : list Revision) : list Revision :=
  match newest_first with
  | [] => revision_list
  | revision :: older =>
      if decide (revision_id revision = last_revision) then revision_list
      else walk last_revision older (revision :: revision_list)
  end.

Definition get_recent_revisions (page : string)
    (last_revision : option string) : M (list Revision) :=
  match last_revision with
  | None =>
      let* all := revisions page in
      ret (reverse all)
  | Some last =>
      let* all := revisions page in
      ret (walk last all [])
  end.

(** The defaults of the source are [ignore_list=None],
    [include_mod=True], [include_unlisted=True]. *)
Definition _handle_full_page (page : string)
    (ignore_list : option (list string))
    (include_mod include_unlisted : bool) : M unit :=
  if Py.truthy_list ignore_list
     && bool_decide (page ∈ default [] ignore_list)
  then ret tt
  else
    let* mod_only :=
      if negb include_mod then
        let* s := mod_settings page in
        ret (bool_decide (permlevel s = PERMLEVEL_MOD_ONLY))
      else ret false in
    if mod_only then ret tt
    else
      let* unlisted :=
        if negb include_unlisted then
          let* s := mod_settings page in
          ret (negb (listed s))
        else ret false in
      if unlisted then ret tt
      else
        let page_path := page_file page in
        let* last_revision := get_last_saved_revision page_path in
        let* revisions := get_recent_revisions page last_revision in
        for_each revisions save_revision.

(** The [for ... else] of [_handle_revisions_for_page]: the revisions
    after the one whose id is [last_revision], or nothing when the loop
    runs to its end.  An id never equals [None]. *)
Fixpoint revisions_after (last_revision : option string)
    (revisions : list Revision) : option (list Revision) :=
  match revisions with
  | [] => None
  | revision :: later =>
      if decide (Some (revision_id revision) = last_revision)
      then Some later
      else revisions_after last_revision later
  end.

Definition _handle_revisions_for_page (revisions : list Revision)
    : M unit :=
  match revisions with
  | [] => ret tt
  | first :: _ =>
      let page := name first in
      let page_path := page_file page in
      let* last_revision := get_last_saved_revision page_path in
      match revisions_after last_revision revisions with
      | Some revisions_to_save => for_each revisions_to_save save_revision
      | None => _handle_full_page page None true true
      end
  end.

(** [revisions_by_page]: a dict in insertion order, each page's
    revisions in the order they are appended. *)
Fixpoint append_to (page_name : string) (revision : Revision)
    (by_page : list (string * list Revision))
    : list (string * list Revision) :=
  match by_page with
  | [] => [(page_name, [revision])]
  | (k, l) :: rest =>
      if decide (k = page_name) then (k, l ++ [revision]) :: rest
      else (k, l) :: append_to page_name revision rest
  end.

Definition revisions_by_page (oldest_first : list Revision)
    : list (string * list Revision) :=
  foldl (λ by_page revision, append_to (name revision) revision by_page)
        [] oldest_first.

Definition main (page_list ignore_list : option (list string))
    (include_full include_mod include_unlisted : bool) : M unit :=
  let ignore_list := Some (default [] ignore_list) in
  if include_full && negb (Py.truthy_list page_list) then
    for_each (wiki_names subreddit) (λ page,
      _handle_full_page page ignore_list include_mod include_unlisted)
  else if include_full && Py.truthy_list page_list then
    for_each (default [] page_list) (λ page_name,
      _handle_full_page page_name ignore_list include_mod include_unlisted)
  else
    for_each (revisions_by_page (reverse (wiki_recent subreddit)))
      (λ '(page_name, revisions),
        let* mod_settings := mod_settings page_name in
        if Py.truthy_list page_list
           && negb (bool_decide (page_name ∈ default [] page_list))
        then ret tt
        else if Py.truthy_list ignore_list
                && bool_decide (page_name ∈ default [] ignore_list)
        then ret tt
        else if negb include_mod
                && bool_decide (permlevel mod_settings = PERMLEVEL_MOD_ONLY)
        then ret tt
        else if negb include_unlisted && negb (listed mod_settings)
        then ret tt
        else _handle_revisions_for_page revisions).

(** The body of the loop of [main] in recent mode. *)
Definition recent_step (page_list ignore_list : option (list string))
    (include_mod include_unlisted : bool)
    (entry : string * list Revision) : M unit :=
  let '(page_name, revisions) := entry in
  let* mod_settings := mod_settings page_name in
  if Py.truthy_list page_list
     && negb (bool_decide (page_name ∈ default [] page_list))
  then ret tt
  else if Py.truthy_list (Some (default [] ignore_list))
          && bool_decide (page_name ∈ default [] (Some (default [] ignore_list)))
  then ret tt
  else if negb include_mod
          && bool_decide (permlevel mod_settings = PERMLEVEL_MOD_ONLY)
  then ret tt
  else if negb include_unlisted && negb (listed mod_settings)
  then ret tt
  else _handle_revisions_for_page revisions.

(** The body of the loops of [main] in full mode. *)
Definition full_step (ignore_list : option (list string))
    (include_mod include_unlisted : bool) (page : string) : M unit :=
  _handle_full_page page (Some (default [] ignore_list))
                    include_mod include_unlisted.

(** *** What a revision becomes

    The values [save_revision] and [add_commit] compute on the way,
    named so that statements can speak of them. *)

(** The message handed to [git commit]. *)
Definition message_of (revision : Revision) : string :=
  if Py.truthy_str (reason revision)
  then Py.str_opt (reason revision) +:+ String "010" (String "010" "")
       +:+ revision_id revision
  else revision_id revision.

Definition email_of (commit_author : option string) : string :=
  if Py.truthy_str CONFIG_email then Py.str_opt CONFIG_email
  else Py.str_opt commit_author +:+ "@" +:+ display_name subreddit
       +:+ ".reddit".

Definition name_of (commit_author : option string) : string :=
  if Py.truthy_str commit_author then Py.str_opt commit_author
  else "[deleted]".

(** The commit a revision becomes, with the staged tree [t]. *)
Definition commit_of (revision : Revision) (t : gmap string string)
    : Commit :=
  {| tree := t;
     author_name := name_of (revision_by revision);
     author_email := email_of (revision_by revision);
     author_date := revision_date revision;
     committer_name := name_of (revision_by revision);
     committer_email := email_of (revision_by revision);
     committer_date := revision_date revision;
     message := Git.stripspace (message_of revision) |}.

(** The store after [save_revision]: the file is written and staged,
    and the commit is either refused or put on the log. *)
Definition after_save (revision : Revision) (s : Store) : Store :=
  let p := page_file (name revision) in
  let wt := <[p := content_md revision]> (worktree s) in
  let st := <[p := content_md revision]> (staged s) in
  if negb (Git.date_ok (revision_date revision)) then
    {| worktree := wt; staged := st; log := log s;
       exits := 128 :: 0 :: exits s |}
  else if decide (st = head_tree (log s)) then
    {| worktree := wt; staged := st; log := log s;
       exits := 1 :: 0 :: exits s |}
  else if negb (Py.nonempty (Git.stripspace (message_of revision))) then
    {| worktree := wt; staged := st; log := log s;
       exits := 1 :: 0 :: exits s |}
  else
    {| worktree := wt; staged := st;
       log := commit_of revision st :: log s;
       exits := 0 :: 0 :: exits s |}.

(** The id a commit message ends with, as the script reads it back;
    the output of [git log] ends with the time zone when the message
    has no word at all. *)
Definition cursor_of_message (msg : string) : option string :=
  Uuid.str <$> Uuid.UUID (default "+0000" (Py.last_word msg)).

(** What [get_last_saved_revision] answers for a path that is a
    single word, read off the store: nothing for a missing file, an
    exception when [git log] fails or prints nothing, and otherwise the
    last word of the newest commit for the path, read as a UUID. *)
Definition lookup_cursor (file_path : string) (s : Store)
    : outcome (option string) :=
  match worktree s !! file_path with
  | None => Return None
  | Some _ =>
      match log s with
      | [] => Raise CalledProcessError
      | _ =>
          match Git.last_touching [file_path] (log s) with
          | None => Raise IndexError
          | Some c =>
              Return (cursor_of_message (message c))
          end
      end
  end.

(** The revisions of a replay whose commit git took (return code 0),
    in the order of the replay. *)
Fixpoint accepted (revisions : list Revision) (s : Store)
    : list Revision :=
  match revisions with
  | [] => []
  | revision :: rest =>
      let s' := (save_revision revision s).1 in
      (if decide (head (exits s') = Some 0) then [revision] else [])
      ++ accepted rest s'
  end.

(** The store after [for revision in revisions: save_revision(revision)]. *)
Definition after_replay (revisions : list Revision) (s : Store) : Store :=
  foldl (λ s revision, after_save revision s) s revisions.

(** What [get_recent_revisions] returns for a history and a cursor. *)
Definition newer_than (last_revision : option string)
    (newest_first : list Revision) : list Revision :=
  match last_revision with
  | None => reverse newest_first
  | Some last => walk last newest_first []
  end.

(** The conjunction the specification gives for taking a page: not
    ignored, allowed when there is an allow-list, not mod-only unless
    those are included, listed unless unlisted ones are included. *)
Definition selected (page_list ignore_list : option (list string))
    (include_mod include_unlisted : bool)
    (page : string) (s : Settings) : bool :=
  negb (bool_decide (page ∈ default [] ignore_list))
  && (negb (Py.truthy_list page_list)
      || bool_decide (page ∈ default [] page_list))
  && (negb (bool_decide (permlevel s = PERMLEVEL_MOD_ONLY)) || include_mod)
  && (listed s || include_unlisted).

(** The recent revisions of a page, oldest first: not empty, and the
    newest part of the page's history. *)
Definition window_of (page : string) (w : list Revision) : Prop :=
  w ≠ [] ∧
  ∃ d, wiki_pages subreddit !! page = Some d ∧
       reverse w `prefix_of` history d.

(** The four checks of that conjunction, one by one. *)
Definition checks (page_list ignore_list : option (list string))
    (include_mod include_unlisted : bool)
    (page : string) (s : Settings) : list bool :=
  [ negb (bool_decide (page ∈ default [] ignore_list));
    negb (Py.truthy_list page_list)
    || bool_decide (page ∈ default [] page_list);
    negb (bool_decide (permlevel s = PERMLEVEL_MOD_ONLY)) || include_mod;
    listed s || include_unlisted ].

(** The pages a run of [main] goes through, before any filtering: the
    wiki's pages or the allow-list in full mode, the pages of the recent
    feed otherwise. *)
Definition candidates (page_list : option (list string))
    (include_full : bool) : list string :=
  if include_full then
    if Py.truthy_list page_list then default [] page_list
    else wiki_names subreddit
  else (revisions_by_page (reverse (wiki_recent subreddit))).*1.

End Script.

(** Nothing is staged that is not committed. *)
Definition clean (s : Store) : Prop := staged s = head_tree (log s).

(** How many [subprocess.run] calls returned a non-zero code so far. *)
Definition refusals (s : Store) : nat :=
  length (filter (λ code, code ≠ 0) (exits s)).

(** A source as the API serves it: names without whitespace, every
    revision filed under its page, ids that are canonical UUIDs and
    differ within a page, and a recent feed that is, page by page, the
    newest part of the page's history. *)
Record well_formed (sub : Subreddit) : Prop := {
  wf_display_name :
    Py.all (λ c, negb (Py.isspace c)) (display_name sub) = true;
  wf_page_name : ∀ page d,
    wiki_pages sub !! page = Some d →
    Py.all (λ c, negb (Py.isspace c)) page = true;
  wf_owner : ∀ page d r,
    wiki_pages sub !! page = Some d → r ∈ history d → name r = page;
  wf_canonical : ∀ page d r,
    wiki_pages sub !! page = Some d → r ∈ history d →
    Uuid.canonical (revision_id r) = true;
  wf_distinct : ∀ page d,
    wiki_pages sub !! page = Some d → NoDup (revision_id <$> history d);
  wf_recent : ∀ r,
    r ∈ wiki_recent sub →
    ∃ d, wiki_pages sub !! name r = Some d ∧
         filter (λ x, name x = name r) (wiki_recent sub)
           `prefix_of` history d;
}.

(** ** A small wiki to run the script on *)

Module Example.

Definition id1 : string := "00000000-0000-4000-8000-000000000001".
Definition id2 : string := "00000000-0000-4000-8000-000000000002".
Definition id3 : string := "00000000-0000-4000-8000-000000000003".

(** Three revisions of the page [rules]: the second by a deleted
    account, the third with an empty reason. *)
Definition r1 : Revision :=
  {| revision_id := id1; name := "rules"; revision_by := Some "alice";
     revision_date := 1600000100; reason := None; content_md := "first" |}.
Definition r2 : Revision :=
  {| revision_id := id2; name := "rules"; revision_by := None;
     revision_date := 1600000200; reason := Some "fix typo";
     content_md := "second" |}.
Definition r3 : Revision :=
  {| revision_id := id3; name := "rules"; revision_by := Some "bob";
     revision_date := 1600000300; reason := Some ""; content_md := "third" |}.

Definition open_page : Settings := {| permlevel := 0; listed := true |}.

Definition wiki : Subreddit :=
  {| display_name := "wiki";
     wiki_names := ["rules"];
     wiki_pages :=
       {[ "rules" := {| settings := open_page; history := [r3; r2; r1] |} ]};
     wiki_recent := [r3; r2] |}.

(** A fresh repository holding one commit that adds a README. *)
Definition readme : Commit :=
  {| tree := {[ "README" := "hello" ]};
     author_name := "carol"; author_email := "carol@example.org";
     author_date := 1500000000;
     committer_name := "carol"; committer_email := "carol@example.org";
     committer_date := 1500000000;
     message := "initial commit" |}.

Definition fresh : Store :=
  {| worktree := {[ "README" := "hello" ]};
     staged := {[ "README" := "hello" ]};
     log := [readme]; exits := [] |}.

(** The same repository with the page's file lying in the working
    tree, never committed. *)
Definition untracked : Store :=
  {| worktree := <[ "wiki/rules.md" := "draft" ]> {[ "README" := "hello" ]};
     staged := {[ "README" := "hello" ]};
     log := [readme]; exits := [] |}.

(** A page saved twice with the same text. *)
Definition t1 : Revision :=
  {| revision_id := id1; name := "rules"; revision_by := Some "alice";
     revision_date := 1600000100; reason := None; content_md := "same" |}.
Definition t2 : Revision :=
  {| revision_id := id2; name := "rules"; revision_by := Some "alice";
     revision_date := 1600000200; reason := None; content_md := "same" |}.

Definition twice : Subreddit :=
  {| display_name := "wiki";
     wiki_names := ["rules"];
     wiki_pages :=
       {[ "rules" := {| settings := open_page; history := [t2; t1] |} ]};
     wiki_recent := [t2; t1] |}.

(** A wiki whose only page has not changed lately. *)
Definition quiet : Subreddit :=
  {| display_name := "wiki";
     wiki_names := ["rules"];
     wiki_pages :=
       {[ "rules" := {| settings := open_page; history := [r1] |} ]};
     wiki_recent := [] |}.

End Example.

(** ** The specification's wording of five properties

    Definitions that follow the words of the specification, to be compared
    with what the script does. *)

Module Spec.

(** "A failed commit is not specially caught or retried: it propagates
    and aborts the run": when the commit of a revision is refused, the
    replay raises and the store stays as that revision left it. *)
Definition aborts_on_refusal (subreddit : Subreddit)
    (CONFIG_email : option string) (revisions : list Revision)
    (s : Store) : Prop :=
  ∀ before revision after,
    revisions = before ++ revision :: after →
    let s1 := (for_each before (save_revision subreddit CONFIG_email) s).1 in
    let s2 := (save_revision subreddit CONFIG_email revision s1).1 in
    head (exits s2) ≠ Some 0 →
    ∃ e, for_each revisions (save_revision subreddit CONFIG_email) s
         = (s2, Raise e).

(** "For any sequence of N revisions for a page, after a full sync,
    the ids in the commit messages for the page's file are exactly the
    ids returned by the source": a completed full sync of a page whose
    file has no commit yet adds one commit per revision. *)
Definition commits_every_revision (subreddit : Subreddit)
    (CONFIG_email : option string) (page : string) (s : Store) : Prop :=
  ∀ d s',
    wiki_pages subreddit !! page = Some d →
    Git.last_touching [page_file subreddit page] (log s) = None →
    _handle_full_page subreddit CONFIG_email page None true true s
    = (s', Return tt) →
    ∃ new, log s' = new ++ log s ∧
           Py.last_word ∘ message <$> reverse new
           = Some ∘ revision_id <$> reverse (history d).

(** "Commit message = the revision's reason (if present) followed by
    a blank line and the revision id, or just the revision id if no
    reason was given": the commit a save puts on the log has that text
    as message, ends with the id, and bears the date of the revision
    as author and committer date. *)
Definition message_is_reason_and_id (subreddit : Subreddit)
    (CONFIG_email : option string) (revision : Revision) (s : Store)
    : Prop :=
  ∀ c,
    log (save_revision subreddit CONFIG_email revision s).1 = c :: log s →
    message c
    = (if Py.truthy_str (reason revision)
       then Py.str_opt (reason revision) +:+ String "010" (String "010" "")
            +:+ revision_id revision
       else revision_id revision) ∧
    Py.last_word (message c) = Some (revision_id revision) ∧
    author_date c = revision_date revision ∧
    committer_date c = revision_date revision.

(** "Running the engine twice in a row with identical remote state
    produces zero new commits on the second run": the cursor recovered
    for a synced page is its newest revision, the diff is empty and the
    log stays as it is. *)
Definition second_run_idle (subreddit : Subreddit)
    (CONFIG_email : option string)
    (page_list ignore_list : option (list string))
    (include_full include_mod include_unlisted : bool) (s0 : Store)
    : Prop :=
  ∀ s1,
    main subreddit CONFIG_email page_list ignore_list include_full
         include_mod include_unlisted s0 = (s1, Return tt) →
    log (main subreddit CONFIG_email page_list ignore_list include_full
              include_mod include_unlisted s1).1 = log s1 ∧
    ∀ page d newest older,
      page ∈ candidates subreddit page_list include_full →
      wiki_pages subreddit !! page = Some d →
      selected page_list ignore_list include_mod include_unlisted page
               (settings d) = true →
      history d = newest :: older →
      (get_last_saved_revision (page_file subreddit page) s1).2
      = Return (Some (revision_id newest)).





End Spec.

(** ** The entry point *)

Module Cli.

(** [s.split(sep)] with a separator of one character: the pieces
    between the separators, empty ones included, so never no piece. *)
Fixpoint split_on (sep : ascii) (s : string) : list string :=
  match s with
  | "" => [""]
  | String c s' =>
      if Ascii.eqb c sep then "" :: split_on sep s'
      else match split_on sep s' with
           | [] => [String c ""]
           | piece :: pieces => String c piece :: pieces
           end
  end.

(** [sep.join(pieces)] *)
Fixpoint join (sep : ascii) (pieces : list string) : string :=
  match pieces with
  | [] => ""
  | [piece] => piece
  | piece :: rest => piece +:+ String sep (join sep rest)
  end.

(** What [argparse] hands over.  [mod_only] is [args.mod]; [verbose]
    only sets the level of the logger. *)
Record Args := {
  pages : option string;
  ignore : option string;
  full : bool;
  mod_only : bool;
  unlisted : bool;
  verbose : bool;
}.

(** [x.split(",") if x else x].  An empty string is passed on as it
    is; it is false and nothing is [in] it, which is how [main] and the
    page handler use the lists, so it is rendered as the empty list. *)
Definition comma_list (value : option string) : option (list string) :=
  match value with
  | None => None
  | Some text =>
      if Py.nonempty text then Some (split_on "," text) else Some []
  end.

(** [pages = args.pages if args.pages != "*" else None], then the
    split. *)
Definition page_argument (value : option string) : option (list string) :=
  comma_list (if decide (value = Some "*") then None else value).

(** The [__main__] block, after the parser and the logging set-up. *)
Definition run (subreddit : Subreddit) (CONFIG_email : option string)
    (args : Args) : M unit :=
  main subreddit CONFIG_email (page_argument (pages args))
       (comma_list (ignore args)) (full args) (mod_only args)
       (unlisted args).

End Cli.

(** ** More stores and sources to run the script on *)

Module Sample.

(** The page's file committed by hand, with a message of its own. *)
Definition by_hand : Commit :=
  {| tree := <[ "wiki/rules.md" := "by hand" ]> {[ "README" := "hello" ]};
     author_name := "carol"; author_email := "carol@example.org";
     author_date := 1550000000;
     committer_name := "carol"; committer_email := "carol@example.org";
     committer_date := 1550000000;
     message := "tidy the rules" |}.

Definition edited : Store :=
  {| worktree := <[ "wiki/rules.md" := "by hand" ]> {[ "README" := "hello" ]};
     staged := <[ "wiki/rules.md" := "by hand" ]> {[ "README" := "hello" ]};
     log := [by_hand; Example.readme]; exits := [] |}.

(** A second page, and a feed in which the two pages alternate. *)
Definition q1 : Revision :=
  {| revision_id := "00000000-0000-4000-8000-00000000000a"; name := "faq";
     revision_by := Some "dave"; revision_date := 1600000150;
     reason := Some "start"; content_md := "questions" |}.
Definition q2 : Revision :=
  {| revision_id := "00000000-0000-4000-8000-00000000000b"; name := "faq";
     revision_by := Some "dave"; revision_date := 1600000250;
     reason := None; content_md := "questions and answers" |}.

Definition hidden : Settings := {| permlevel := 2; listed := false |}.

Definition two_pages : Subreddit :=
  {| display_name := "wiki";
     wiki_names := ["faq"; "rules"];
     wiki_pages :=
       <[ "faq" := {| settings := hidden; history := [q2; q1] |} ]>
       {[ "rules" := {| settings := Example.open_page;
                        history := [Example.r3; Example.r2; Example.r1] |} ]};
     wiki_recent := [Example.r3; q2; Example.r2; q1] |}.

(** The repository after a sync of the page [faq], with a change of
    its file staged by hand and not committed. *)
Definition dirty : Store :=
  let s := (for_each [q1; q2] (save_revision two_pages None)
                     Example.fresh).1 in
  {| worktree := <[ "wiki/faq.md" := "by hand" ]> (worktree s);
     staged := <[ "wiki/faq.md" := "by hand" ]> (staged s);
     log := log s; exits := [] |}.

(** A revision dated a hundred seconds after the epoch, which git does
    not read as a date. *)
Definition old1 : Revision :=
  {| revision_id := Example.id1; name := "rules";
     revision_by := Some "alice"; revision_date := 100;
     reason := None; content_md := "first" |}.

Definition early : Subreddit :=
  {| display_name := "wiki";
     wiki_names := ["rules"];
     wiki_pages :=
       {[ "rules" := {| settings := Example.open_page;
                        history := [old1] |} ]};
     wiki_recent := [old1] |}.

(** Ids written with capital digits. *)
Definition u1 : Revision :=
  {| revision_id := "0000000A-0000-4000-8000-0000000000F1"; name := "rules";
     revision_by := Some "alice"; revision_date := 1600000100;
     reason := None; content_md := "one" |}.
Definition u2 : Revision :=
  {| revision_id := "0000000A-0000-4000-8000-0000000000F2"; name := "rules";
     revision_by := Some "alice"; revision_date := 1600000200;
     reason := None; content_md := "two" |}.

Definition capitals : Subreddit :=
  {| display_name := "wiki";
     wiki_names := ["rules"];
     wiki_pages :=
       {[ "rules" := {| settings := Example.open_page;
                        history := [u2; u1] |} ]};
     wiki_recent := [u2; u1] |}.

(** A reason that ends in two spaces. *)
Definition untidy : Revision :=
  {| revision_id := Example.id1; name := "rules";
     revision_by := Some "alice"; revision_date := 1600000100;
     reason := Some "typo  "; content_md := "first" |}.

(** The page's file committed with a message that ends in another
    spelling of an id: braces and capital digits. *)
Definition respelled : Store :=
  {| worktree := <[ "wiki/rules.md" := "first" ]> {[ "README" := "hello" ]};
     staged := <[ "wiki/rules.md" := "first" ]> {[ "README" := "hello" ]};
     log :=
       [ {| tree := <[ "wiki/rules.md" := "first" ]> {[ "README" := "hello" ]};
            author_name := "carol"; author_email := "carol@example.org";
            author_date := 1550000000;
            committer_name := "carol"; committer_email := "carol@example.org";
            committer_date := 1550000000;
            message := "import {0000000A-0000-4000-8000-0000000000F1}" |};
         Example.readme ];
     exits := [] |}.

(** A page whose newest revision has a date git does not take, and a
    second page that comes after it. *)
Definition old2 : Revision :=
  {| revision_id := Example.id2; name := "rules";
     revision_by := Some "alice"; revision_date := 100;
     reason := None; content_md := "second" |}.

Definition mixed : Subreddit :=
  {| display_name := "wiki";
     wiki_names := ["rules"; "faq"];
     wiki_pages :=
       <[ "faq" := {| settings := Example.open_page; history := [q1] |} ]>
       {[ "rules" := {| settings := Example.open_page;
                        history := [old2; Example.r1] |} ]};
     wiki_recent := [old2; q1; Example.r1] |}.

(** A page with a space in its name. *)
Definition spaced : Revision :=
  {| revision_id := Example.id1; name := "my page";
     revision_by := Some "alice"; revision_date := 1600000100;
     reason := None; content_md := "first" |}.

Definition spaces : Subreddit :=
  {| display_name := "wiki";
     wiki_names := ["my page"];
     wiki_pages :=
       {[ "my page" := {| settings := Example.open_page;
                          history := [spaced] |} ]};
     wiki_recent := [spaced] |}.

(** A revision whose id is two words. *)
Definition loose : Revision :=
  {| revision_id := "second draft"; name := "rules";
     revision_by := Some "alice"; revision_date := 1600000100;
     reason := None; content_md := "first" |}.

(** A feed with a revision of a page that is gone since. *)
Definition gone : Subreddit :=
  {| display_name := "wiki";
     wiki_names := ["rules"];
     wiki_pages := wiki_pages Example.wiki;
     wiki_recent := [Example.r3; q1] |}.

(** A feed that names a page the API does not serve. *)
Definition stray : Subreddit :=
  {| display_name := "wiki";
     wiki_names := [];
     wiki_pages := ∅;
     wiki_recent := [q1] |}.

End Sample.

(** ** The repository a store holds *)

(** Two stores hold the same repository: they differ at most in the
    return codes recorded. *)
Definition same_repository (s s' : Store) : Prop :=
  worktree s = worktree s' ∧ staged s = staged s' ∧ log s = log s'.

(** A page is settled in a store: its cursor is found, and what the
    history has after the cursor has the text the page's file holds, in
    the working tree and in the staging area. *)
Definition settled (sub : Subreddit) (page : string) (s : Store) : Prop :=
  ∃ d c,
    wiki_pages sub !! page = Some d ∧
    lookup_cursor (page_file sub page) s = Return c ∧
    Forall (λ r, worktree s !! page_file sub page = Some (content_md r) ∧
                 staged s !! page_file sub page = Some (content_md r))
           (newer_than c (history d)).

(** The dates of the revisions the source has are dates for git. *)
Definition dates_accepted (sub : Subreddit) : Prop :=
  ∀ page d r,
    wiki_pages sub !! page = Some d → r ∈ history d →
    Git.date_ok (revision_date r) = true.

Example uuid_upper :
  Uuid.str <$> Uuid.UUID "{12345678-ABCD-ef01-2345-6789ABCDEF01}"
  = Some "12345678-abcd-ef01-2345-6789abcdef01".
Proof. vm_compute. reflexivity. Qed.

Example uuid_tests :
  Uuid.UUID "0x345678-abcd-ef01-2345-6789abcdef01" = Some (0x345678abcdef0123456789abcdef01) ∧
  Uuid.UUID "+2345678-abcd-ef01-2345-6789abcdef01" = Some (0x2345678abcdef0123456789abcdef01) ∧
  Uuid.UUID "1_345678-abcd-ef01-2345-6789abcdef01" = Some (0x1345678abcdef0123456789abcdef01) ∧
  Uuid.UUID "_2345678-abcd-ef01-2345-6789abcdef01" = None ∧
  Uuid.UUID "12345678-abcd-ef01-2345-6789abcdef0" = None ∧
  Uuid.UUID "urn:uuid:12345678-abcd-ef01-2345-6789abcdef01" = Some (0x12345678abcdef0123456789abcdef01) ∧
  Py.split " a  bc
 d " = ["a"; "bc"; "d"] ∧ Py.strip "  a b  " = "a b" ∧
  Uuid.canonical "12345678-abcd-ef01-2345-6789abcdef01" = true ∧
  Uuid.canonical "12345678-Abcd-ef01-2345-6789abcdef01" = false ∧
  Py.remove "aa" "aaab" = "ab".
Proof. vm_compute. repeat split; reflexivity. Qed.

(** ** Facts about the text operations *)

Module PyFacts.
Import Py.

Lemma sapp_cons (x : ascii) (a b : string) :
  String x a +:+ b = String x (a +:+ b).
Proof. done. Qed.

Lemma sapp_nil_l (a : string) : "" +:+ a = a.
Proof. done. Qed.

Lemma sapp_assoc (a b c : string) : (a +:+ b) +:+ c = a +:+ (b +:+ c).
Proof.
  induction a as [|x a IH]; [done|]. by rewrite !sapp_cons, IH.
Qed.

Lemma sapp_nil_r (a : string) : a +:+ "" = a.
Proof. induction a as [|x a IH]; [done|]. by rewrite sapp_cons, IH. Qed.

Lemma length_sapp (a b : string) :
  String.length (a +:+ b) = (String.length a + String.length b)%nat.
Proof.
  induction a as [|x a IH]; [done|]. rewrite sapp_cons. simpl. by rewrite IH.
Qed.

Lemma all_sapp p (a b : string) : all p (a +:+ b) = all p a && all p b.
Proof.
  induction a as [|x a IH]; [done|]. rewrite sapp_cons. simpl.
  by rewrite IH, andb_assoc.
Qed.

Lemma nonempty_app_r (a b : string) : nonempty b = true → nonempty (a +:+ b) = true.
Proof. by destruct a, b. Qed.

Lemma flush_app (word : string) (c : ascii) :
  flush (word +:+ String c "") = [word +:+ String c ""].
Proof. unfold flush. by rewrite nonempty_app_r. Qed.

(** Whitespace ends the current word and starts afresh. *)
Lemma split_from_space word s w t :
  isspace w = true →
  split_from word (s +:+ String w t) = split_from word s ++ split_from "" t.
Proof.
  intros Hw. revert word.
  induction s as [|c s IH]; intros word; simpl.
  - rewrite Hw. done.
  - destruct (isspace c); [|apply IH].
    by rewrite IH, (assoc_L (++)).
Qed.

Lemma split_from_word word t :
  all (λ c, negb (isspace c)) t = true →
  split_from word t = flush (word +:+ t).
Proof.
  revert word. induction t as [|c t IH]; intros word Ht; simpl in *.
  - by rewrite sapp_nil_r.
  - apply andb_prop in Ht as [Hc Ht].
    destruct (isspace c); [done|].
    rewrite IH by done. by rewrite sapp_assoc.
Qed.

Lemma split_token t : is_token t = true → split t = [t].
Proof.
  unfold is_token, split. intros [Hn Ht]%andb_prop.
  rewrite split_from_word by done. rewrite sapp_nil_l. unfold flush. by rewrite Hn.
Qed.

Lemma split_from_blank word b :
  blank b = true → split_from word b = flush word.
Proof.
  revert word. induction b as [|c b IH]; intros word Hb; simpl in *; [done|].
  apply andb_prop in Hb as [-> Hb]. rewrite IH by done.
  apply List.app_nil_r.
Qed.

(** [s.strip().split()] is [s.split()]. *)
Lemma split_from_lstrip s : split_from "" (lstrip_by isspace s) = split_from "" s.
Proof.
  induction s as [|c s IH]; simpl; [done|].
  destruct (isspace c) eqn:Hc; simpl; [done|]. by rewrite Hc.
Qed.

Lemma split_from_rstrip word s :
  split_from word (rstrip_by isspace s) = split_from word s.
Proof.
  revert word. induction s as [|c s IH]; intros word; simpl; [done|].
  destruct (nonempty (rstrip_by isspace s)) eqn:Hr; simpl.
  - destruct (isspace c); by rewrite IH.
  - destruct (isspace c) eqn:Hc; simpl.
    + rewrite <- IH. destruct (rstrip_by isspace s); [|done].
      symmetry. apply List.app_nil_r.
    + rewrite Hc. apply IH.
Qed.

Lemma split_strip s : split (strip s) = split s.
Proof.
  unfold split, strip, strip_by.
  by rewrite split_from_lstrip, split_from_rstrip.
Qed.

Lemma last_word_space a w b :
  isspace w = true →
  last_word (a +:+ String w b)
  = match last_word b with Some y => Some y | None => last_word a end.
Proof.
  intros Hw. unfold last_word, split.
  by rewrite split_from_space, last_app.
Qed.

Lemma last_word_token t : is_token t = true → last_word t = Some t.
Proof. intros Ht. unfold last_word. by rewrite split_token. Qed.

Lemma last_word_blank b : blank b = true → last_word b = None.
Proof. intros Hb. unfold last_word, split. by rewrite split_from_blank. Qed.

Lemma token_not_blank t : is_token t = true → blank t = false.
Proof.
  unfold is_token, blank. destruct t as [|c t]; simpl; [done|].
  by destruct (isspace c).
Qed.

End PyFacts.

Module UuidFacts.
Import Py PyFacts.

(** *** Removing what does not occur *)

Lemma prefix_nil s : String.prefix "" s = true.
Proof. by destruct s. Qed.

Lemma prefix_cons_ne x old c s :
  x ≠ c → String.prefix (String x old) (String c s) = false.
Proof. intros Hne. simpl. by destruct (ascii_dec x c). Qed.

Lemma remove_absent x old s :
  all (λ c, negb (Ascii.eqb c x)) s = true →
  remove (String x old) s = s.
Proof.
  unfold remove. induction s as [|c s IH]; intros Hs; [done|].
  simpl in Hs. apply andb_prop in Hs as [Hc Hs].
  apply negb_true_iff, Ascii.eqb_neq in Hc.
  cbn [remove_from]. rewrite prefix_cons_ne by done.
  by rewrite IH.
Qed.

Lemma remove_char_app x a b :
  remove (String x "") (a +:+ b)
  = remove (String x "") a +:+ remove (String x "") b.
Proof.
  unfold remove. induction a as [|c a IH]; [done|].
  rewrite sapp_cons. cbn [remove_from String.prefix String.length Nat.sub].
  destruct (ascii_dec x c).
  - rewrite !prefix_nil. apply IH.
  - by rewrite sapp_cons, IH.
Qed.

Lemma strip_by_absent p s :
  all (λ c, negb (p c)) s = true → strip_by p s = s.
Proof.
  intros Hs. unfold strip_by.
  assert (rstrip_by p s = s) as ->.
  { induction s as [|c s IH]; [done|]. simpl in *.
    apply andb_prop in Hs as [Hc Hs]. rewrite IH by done.
    apply negb_true_iff in Hc. rewrite Hc. by rewrite andb_false_r. }
  destruct s as [|c s]; [done|]. simpl in *.
  apply andb_prop in Hs as [Hc _]. apply negb_true_iff in Hc. by rewrite Hc.
Qed.

Lemma all_impl (p q : ascii → bool) s :
  (∀ c, p c = true → q c = true) → all p s = true → all q s = true.
Proof.
  intros Hpq. induction s as [|c s IH]; [done|]. simpl.
  intros [Hc Hs]%andb_prop. by rewrite (Hpq c Hc), IH.
Qed.
End UuidFacts.

Module HexFacts.
Import Py PyFacts UuidFacts.
Import Uuid.

(** *** Hexadecimal digits *)

Lemma lower_hex_char c :
  is_lower_hex c = true →
  Ascii.eqb c "_" = false ∧ c ≠ "+"%char ∧ c ≠ "-"%char ∧
  c ≠ "x"%char ∧ c ≠ "X"%char ∧ c ≠ "u"%char ∧ c ≠ "{"%char ∧ c ≠ "}"%char ∧
  isspace c = false ∧
  ∃ d, hexval c = Some d ∧ (d < 16)%N ∧ hexdigit d = c.
Proof.
  destruct c as [[] [] [] [] [] [] [] []]; intros H; try discriminate H;
    (repeat split; [done..|]); eexists; repeat split; done.
Qed.

Lemma hexdigit_lower d : (d < 16)%N → is_lower_hex (hexdigit d) = true.
Proof.
  intros Hd.
  assert (Hcases : (d = 0 ∨ d = 1 ∨ d = 2 ∨ d = 3 ∨ d = 4 ∨ d = 5 ∨ d = 6 ∨
                    d = 7 ∨ d = 8 ∨ d = 9 ∨ d = 10 ∨ d = 11 ∨ d = 12 ∨
                    d = 13 ∨ d = 14 ∨ d = 15)%N) by lia.
  repeat (destruct Hcases as [->|Hcases]; [done|]). by subst.
Qed.

Lemma hv_range c : 0 ≤ hv c < 16 ∨ is_lower_hex c = false.
Proof.
  destruct (is_lower_hex c) eqn:Hc; [left|by right].
  destruct (lower_hex_char c Hc) as (_&_&_&_&_&_&_&_&_&d&Hd&?&_).
  unfold hv. rewrite Hd. simpl. lia.
Qed.

Lemma zval_bound ds :
  all is_lower_hex ds = true → 0 ≤ zval ds < 16 ^ Z.of_nat (String.length ds).
Proof.
  induction ds as [|c ds IH]; intros H; [simpl; lia|].
  simpl in H. apply andb_prop in H as [Hc Hds].
  specialize (IH Hds).
  destruct (hv_range c) as [Hv|?]; [|congruence].
  cbn [zval String.length]. rewrite Nat2Z.inj_succ, Z.pow_succ_r by lia.
  nia.
Qed.

Lemma digits16_lower acc ds :
  all is_lower_hex ds = true →
  ∃ v, digits16 acc false ds = Some v ∧
       Z.of_N v = Z.of_N acc * 16 ^ Z.of_nat (String.length ds) + zval ds.
Proof.
  revert acc. induction ds as [|c ds IH]; intros acc H.
  - exists acc. split; [done|]. simpl. lia.
  - simpl in H. apply andb_prop in H as [Hc Hds].
    destruct (lower_hex_char c Hc) as (Hus&_&_&_&_&_&_&_&_&d&Hd&?&_).
    cbn [digits16]. rewrite Hus, Hd.
    destruct (IH (acc * 16 + d)%N Hds) as (v&Hv&Hval).
    exists v. split; [done|]. rewrite Hval.
    cbn [zval String.length]. unfold hv. rewrite Hd. simpl default.
    rewrite Nat2Z.inj_succ, Z.pow_succ_r by lia. lia.
Qed.

Lemma length_hex_width w n : String.length (hex_width w n) = w.
Proof. induction w as [|w IH]; simpl; [done|]. by rewrite IH. Qed.

Lemma hex_width_lower w n : all is_lower_hex (hex_width w n) = true.
Proof.
  induction w as [|w IH]; simpl; [done|]. rewrite IH, andb_true_r.
  apply hexdigit_lower.
  pose proof (Z.mod_pos_bound (n / 16 ^ Z.of_nat w) 16 ltac:(lia)). lia.
Qed.

(** Only the [w] low digits of the number matter. *)
Lemma hex_width_add w n k j :
  (w ≤ j)%nat → hex_width w (n + k * 16 ^ Z.of_nat j) = hex_width w n.
Proof.
  induction w as [|w IH]; intros Hj; [done|].
  cbn [hex_width]. rewrite IH by lia. f_equal. f_equal. f_equal.
  replace (k * 16 ^ Z.of_nat j)
    with ((k * 16 ^ (Z.of_nat j - Z.of_nat w - 1) * 16) * 16 ^ Z.of_nat w).
  - rewrite Z.div_add by lia. by rewrite Z.add_mod, Z.mod_mul, Z.add_0_r, Z.mod_mod by lia.
  - rewrite <- !Z.mul_assoc. f_equal.
    rewrite <- (Z.pow_1_r 16) at 2. rewrite <- !Z.pow_add_r by lia.
    f_equal. lia.
Qed.

Lemma hex_width_zval ds :
  all is_lower_hex ds = true → hex_width (String.length ds) (zval ds) = ds.
Proof.
  induction ds as [|c ds IH]; intros H; [done|].
  simpl in H. apply andb_prop in H as [Hc Hds].
  destruct (lower_hex_char c Hc) as (_&_&_&_&_&_&_&_&_&d&Hd&?&Hdc).
  pose proof (zval_bound ds Hds) as Hb.
  cbn [String.length hex_width zval]. f_equal.
  - rewrite Z.div_add_l by lia. rewrite Z.div_small by lia.
    rewrite Z.add_0_r. unfold hv. rewrite Hd. simpl default.
    rewrite Z.mod_small by lia. by rewrite N2Z.id.
  - rewrite Z.add_comm, hex_width_add by lia. by apply IH.
Qed.

Lemma format_032x_small n :
  0 ≤ n < 2 ^ 128 → format_032x n = hex_width 32 n.
Proof.
  intros Hn. unfold format_032x. f_equal. apply Nat.max_l.
  unfold hexlen. destruct (n =? 0) eqn:H0; [lia|].
  apply Z.eqb_neq in H0.
  assert (Z.log2 n < 128) by (apply Z.log2_lt_pow2; lia).
  pose proof (Z.log2_nonneg n).
  assert (Z.log2 n / 4 < 32) by (apply Z.div_lt_upper_bound; lia).
  assert (0 ≤ Z.log2 n / 4) by (apply Z.div_pos; lia). lia.
Qed.
End HexFacts.

Module CanonFacts.
Import Py PyFacts UuidFacts HexFacts.
Import Uuid.

Local Arguments is_lower_hex : simpl never.

Tactic Notation "chars" ident(s) integer(n) :=
  do n (destruct s as [|? s]; [done|]); destruct s; [|done].

Lemma canonical_groups s :
  canonical s = true ↔ ∃ a b c d e, groups a b c d e ∧ s = hyphens a b c d e.
Proof.
  split.
  - unfold canonical. intros H.
    repeat (apply andb_prop in H as [H ?]).
    apply bool_decide_eq_true in H.
    chars s 36.
    repeat match goal with
           | H : bool_decide _ = true |- _ =>
               apply bool_decide_eq_true in H; cbn in H; simplify_eq
           end.
    eexists (String _ (String _ (String _ (String _ (String _ (String _ (String _ (String _ "")))))))),
      (String _ (String _ (String _ (String _ "")))),
      (String _ (String _ (String _ (String _ "")))),
      (String _ (String _ (String _ (String _ "")))),
      (String _ (String _ (String _ (String _ (String _ (String _ (String _ (String _
         (String _ (String _ (String _ (String _ "")))))))))))).
    split; [|reflexivity]. by split.
  - intros (a&b&c&d&e&[]&->).
    chars a 8. chars b 4. chars c 4. chars d 4. chars e 12.
    unfold canonical.
    cbv [hyphens slice String.substring String.append Nat.sub String.length all] in *.
    repeat match goal with
           | H : _ && _ = true |- _ => apply andb_prop in H as [? H]
           end.
    repeat (apply andb_true_intro; split);
      first [by apply bool_decide_eq_true_2 | assumption | reflexivity].
Qed.

(** Cutting the 32 digits into groups and joining them with hyphens. *)
Lemma hyphenate_groups a b c d e :
  groups a b c d e →
  let hex := a +:+ b +:+ c +:+ d +:+ e in
  slice 0 8 hex +:+ "-" +:+ slice 8 12 hex +:+ "-" +:+
  slice 12 16 hex +:+ "-" +:+ slice 16 20 hex +:+ "-" +:+
  String.substring 20 (String.length hex - 20) hex
  = hyphens a b c d e.
Proof.
  intros [].
  chars a 8. chars b 4. chars c 4. chars d 4. chars e 12.
  reflexivity.
Qed.

Lemma groups_digits a b c d e :
  groups a b c d e →
  let hex := a +:+ b +:+ c +:+ d +:+ e in
  String.length hex = 32%nat ∧ all is_lower_hex hex = true.
Proof.
  intros []. split.
  - rewrite !length_sapp. lia.
  - rewrite !all_sapp. by repeat (apply andb_true_intro; split).
Qed.
End CanonFacts.

Module UuidRoundTrip.
Import Py PyFacts UuidFacts HexFacts CanonFacts.
Import Uuid.

Local Arguments is_lower_hex : simpl never.

Lemma id_char_facts c :
  id_char c = true →
  negb (Ascii.eqb c "u") = true ∧
  negb (bool_decide (c ∈ list_ascii_of_string "{}")) = true ∧
  isspace c = false.
Proof.
  destruct c as [[] [] [] [] [] [] [] []]; intros H; try discriminate H;
    vm_compute; done.
Qed.

Lemma lower_hex_not_hyphen c :
  is_lower_hex c = true → negb (Ascii.eqb c "-") = true.
Proof.
  intros H. destruct (lower_hex_char c H) as (_&_&Hne&_).
  by apply negb_true_iff, Ascii.eqb_neq.
Qed.

Lemma int16_digits c0 c1 ds :
  is_lower_hex c0 = true → is_lower_hex c1 = true →
  int16 (String c0 (String c1 ds))
  = Z.of_N <$> digits16 0 false (String c0 (String c1 ds)).
Proof.
  destruct c0 as [[] [] [] [] [] [] [] []]; intros H0; try discriminate H0;
    destruct c1 as [[] [] [] [] [] [] [] []]; intros H1; try discriminate H1;
    reflexivity.
Qed.

Lemma all_id_char a b c d e :
  groups a b c d e → all id_char (hyphens a b c d e) = true.
Proof.
  intros []. unfold hyphens. rewrite !all_sapp.
  assert (∀ x, all is_lower_hex x = true → all id_char x = true) as Hx.
  { intros x. apply all_impl. intros ch Hch. unfold id_char. by rewrite Hch. }
  rewrite (Hx a), (Hx b), (Hx c), (Hx d), (Hx e) by done. reflexivity.
Qed.

Lemma remove_hyphens a b c d e :
  groups a b c d e →
  remove "-" (hyphens a b c d e) = a +:+ b +:+ c +:+ d +:+ e.
Proof.
  intros []. unfold hyphens. rewrite !remove_char_app.
  assert (∀ x, all is_lower_hex x = true → remove "-" x = x) as Hx.
  { intros x Hx. apply remove_absent. revert Hx. apply all_impl.
    apply lower_hex_not_hyphen. }
  rewrite (Hx a), (Hx b), (Hx c), (Hx d), (Hx e) by done.
  change (remove "-" "-") with "". reflexivity.
Qed.

(** Reading a canonical id and printing it gives the id back. *)
Lemma UUID_canonical s :
  canonical s = true → ∃ n, UUID s = Some n ∧ str n = s.
Proof.
  intros (a&b&c&d&e&Hg&->)%canonical_groups.
  pose proof (all_id_char _ _ _ _ _ Hg) as Hall.
  pose proof (groups_digits _ _ _ _ _ Hg) as [Hlen Hhex]. cbv zeta in *.
  set (hex := a +:+ b +:+ c +:+ d +:+ e) in *.
  exists (zval hex).
  pose proof (zval_bound hex Hhex) as Hb. rewrite Hlen in Hb.
  assert (UUID (hyphens a b c d e) = Some (zval hex)) as HU.
  { unfold UUID.
    rewrite (remove_absent "u" "rn:")
      by (revert Hall; apply all_impl; intros ch Hch; by apply id_char_facts).
    rewrite (remove_absent "u" "uid:")
      by (revert Hall; apply all_impl; intros ch Hch; by apply id_char_facts).
    unfold strip_chars. rewrite strip_by_absent
      by (revert Hall; apply all_impl; intros ch Hch; by apply id_char_facts).
    rewrite remove_hyphens by done. fold hex.
    rewrite bool_decide_eq_true_2 by done.
    destruct hex as [|c0 [|c1 ds]] eqn:Hds; [done..|].
    rewrite <- Hds in *.
    assert (int16 hex = Some (zval hex)) as ->.
    { rewrite Hds. rewrite int16_digits.
      - rewrite <- Hds.
        destruct (digits16_lower 0 hex Hhex) as (v&->&Hv).
        simpl. f_equal. lia.
      - rewrite Hds in Hhex. simpl in Hhex. by apply andb_prop in Hhex as [? _].
      - rewrite Hds in Hhex. simpl in Hhex.
        apply andb_prop in Hhex as [_ Hhex]. by apply andb_prop in Hhex as [? _]. }
    assert ((0 <=? zval hex) && (zval hex <? 2 ^ 128) = true) as ->; [|done].
    apply andb_true_intro. split; [apply Z.leb_le|apply Z.ltb_lt]; lia. }
  split; [done|].
  unfold str. rewrite format_032x_small by lia.
  rewrite <- Hlen, hex_width_zval by done.
  by apply hyphenate_groups.
Qed.

(** What [str] prints for a 128-bit value is canonical. *)
Lemma str_canonical n : 0 ≤ n < 2 ^ 128 → canonical (str n) = true.
Proof.
  intros Hn. unfold str. rewrite format_032x_small by done.
  pose proof (length_hex_width 32 n) as Hlen.
  pose proof (hex_width_lower 32 n) as Hhex.
  generalize dependent (hex_width 32 n). intros hex Hlen Hhex.
  chars hex 32.
  cbv [all] in Hhex.
  repeat match goal with
         | H : _ && _ = true |- _ => apply andb_prop in H as [? H]
         end.
  apply canonical_groups.
  eexists (String _ (String _ (String _ (String _ (String _ (String _ (String _ (String _ "")))))))),
    (String _ (String _ (String _ (String _ "")))),
    (String _ (String _ (String _ (String _ "")))),
    (String _ (String _ (String _ (String _ "")))),
    (String _ (String _ (String _ (String _ (String _ (String _ (String _ (String _
       (String _ (String _ (String _ (String _ "")))))))))))).
  split; [|reflexivity].
  split; try reflexivity; cbv [all];
    repeat (apply andb_true_intro; split); first [assumption | reflexivity].
Qed.

Lemma UUID_range s n : UUID s = Some n → 0 ≤ n < 2 ^ 128.
Proof.
  unfold UUID. intros H. case_bool_decide; [|done].
  destruct (int16 _) as [m|]; [|done].
  destruct ((0 <=? m) && (m <? 2 ^ 128)) eqn:Hm; [|done].
  simplify_eq. apply andb_prop in Hm as [?%Z.leb_le ?%Z.ltb_lt]. lia.
Qed.

Lemma canonical_token s : canonical s = true → is_token s = true.
Proof.
  intros (a&b&c&d&e&Hg&->)%canonical_groups.
  pose proof (all_id_char _ _ _ _ _ Hg) as Hall.
  unfold is_token. apply andb_true_intro. split.
  - destruct Hg. destruct a; [done|]. done.
  - revert Hall. apply all_impl. intros ch Hch.
    apply negb_true_iff. by apply id_char_facts.
Qed.
End UuidRoundTrip.

(** ** Facts about git's tidying of a message *)

Module GitFacts.
Import Py PyFacts.

Lemma isspace_py c : Git.isspace c = true → isspace c = true.
Proof. by destruct c as [[] [] [] [] [] [] [] []]. Qed.

Lemma nonempty_false s : nonempty s = false → s = "".
Proof. by destruct s. Qed.

(** Cutting white space from the end of a text leaves its words. *)
Lemma split_from_rstrip_by (p : ascii → bool) word s :
  (∀ c, p c = true → isspace c = true) →
  split_from word (rstrip_by p s) = split_from word s.
Proof.
  intros Hp. revert word. induction s as [|c s IH]; intros word; simpl; [done|].
  destruct (nonempty (rstrip_by p s)) eqn:Hr; simpl.
  - destruct (isspace c); by rewrite IH.
  - destruct (p c) eqn:Hc; simpl.
    + rewrite (Hp c Hc). rewrite <- IH.
      apply nonempty_false in Hr. rewrite Hr. simpl.
      symmetry. apply List.app_nil_r.
    + destruct (isspace c); by rewrite IH.
Qed.

Lemma rstrip_by_absent p s :
  all (λ c, negb (p c)) s = true → rstrip_by p s = s.
Proof.
  induction s as [|c s IH]; [done|]. simpl.
  intros [Hc Hs]%andb_prop. rewrite IH by done.
  apply negb_true_iff in Hc. rewrite Hc. by rewrite andb_false_r.
Qed.

(** The words of a text are the words of its lines. *)
Lemma split_from_lines word s :
  split_from word s
  = match Git.lines s with
    | [] => flush word
    | line :: rest => split_from word line ++ concat (split <$> rest)
    end.
Proof.
  revert word. induction s as [|c s IH]; intros word; [done|].
  cbn [Git.lines split_from].
  assert (split_from "" s = concat (split <$> Git.lines s)) as Hrest.
  { rewrite IH. by destruct (Git.lines s). }
  destruct (Ascii.eqb_spec c "010") as [->|Hc].
  - change (isspace "010") with true. cbv iota.
    cbn [split_from]. by rewrite Hrest.
  - destruct (isspace c) eqn:Hsp.
    + rewrite Hrest. destruct (Git.lines s) as [|line rest];
        cbn [split_from fmap list_fmap concat]; rewrite Hsp.
      * change (flush "") with (@nil string).
        by rewrite !(right_id_L [] (++)).
      * by rewrite <- (assoc_L (++)).
    + rewrite IH. destruct (Git.lines s) as [|line rest];
        cbn [split_from fmap list_fmap concat]; rewrite Hsp.
      * by rewrite (right_id_L [] (++)).
      * done.
Qed.

Lemma split_lines s : split s = concat (split <$> Git.lines s).
Proof.
  unfold split at 1. rewrite split_from_lines. by destruct (Git.lines s).
Qed.

Lemma split_unlines ls : split (Git.unlines ls) = concat (split <$> ls).
Proof.
  induction ls as [|line [|line' rest] IH]; [done|..].
  - cbn. by rewrite (right_id_L [] (++)).
  - change (Git.unlines (line :: line' :: rest))
      with (line +:+ String "010" (Git.unlines (line' :: rest))).
    unfold split at 1. rewrite split_from_space by done.
    fold (split line). fold (split (Git.unlines (line' :: rest))).
    by rewrite IH.
Qed.

Lemma split_squeeze written empties ls :
  concat (split <$> Git.squeeze written empties ls)
  = concat (split <$> ls).
Proof.
  revert written empties. induction ls as [|line rest IH];
    intros written empties; [done|].
  cbn [Git.squeeze]. destruct (nonempty line) eqn:Hline.
  - rewrite fmap_app, concat_app, !fmap_cons, !concat_cons, IH.
    by destruct (empties && written).
  - apply nonempty_false in Hline as ->. by rewrite IH.
Qed.

(** Tidying a message changes none of its words. *)
Lemma split_stripspace msg : split (Git.stripspace msg) = split msg.
Proof.
  unfold Git.stripspace. rewrite split_unlines, split_squeeze, split_lines.
  f_equal. rewrite <- list_fmap_compose. apply list_fmap_ext.
  intros i line _. cbn. apply split_from_rstrip_by, isspace_py.
Qed.

Lemma last_word_stripspace msg :
  last_word (Git.stripspace msg) = last_word msg.
Proof. unfold last_word. by rewrite split_stripspace. Qed.

Lemma stripspace_nonempty msg word :
  last_word msg = Some word → nonempty (Git.stripspace msg) = true.
Proof.
  rewrite <- last_word_stripspace. by destruct (Git.stripspace msg).
Qed.

(** A text without LF is one line. *)
Lemma lines_line line :
  nonempty line = true →
  all (λ c, negb (Ascii.eqb c "010")) line = true →
  Git.lines line = [line].
Proof.
  induction line as [|c line IH]; [done|]. cbn [all].
  intros _ [Hc Hline]%andb_prop. apply negb_true_iff in Hc.
  cbn [Git.lines]. rewrite Hc.
  destruct line as [|c' line]; [done|]. by rewrite IH.
Qed.

Lemma lines_app line rest :
  all (λ c, negb (Ascii.eqb c "010")) line = true →
  Git.lines (line +:+ String "010" rest) = line :: Git.lines rest.
Proof.
  induction line as [|c line IH]; [done|]. cbn [all].
  intros [Hc Hline]%andb_prop. apply negb_true_iff in Hc.
  rewrite sapp_cons. cbn [Git.lines]. by rewrite Hc, IH.
Qed.

Lemma token_line t :
  is_token t = true →
  nonempty t = true ∧
  all (λ c, negb (Ascii.eqb c "010")) t = true ∧
  rstrip_by Git.isspace t = t.
Proof.
  intros [Hne Ht]%andb_prop. split; [done|]. split.
  - eapply UuidFacts.all_impl; [|exact Ht]. intros c Hc.
    destruct (Ascii.eqb_spec c "010") as [->|]; [done|done].
  - apply rstrip_by_absent. eapply UuidFacts.all_impl; [|exact Ht].
    intros c Hc. cbv beta in Hc. destruct (Git.isspace c) eqn:Hg; [|done].
    apply isspace_py in Hg. by rewrite Hg in Hc.
Qed.

(** A word is a tidy message, and so are a tidy line, an empty line
    and a word. *)
Lemma stripspace_token t : is_token t = true → Git.stripspace t = t.
Proof.
  intros (Hne & Hlf & Hstrip)%token_line. unfold Git.stripspace.
  rewrite lines_line by done. cbn [fmap list_fmap Git.squeeze].
  rewrite Hstrip, Hne. done.
Qed.

Lemma stripspace_reason line t :
  Git.tidy_line line = true →
  is_token t = true →
  Git.stripspace (line +:+ String "010" (String "010" "") +:+ t)
  = line +:+ String "010" (String "010" "") +:+ t.
Proof.
  unfold Git.tidy_line.
  intros [[Hline Hlf]%andb_prop Hstrip%bool_decide_eq_true]%andb_prop
    (Hne & Htlf & Htstrip)%token_line.
  unfold Git.stripspace.
  change (String "010" (String "010" "") +:+ t)
    with (String "010" (String "010" t)).
  rewrite lines_app by done.
  change (String "010" t) with ("" +:+ String "010" t).
  rewrite lines_app by done. rewrite lines_line by done.
  cbn [fmap list_fmap Git.squeeze rstrip_by].
  rewrite Hstrip, Htstrip, Hline, Hne. done.
Qed.
End GitFacts.

(** ** Other spellings of an id *)

Module SpellingFacts.
Import Py PyFacts UuidFacts HexFacts CanonFacts UuidRoundTrip.
Import Uuid.

Local Arguments is_lower_hex : simpl never.

(** Thirty-two lowercase digits are read as the number they denote. *)
Lemma int16_lower hex :
  String.length hex = 32%nat → all is_lower_hex hex = true →
  int16 hex = Some (zval hex).
Proof.
  intros Hlen Hhex.
  destruct hex as [|c0 [|c1 ds]] eqn:Hds; [done..|].
  rewrite <- Hds in *. rewrite Hds at 1. rewrite int16_digits.
  - rewrite <- Hds.
    destruct (digits16_lower 0 hex Hhex) as (v&->&Hv).
    simpl. f_equal. lia.
  - rewrite Hds in Hhex. simpl in Hhex. by apply andb_prop in Hhex as [? _].
  - rewrite Hds in Hhex. simpl in Hhex.
    apply andb_prop in Hhex as [_ Hhex]. by apply andb_prop in Hhex as [? _].
Qed.

Lemma in_range hex :
  String.length hex = 32%nat → all is_lower_hex hex = true →
  (0 <=? zval hex) && (zval hex <? 2 ^ 128) = true.
Proof.
  intros Hlen Hhex. pose proof (zval_bound hex Hhex) as Hb.
  rewrite Hlen in Hb.
  apply andb_true_intro. split; [apply Z.leb_le|apply Z.ltb_lt]; lia.
Qed.

Lemma UUID_hyphens a b c d e :
  groups a b c d e →
  UUID (hyphens a b c d e) = Some (zval (a +:+ b +:+ c +:+ d +:+ e)).
Proof.
  intros Hg.
  pose proof (all_id_char _ _ _ _ _ Hg) as Hall.
  pose proof (groups_digits _ _ _ _ _ Hg) as [Hlen Hhex]. cbv zeta in *.
  unfold UUID.
  rewrite (remove_absent "u" "rn:")
    by (revert Hall; apply all_impl; intros ch Hch; by apply id_char_facts).
  rewrite (remove_absent "u" "uid:")
    by (revert Hall; apply all_impl; intros ch Hch; by apply id_char_facts).
  unfold strip_chars. rewrite strip_by_absent
    by (revert Hall; apply all_impl; intros ch Hch; by apply id_char_facts).
  rewrite remove_hyphens by done.
  rewrite bool_decide_eq_true_2 by done.
  by rewrite int16_lower, in_range.
Qed.

(** *** The digits of a number, read back *)

Lemma hv_hexdigit d : (d < 16)%N → hv (hexdigit d) = Z.of_N d.
Proof.
  intros Hd.
  assert (Hcases : (d = 0 ∨ d = 1 ∨ d = 2 ∨ d = 3 ∨ d = 4 ∨ d = 5 ∨ d = 6 ∨
                    d = 7 ∨ d = 8 ∨ d = 9 ∨ d = 10 ∨ d = 11 ∨ d = 12 ∨
                    d = 13 ∨ d = 14 ∨ d = 15)%N) by lia.
  repeat (destruct Hcases as [->|Hcases]; [done|]). by subst.
Qed.

Lemma zval_hex_width w n :
  0 ≤ n → zval (hex_width w n) = n mod 16 ^ Z.of_nat w.
Proof.
  intros Hn. induction w as [|w IH]; [by rewrite Z.mod_1_r|].
  cbn [hex_width zval]. rewrite length_hex_width, IH.
  pose proof (Z.mod_pos_bound (n / 16 ^ Z.of_nat w) 16 ltac:(lia)).
  rewrite hv_hexdigit by lia. rewrite Z2N.id by lia.
  rewrite Nat2Z.inj_succ, Z.pow_succ_r by lia.
  rewrite (Z.mul_comm 16), Z.rem_mul_r by lia. lia.
Qed.

(** The five groups of thirty-two digits. *)
Lemma slices_groups hex :
  String.length hex = 32%nat → all is_lower_hex hex = true →
  groups (slice 0 8 hex) (slice 8 12 hex) (slice 12 16 hex)
         (slice 16 20 hex)
         (String.substring 20 (String.length hex - 20) hex) ∧
  slice 0 8 hex +:+ slice 8 12 hex +:+ slice 12 16 hex +:+
  slice 16 20 hex +:+ String.substring 20 (String.length hex - 20) hex
  = hex.
Proof.
  intros Hlen Hhex. chars hex 32.
  cbv [all] in Hhex.
  repeat match goal with
         | H : _ && _ = true |- _ => apply andb_prop in H as [? H]
         end.
  split; [|reflexivity].
  split; try reflexivity; cbv [all slice String.substring Nat.sub String.length];
    repeat (apply andb_true_intro; split); first [assumption | reflexivity].
Qed.

(** Printing a 128-bit value and reading it gives the value back. *)
Lemma UUID_str n : 0 ≤ n < 2 ^ 128 → UUID (str n) = Some n.
Proof.
  intros Hn. unfold str. rewrite format_032x_small by done.
  destruct (slices_groups (hex_width 32 n)) as [Hg Hcat].
  { apply length_hex_width. }
  { apply hex_width_lower. }
  change (UUID (hyphens (slice 0 8 (hex_width 32 n))
                  (slice 8 12 (hex_width 32 n))
                  (slice 12 16 (hex_width 32 n))
                  (slice 16 20 (hex_width 32 n))
                  (String.substring 20
                     (String.length (hex_width 32 n) - 20)
                     (hex_width 32 n))) = Some n).
  rewrite UUID_hyphens by done. rewrite Hcat.
  rewrite zval_hex_width by lia. f_equal. apply Z.mod_small.
  change (16 ^ Z.of_nat 32) with (2 ^ 128). lia.
Qed.

(** *** Braces, the URN prefix, no hyphens, capital digits *)

Lemma rstrip_by_snoc p a c :
  p c = true → rstrip_by p (a +:+ String c "") = rstrip_by p a.
Proof.
  intros Hc. induction a as [|x a IH]; cbn [rstrip_by String.append].
  - rewrite sapp_nil_l. cbn. by rewrite Hc.
  - rewrite sapp_cons. cbn [rstrip_by]. by rewrite IH.
Qed.

Lemma strip_braces s :
  nonempty s = true →
  all (λ c, negb (bool_decide (c ∈ list_ascii_of_string "{}"))) s = true →
  strip_chars "{}" ("{" +:+ s +:+ "}") = s.
Proof.
  intros Hne Hs. unfold strip_chars, strip_by.
  change ("{" +:+ s +:+ "}") with (String "{" (s +:+ String "}" "")).
  cbn [rstrip_by]. rewrite rstrip_by_snoc by done.
  rewrite GitFacts.rstrip_by_absent by done. rewrite Hne. cbn.
  destruct s as [|c s]; [done|]. cbn in Hs |- *.
  apply andb_prop in Hs as [Hc _]. apply negb_true_iff in Hc. by rewrite Hc.
Qed.

Lemma remove_urn s :
  all (λ c, negb (Ascii.eqb c "u")) s = true →
  remove "uuid:" (remove "urn:" ("urn:uuid:" +:+ s)) = s.
Proof.
  intros Hs.
  pose proof (UuidFacts.remove_absent "u" "rn:" s Hs) as H1.
  pose proof (UuidFacts.remove_absent "u" "uid:" s Hs) as H2.
  unfold remove in *.
  change ("urn:uuid:" +:+ s)
    with (String "u" (String "r" (String "n" (String ":" (String "u"
           (String "u" (String "i" (String "d" (String ":" s))))))))).
  simpl. rewrite H1, prefix_nil. exact H2.
Qed.

Lemma upper_app a b : upper (a +:+ b) = upper a +:+ upper b.
Proof. induction a as [|c a IH]; [done|]. rewrite sapp_cons. cbn. by rewrite IH. Qed.

Lemma length_upper s : String.length (upper s) = String.length s.
Proof. induction s as [|c s IH]; [done|]. cbn. by rewrite IH. Qed.

Lemma all_upper (p q : ascii → bool) s :
  (∀ c, q c = true → p (upper_char c) = true) →
  all q s = true → all p (upper s) = true.
Proof.
  intros Hpq. induction s as [|c s IH]; [done|]. cbn.
  intros [Hc Hs]%andb_prop. by rewrite (Hpq c Hc), IH.
Qed.

(** A capital digit is a digit of the same value, and none of the
    characters [uuid.UUID] looks for. *)
Lemma upper_hex_char c :
  is_lower_hex c = true →
  Ascii.eqb (upper_char c) "_" = false ∧
  negb (Ascii.eqb (upper_char c) "u") = true ∧
  negb (Ascii.eqb (upper_char c) "-") = true ∧
  negb (bool_decide (upper_char c ∈ list_ascii_of_string "{}")) = true ∧
  hexval (upper_char c) = hexval c.
Proof.
  destruct c as [[] [] [] [] [] [] [] []]; intros H; try discriminate H;
    vm_compute; done.
Qed.

Lemma upper_id_char c :
  id_char c = true →
  negb (Ascii.eqb (upper_char c) "u") = true ∧
  negb (bool_decide (upper_char c ∈ list_ascii_of_string "{}")) = true.
Proof.
  destruct c as [[] [] [] [] [] [] [] []]; intros H; try discriminate H;
    vm_compute; done.
Qed.

Lemma digits16_upper acc ds :
  all is_lower_hex ds = true →
  digits16 acc false (upper ds) = digits16 acc false ds.
Proof.
  revert acc. induction ds as [|c ds IH]; intros acc H; [done|].
  cbn [all] in H. apply andb_prop in H as [Hc Hds].
  destruct (upper_hex_char c Hc) as (Hus & _ & _ & _ & Hval).
  destruct (lower_hex_char c Hc) as (Hus' & _).
  cbn [upper digits16]. rewrite Hus, Hus', Hval.
  destruct (hexval c); [by apply IH|done].
Qed.

Lemma int16_upper_digits c0 c1 ds :
  is_lower_hex c0 = true → is_lower_hex c1 = true →
  int16 (String (upper_char c0) (String (upper_char c1) ds))
  = Z.of_N <$> digits16 0 false
                 (String (upper_char c0) (String (upper_char c1) ds)).
Proof.
  destruct c0 as [[] [] [] [] [] [] [] []]; intros H0; try discriminate H0;
    destruct c1 as [[] [] [] [] [] [] [] []]; intros H1; try discriminate H1;
    reflexivity.
Qed.

Lemma int16_upper hex :
  String.length hex = 32%nat → all is_lower_hex hex = true →
  int16 (upper hex) = Some (zval hex).
Proof.
  intros Hlen Hhex. rewrite <- (int16_lower hex) by done.
  destruct hex as [|c0 [|c1 ds]] eqn:Hds; [done..|].
  pose proof Hhex as Hall. cbn [all] in Hhex.
  apply andb_prop in Hhex as [H0 Hhex]. apply andb_prop in Hhex as [H1 _].
  change (upper (String c0 (String c1 ds)))
    with (String (upper_char c0) (String (upper_char c1) (upper ds))).
  rewrite int16_upper_digits, int16_digits by done.
  change (String (upper_char c0) (String (upper_char c1) (upper ds)))
    with (upper (String c0 (String c1 ds))).
  by rewrite digits16_upper.
Qed.

Lemma upper_hyphens a b c d e :
  upper (hyphens a b c d e)
  = hyphens (upper a) (upper b) (upper c) (upper d) (upper e).
Proof. unfold hyphens. by rewrite !upper_app. Qed.

Lemma remove_upper_hyphens a b c d e :
  groups a b c d e →
  remove "-" (hyphens (upper a) (upper b) (upper c) (upper d) (upper e))
  = upper (a +:+ b +:+ c +:+ d +:+ e).
Proof.
  intros []. unfold hyphens. rewrite !remove_char_app, !upper_app.
  assert (∀ x, all is_lower_hex x = true → remove "-" (upper x) = upper x)
    as Hx.
  { intros x Hx. apply remove_absent. revert Hx. apply all_upper.
    intros ch Hch. by apply upper_hex_char. }
  rewrite (Hx a), (Hx b), (Hx c), (Hx d), (Hx e) by done.
  change (remove "-" "-") with "". reflexivity.
Qed.

(** Every spelling of a canonical id is read as the id is. *)
Lemma UUID_spellings id t :
  canonical id = true → t ∈ spellings id → UUID t = UUID id.
Proof.
  intros (a&b&c&d&e&Hg&->)%canonical_groups Ht.
  rewrite UUID_hyphens by done.
  pose proof (all_id_char _ _ _ _ _ Hg) as Hall.
  pose proof (groups_digits _ _ _ _ _ Hg) as [Hlen Hhex]. cbv zeta in *.
  set (id := hyphens a b c d e) in *.
  set (hex := a +:+ b +:+ c +:+ d +:+ e) in *.
  assert (all (λ ch, negb (Ascii.eqb ch "u")) id = true) as Hu
    by (revert Hall; apply all_impl; intros ch Hch; by apply id_char_facts).
  assert (all (λ ch, negb (bool_decide (ch ∈ list_ascii_of_string "{}"))) id
          = true) as Hb
    by (revert Hall; apply all_impl; intros ch Hch; by apply id_char_facts).
  assert (all (λ ch, negb (Ascii.eqb ch "u")) (upper id) = true) as Huu
    by (revert Hall; apply all_upper; intros ch Hch; by apply upper_id_char).
  assert (all (λ ch, negb (bool_decide (ch ∈ list_ascii_of_string "{}")))
            (upper id) = true) as Hbu
    by (revert Hall; apply all_upper; intros ch Hch; by apply upper_id_char).
  assert (nonempty id = true) as Hne.
  { unfold id, hyphens. destruct Hg. by destruct a. }
  assert (nonempty (upper id) = true) as Hneu by (by destruct id).
  assert (∀ x, String.length (remove "-" x) = 32%nat →
               int16 (remove "-" x) = Some (zval hex) →
               (if bool_decide (String.length (remove "-" x) = 32%nat)
                then match int16 (remove "-" x) with
                     | Some n =>
                         if (0 <=? n) && (n <? 2 ^ 128) then Some n else None
                     | None => None
                     end
                else None) = Some (zval hex)) as Hread.
  { intros x Hx ->. rewrite bool_decide_eq_true_2 by done.
    by rewrite in_range. }
  assert (remove "-" id = hex) as Hid by (by apply remove_hyphens).
  assert (remove "-" (upper id) = upper hex) as Hup
    by (unfold id; rewrite upper_hyphens; by apply remove_upper_hyphens).
  unfold spellings in Ht.
  repeat (apply elem_of_cons in Ht as [->|Ht]); [..|by apply elem_of_nil in Ht];
    unfold UUID.
  - rewrite (remove_absent "u" "rn:"), (remove_absent "u" "uid:");
      [|by rewrite !all_sapp, Hu..].
    rewrite strip_braces by done.
    apply Hread; rewrite Hid; [done|by apply int16_lower].
  - rewrite remove_urn by done.
    unfold strip_chars. rewrite strip_by_absent by done.
    apply Hread; rewrite Hid; [done|by apply int16_lower].
  - rewrite Hid.
    assert (all is_lower_hex hex = true) as Hhex' by done.
    assert (all id_char hex = true) as Hallh.
    { revert Hhex'. apply all_impl. intros ch Hch. unfold id_char.
      by rewrite Hch. }
    rewrite (remove_absent "u" "rn:"), (remove_absent "u" "uid:")
      by (revert Hallh; apply all_impl; intros ch Hch;
          by apply id_char_facts).
    unfold strip_chars. rewrite strip_by_absent
      by (revert Hallh; apply all_impl; intros ch Hch;
          by apply id_char_facts).
    assert (remove "-" hex = hex) as Hh.
    { apply remove_absent. revert Hhex'. apply all_impl.
      apply lower_hex_not_hyphen. }
    apply Hread; rewrite Hh; [done|by apply int16_lower].
  - rewrite (remove_absent "u" "rn:"), (remove_absent "u" "uid:") by done.
    unfold strip_chars. rewrite strip_by_absent by done.
    apply Hread; rewrite Hup; [by rewrite length_upper|by apply int16_upper].
  - rewrite (remove_absent "u" "rn:"), (remove_absent "u" "uid:");
      [|by rewrite !all_sapp, Huu..].
    rewrite strip_braces by done.
    apply Hread; rewrite Hup; [by rewrite length_upper|by apply int16_upper].
Qed.
End SpellingFacts.

Section ScriptFacts.
Import Py PyFacts.

Variable subreddit : Subreddit.
Variable CONFIG_email : option string.

Lemma save_revision_run r s :
  save_revision subreddit CONFIG_email r s
  = (after_save subreddit CONFIG_email r s, Return tt).
Proof.
  unfold save_revision, add_commit, after_save, bind, write_file,
    subprocess_run, ret, Git.add.
  cbn [worktree staged log exits].
  rewrite lookup_insert_eq.
  unfold Git.commit. cbn [worktree staged log exits].
  fold (message_of r). rewrite andb_diag.
  destruct (Git.date_ok _); cbn [negb]; [|done].
  destruct (decide _); [done|].
  by destruct (nonempty _).
Qed.

Lemma last_word_medium c :
  last_word (Git.medium c) = Some (default "+0000" (last_word (message c))).
Proof.
  unfold Git.medium.
  set (h := "commit" +:+ String "010" "Author: " +:+ author_name c +:+ " <" +:+
            author_email c +:+ ">" +:+ String "010" "Date:   " +:+
            pretty (author_date c)).
  set (nl := String "010" "").
  assert ("commit" +:+ String "010" "Author: " +:+ author_name c +:+ " <" +:+
          author_email c +:+ ">" +:+ String "010" "Date:   " +:+
          pretty (author_date c) +:+ " +0000" +:+
          String "010" (String "010" "    ") +:+ message c +:+ nl
          = (h +:+ String " " ("+0000" +:+ String "010" (String "010" "   ")))
            +:+ String " " (message c +:+ String "010" "")) as ->.
  { unfold h, nl. rewrite !sapp_assoc. reflexivity. }
  rewrite last_word_space by done.
  rewrite (last_word_space (message c) "010" "") by done.
  change (last_word "") with (@None string).
  destruct (last_word (message c)) as [w|]; [done|].
  rewrite last_word_space by done. reflexivity.
Qed.

(** The words of the command line after [--] are the words of the
    path. *)
Lemma split_command_words path :
  drop 6 (split ("git log -n 1 --pretty=medium -- " +:+ path)) = split path.
Proof.
  change ("git log -n 1 --pretty=medium -- " +:+ path)
    with ("git log -n 1 --pretty=medium --" +:+ String " " path).
  unfold split. by rewrite split_from_space.
Qed.

Lemma split_command path :
  is_token path = true →
  drop 6 (split ("git log -n 1 --pretty=medium -- " +:+ path)) = [path].
Proof. intros Hp. by rewrite split_command_words, split_token. Qed.

(** Cursor recovery read off the store, for any path: the paths [git
    log] is asked about are the words of the path. *)
Lemma get_last_saved_revision_words path s :
  get_last_saved_revision path s
  = (s, match worktree s !! path with
        | None => Return None
        | Some _ =>
            match log s with
            | [] => Raise CalledProcessError
            | _ =>
                match Git.last_touching (split path) (log s) with
                | None => Raise IndexError
                | Some c => Return (cursor_of_message (message c))
                end
            end
        end).
Proof.
  unfold get_last_saved_revision, bind, path_exists.
  destruct (worktree s !! path) as [content|] eqn:Hfile.
  2:{ rewrite bool_decide_eq_false_2; [done|]. by intros [? ?]. }
  rewrite bool_decide_eq_true_2 by eauto. cbn [negb].
  rewrite split_command_words.
  unfold check_output, Git.log_1.
  destruct (log s) as [|c0 l] eqn:Hlog; [done|].
  destruct (Git.last_touching (split path) (c0 :: l)) as [c|];
    cbn [decide_rel].
  - destruct (decide (0 = 0)); [|done].
    rewrite split_strip. fold (last_word (Git.medium c)).
    rewrite last_word_medium. unfold cursor_of_message.
    by destruct (Uuid.UUID _).
  - destruct (decide (0 = 0)); [|done]. done.
Qed.

Lemma get_last_saved_revision_run path s :
  is_token path = true →
  get_last_saved_revision path s = (s, lookup_cursor path s).
Proof.
  intros Hp. rewrite get_last_saved_revision_words.
  unfold lookup_cursor. by rewrite split_token.
Qed.
End ScriptFacts.

Section ReplayFacts.
Import Py PyFacts.

Variable subreddit : Subreddit.
Variable CONFIG_email : option string.

Local Abbreviation save_revision := (save_revision subreddit CONFIG_email).
Local Abbreviation after_save := (after_save subreddit CONFIG_email).
Local Abbreviation after_replay := (after_replay subreddit CONFIG_email).
Local Abbreviation commit_of := (commit_of subreddit CONFIG_email).
Local Abbreviation page_file := (page_file subreddit).

Lemma for_each_save revs s :
  for_each revs save_revision s = (after_replay revs s, Return tt).
Proof.
  revert s. induction revs as [|r revs IH]; intros s; [done|].
  cbn [for_each]. unfold bind at 1. rewrite save_revision_run. apply IH.
Qed.

Lemma after_replay_app revs1 revs2 s :
  after_replay (revs1 ++ revs2) s = after_replay revs2 (after_replay revs1 s).
Proof. apply foldl_app. Qed.

Lemma worktree_after_save r s :
  worktree (after_save r s)
  = <[page_file (name r) := content_md r]> (worktree s).
Proof. unfold after_save. by repeat case_match. Qed.

Lemma staged_after_save r s :
  staged (after_save r s)
  = <[page_file (name r) := content_md r]> (staged s).
Proof. unfold after_save. by repeat case_match. Qed.

Lemma exits_after_save r s :
  ∃ code, exits (after_save r s) = code :: 0 :: exits s.
Proof. unfold after_save. repeat case_match; eauto. Qed.

Lemma log_after_save r s :
  log (after_save r s) = log s ∨
  log (after_save r s) = commit_of r (staged (after_save r s)) :: log s.
Proof. unfold after_save. repeat case_match; cbn; eauto. Qed.

Lemma refusals_after_save r s :
  (refusals s ≤ refusals (after_save r s))%nat.
Proof.
  unfold refusals. destruct (exits_after_save r s) as [code ->].
  rewrite !filter_cons. repeat case_decide; simpl; lia.
Qed.

(** A commit that is not refused lands on the log, and leaves nothing
    staged behind. *)
Lemma landed r s :
  refusals (after_save r s) = refusals s →
  log (after_save r s) = commit_of r (staged (after_save r s)) :: log s ∧
  staged (after_save r s) ≠ head_tree (log s) ∧
  clean (after_save r s).
Proof.
  unfold refusals, after_save, clean.
  repeat case_match; cbn [exits log staged head_tree tree commit_of];
    rewrite ?filter_cons; repeat case_decide; simpl; try lia; done.
Qed.

Lemma refusals_after_replay revs s :
  (refusals s ≤ refusals (after_replay revs s))%nat.
Proof.
  revert s. induction revs as [|r revs IH]; intros s; [done|].
  cbn. etrans; [apply refusals_after_save|apply IH].
Qed.

Lemma exits_after_replay revs s :
  length (exits (after_replay revs s))
  = (2 * length revs + length (exits s))%nat.
Proof.
  revert s. induction revs as [|r revs IH]; intros s; [done|].
  cbn [after_replay foldl length]. fold (after_replay revs (after_save r s)).
  rewrite IH. destruct (exits_after_save r s) as [code ->]. simpl. lia.
Qed.

Lemma after_replay_same revs s : after_replay revs s = s → revs = [].
Proof.
  intros H. pose proof (exits_after_replay revs s) as Hl. rewrite H in Hl.
  destruct revs; [done|]. simpl in Hl. lia.
Qed.
End ReplayFacts.

Section CursorFacts.
Import Py PyFacts.

Variable subreddit : Subreddit.
Variable CONFIG_email : option string.

Local Abbreviation after_save := (after_save subreddit CONFIG_email).
Local Abbreviation after_replay := (after_replay subreddit CONFIG_email).
Local Abbreviation commit_of := (commit_of subreddit CONFIG_email).
Local Abbreviation page_file := (page_file subreddit).

Lemma touches_one q c parent :
  Git.touches [q] c parent = bool_decide (tree c !! q ≠ parent !! q).
Proof.
  unfold Git.touches. cbn [existsb].
  rewrite bool_decide_eq_false_2 by done. cbn. by rewrite orb_false_r.
Qed.

(** The commit of a revision touches the file of its page and no
    other, when nothing else was staged. *)
Lemma last_touching_landed r s :
  clean s →
  refusals (after_save r s) = refusals s →
  Git.last_touching [page_file (name r)] (log (after_save r s))
  = Some (commit_of r (staged (after_save r s))).
Proof.
  intros Hclean (Hlog & Hne & _)%landed. rewrite Hlog.
  cbn [Git.last_touching]. rewrite touches_one.
  rewrite bool_decide_eq_true_2; [done|].
  cbn [tree commit_of]. rewrite staged_after_save in Hne |- *.
  rewrite lookup_insert_eq. intros Heq. apply Hne.
  rewrite Hclean. by apply insert_id.
Qed.

Lemma last_touching_other r s q :
  clean s →
  refusals (after_save r s) = refusals s →
  q ≠ page_file (name r) →
  Git.last_touching [q] (log (after_save r s))
  = Git.last_touching [q] (log s).
Proof.
  intros Hclean (Hlog & _ & _)%landed Hq. rewrite Hlog.
  cbn [Git.last_touching]. rewrite touches_one.
  rewrite bool_decide_eq_false_2; [done|].
  cbn [tree commit_of]. rewrite staged_after_save.
  rewrite lookup_insert_ne by done. rewrite Hclean. tauto.
Qed.

(** Tidying a message leaves the id it ends with. *)
Lemma cursor_of_message_stripspace msg :
  cursor_of_message (Git.stripspace msg) = cursor_of_message msg.
Proof.
  unfold cursor_of_message. by rewrite GitFacts.last_word_stripspace.
Qed.

(** After a commit landed, the cursor of the page is what the message
    of that commit ends with. *)
Lemma lookup_cursor_landed r s :
  clean s →
  refusals (after_save r s) = refusals s →
  lookup_cursor (page_file (name r)) (after_save r s)
  = Return (cursor_of_message (message_of r)).
Proof.
  intros Hclean Hland. unfold lookup_cursor, cursor_of_message.
  rewrite worktree_after_save, lookup_insert_eq.
  rewrite last_touching_landed by done.
  destruct (landed _ _ _ _ Hland) as (-> & _).
  cbn [message commit_of]. by rewrite GitFacts.last_word_stripspace.
Qed.

(** The cursors of the other pages stay as they are. *)
Lemma lookup_cursor_other r s q c :
  clean s →
  refusals (after_save r s) = refusals s →
  q ≠ page_file (name r) →
  lookup_cursor q s = Return c →
  lookup_cursor q (after_save r s) = Return c.
Proof.
  intros Hclean Hland Hq. unfold lookup_cursor.
  rewrite worktree_after_save, lookup_insert_ne by done.
  destruct (worktree s !! q); [|done].
  rewrite last_touching_other by done.
  destruct (landed _ _ _ _ Hland) as (-> & _).
  by destruct (log s).
Qed.
End CursorFacts.

Section ReplayPage.
Import Py PyFacts.

Variable subreddit : Subreddit.
Variable CONFIG_email : option string.

Local Abbreviation after_save := (after_save subreddit CONFIG_email).
Local Abbreviation after_replay := (after_replay subreddit CONFIG_email).
Local Abbreviation commit_of := (commit_of subreddit CONFIG_email).
Local Abbreviation page_file := (page_file subreddit).

(** When no commit of a replay is refused, none of its steps is. *)
Lemma replay_step r revs s :
  refusals (after_replay (r :: revs) s) = refusals s →
  refusals (after_save r s) = refusals s ∧
  refusals (after_replay revs (after_save r s)) = refusals (after_save r s).
Proof.
  cbn [after_replay foldl]. fold (after_replay revs (after_save r s)).
  pose proof (refusals_after_save subreddit CONFIG_email r s).
  pose proof (refusals_after_replay subreddit CONFIG_email revs (after_save r s)).
  lia.
Qed.

Lemma clean_after_replay revs s :
  clean s → refusals (after_replay revs s) = refusals s →
  clean (after_replay revs s).
Proof.
  revert s. induction revs as [|r revs IH]; intros s Hclean Href; [done|].
  apply replay_step in Href as [Hr Hrest].
  apply IH; [|done]. by apply landed in Hr as (_&_&?).
Qed.

(** A replay for one page leaves the cursors of the other pages. *)
Lemma lookup_cursor_replay_other page revs s q c :
  clean s → refusals (after_replay revs s) = refusals s →
  Forall (λ r, name r = page) revs →
  q ≠ page_file page →
  lookup_cursor q s = Return c →
  lookup_cursor q (after_replay revs s) = Return c.
Proof.
  revert s. induction revs as [|r revs IH]; intros s Hclean Href Hall Hq Hc;
    [done|].
  apply replay_step in Href as [Hr Hrest].
  apply Forall_cons in Hall as [Hname Hall].
  apply IH; try done.
  - by apply landed in Hr as (_&_&?).
  - apply lookup_cursor_other; try done. by rewrite Hname.
Qed.

(** And sets the cursor of its page to what the last message ends with. *)
Lemma lookup_cursor_replay page revs r s :
  clean s → refusals (after_replay revs s) = refusals s →
  Forall (λ r, name r = page) revs →
  last revs = Some r →
  lookup_cursor (page_file page) (after_replay revs s)
  = Return (cursor_of_message (message_of r)).
Proof.
  revert s. induction revs as [|r0 revs IH]; intros s Hclean Href Hall Hlast;
    [done|].
  apply replay_step in Href as [Hr Hrest].
  apply Forall_cons in Hall as [Hname Hall].
  destruct revs as [|r1 revs].
  - simplify_eq/=. by apply lookup_cursor_landed.
  - apply IH; try done. by apply landed in Hr as (_&_&?).
Qed.

(** The log grows by one commit per revision, newest on top. *)
Lemma log_after_replay revs s :
  refusals (after_replay revs s) = refusals s →
  ∃ new, log (after_replay revs s) = new ++ log s ∧
         Forall2 (λ c r, c = commit_of r (tree c)) (reverse new) revs.
Proof.
  revert s. induction revs as [|r revs IH]; intros s Href.
  - exists []. by split.
  - apply replay_step in Href as [Hr Hrest].
    destruct (IH _ Hrest) as (new & Hlog & Hall).
    apply landed in Hr as (Hr&_&_).
    exists (new ++ [commit_of r (staged (after_save r s))]). split.
    + cbn [after_replay foldl]. fold (after_replay revs (after_save r s)).
      rewrite Hlog, Hr. by rewrite <- (assoc_L (++)).
    + rewrite reverse_app. cbn. by constructor.
Qed.
End ReplayPage.

Section PageFacts.
Import Py PyFacts.

Variable subreddit : Subreddit.
Variable CONFIG_email : option string.

Local Abbreviation after_replay := (after_replay subreddit CONFIG_email).
Local Abbreviation page_file := (page_file subreddit).
Local Abbreviation full_page := (_handle_full_page subreddit CONFIG_email).
Local Abbreviation recent_page :=
  (_handle_revisions_for_page subreddit CONFIG_email).

Lemma sapp_inj_r (a b x : string) : a +:+ x = b +:+ x → a = b.
Proof.
  intros H.
  assert (String.length a = String.length b) as Hlen.
  { apply (f_equal String.length) in H. rewrite !length_sapp in H. lia. }
  revert b H Hlen. induction a as [|c a IH]; intros [|c' b] H Hlen;
    try done.
  rewrite !sapp_cons in H. simplify_eq/=. f_equal. by apply IH.
Qed.

Lemma page_file_inj p q : page_file p = page_file q → p = q.
Proof.
  unfold page_file. intros H.
  apply String.app_inj in H. simplify_eq/=.
  by apply sapp_inj_r in H.
Qed.

Lemma page_file_token page :
  all (λ c, negb (isspace c)) (display_name subreddit) = true →
  all (λ c, negb (isspace c)) page = true →
  is_token (page_file page) = true.
Proof.
  intros Hd Hp. unfold is_token, page_file.
  apply andb_true_intro. split.
  - do 3 apply nonempty_app_r. done.
  - rewrite !all_sapp, Hd, Hp. done.
Qed.

Lemma get_recent_revisions_run page d c s :
  wiki_pages subreddit !! page = Some d →
  get_recent_revisions subreddit page c s
  = (s, Return (newer_than c (history d))).
Proof.
  intros Hd. unfold get_recent_revisions, revisions, newer_than, bind.
  rewrite Hd. by destruct c.
Qed.

(** Cursor recovery only reads. *)
Lemma get_last_saved_revision_reads path s :
  (get_last_saved_revision path s).1 = s.
Proof.
  unfold get_last_saved_revision, bind, path_exists, check_output, ret, raise.
  repeat (case_match; simplify_eq/=); done.
Qed.

(** The page handler without filters: recover the cursor, ask for the
    history, replay what is newer. *)
Lemma full_page_run page d s :
  wiki_pages subreddit !! page = Some d →
  is_token (page_file page) = true →
  full_page page None true true s
  = match lookup_cursor (page_file page) s with
    | Raise e => (s, Raise e)
    | Return c => (after_replay (newer_than c (history d)) s, Return tt)
    end.
Proof.
  intros Hd Hp. unfold _handle_full_page. cbn [truthy_list andb negb].
  unfold bind at 1. unfold ret at 1. unfold bind at 1. unfold ret at 1.
  unfold bind at 1. rewrite get_last_saved_revision_run by done.
  destruct (lookup_cursor _ s) as [c|e]; [|done].
  unfold bind. rewrite (get_recent_revisions_run _ d) by done.
  apply for_each_save.
Qed.

Lemma full_page_unknown page s :
  wiki_pages subreddit !! page = None →
  ∃ e, full_page page None true true s = (s, Raise e).
Proof.
  intros Hd. unfold _handle_full_page. cbn [truthy_list andb negb].
  unfold bind at 1. unfold ret at 1. unfold bind at 1. unfold ret at 1.
  unfold bind at 1.
  pose proof (get_last_saved_revision_reads (page_file page) s) as Hs.
  destruct (get_last_saved_revision _ s) as [s' [c|e]]; simplify_eq/=; [|eauto].
  unfold bind, get_recent_revisions, revisions. rewrite Hd.
  destruct c; eauto.
Qed.

(** The filters of the page handler are the conjunction [selected]
    (without an allow-list). *)
Lemma full_page_selected page d ign im iu s :
  wiki_pages subreddit !! page = Some d →
  full_page page ign im iu s
  = if selected None ign im iu page (settings d)
    then full_page page None true true s
    else (s, Return tt).
Proof.
  intros Hd. unfold selected. cbn [truthy_list negb orb andb].
  rewrite andb_true_r.
  unfold _handle_full_page at 1.
  assert (truthy_list ign && bool_decide (page ∈ default [] ign)
          = bool_decide (page ∈ default [] ign)) as ->.
  { destruct ign as [[|]|]; cbn; try done;
      symmetry; apply bool_decide_eq_false_2, not_elem_of_nil. }
  destruct (bool_decide (page ∈ default [] ign)); [done|].
  cbn [negb andb]. unfold mod_settings. rewrite Hd.
  destruct im, iu; cbn [negb orb andb]; unfold bind, ret;
    rewrite ?orb_true_r, ?orb_false_r, ?andb_true_r;
    repeat (destruct (bool_decide _) || destruct (listed _)); done.
Qed.
End PageFacts.

Section WalkFacts.
Import Py PyFacts.

(** The walk stops at the first revision with the cursor's id and has
    then reversed what came before it. *)
Lemma walk_stop last newer r older acc :
  Forall (λ x, revision_id x ≠ last) newer →
  revision_id r = last →
  walk last (newer ++ r :: older) acc = reverse newer ++ acc.
Proof.
  intros Hnewer Hr. revert acc.
  induction Hnewer as [|x newer Hx _ IH]; intros acc; simpl.
  - by rewrite decide_True.
  - rewrite decide_False by done. rewrite IH, reverse_cons.
    by rewrite <- (assoc_L (++)).
Qed.

Lemma walk_all last h acc :
  Forall (λ x, revision_id x ≠ last) h →
  walk last h acc = reverse h ++ acc.
Proof.
  intros Hh. revert acc.
  induction Hh as [|x h Hx _ IH]; intros acc; simpl; [done|].
  rewrite decide_False by done. rewrite IH, reverse_cons.
  by rewrite <- (assoc_L (++)).
Qed.

(** Every history splits at the first revision with a given id. *)
Lemma first_with_id last (h : list Revision) :
  Forall (λ x, revision_id x ≠ last) h ∨
  ∃ newer r older, h = newer ++ r :: older ∧ revision_id r = last ∧
                   Forall (λ x, revision_id x ≠ last) newer.
Proof.
  induction h as [|x h IH]; [by left|].
  destruct (decide (revision_id x = last)) as [Hx|Hx].
  - right. exists [], x, h. by repeat split.
  - destruct IH as [IH|(newer&r&older&->&Hr&Hnewer)].
    + left. by constructor.
    + right. exists (x :: newer), r, older. repeat split; [done|].
      by constructor.
Qed.

(** What is newer than the cursor is a reversed prefix of the history. *)
Lemma newer_than_prefix c h :
  ∃ newer, newer_than c h = reverse newer ∧ newer `prefix_of` h.
Proof.
  destruct c as [last|]; cbn.
  - destruct (first_with_id last h) as [Hh|(newer&r&older&->&Hr&Hnewer)].
    + exists h. rewrite walk_all by done. by rewrite (right_id_L [] (++)).
    + exists newer. rewrite walk_stop by done.
      rewrite (right_id_L [] (++)). split; [done|]. by eexists.
  - by exists h.
Qed.

Lemma newer_than_elem c h r : r ∈ newer_than c h → r ∈ h.
Proof.
  destruct (newer_than_prefix c h) as (newer & -> & [k ->]).
  rewrite elem_of_reverse. set_solver.
Qed.

(** The last revision replayed is the newest of the history. *)
Lemma newer_than_last c h r :
  last (newer_than c h) = Some r → head h = Some r.
Proof.
  destruct (newer_than_prefix c h) as (newer & -> & [k ->]).
  rewrite last_reverse. by destruct newer.
Qed.

(** Nothing is newer than the newest revision. *)
Lemma newer_than_newest r older :
  newer_than (Some (revision_id r)) (r :: older) = [].
Proof. cbn. by rewrite decide_True. Qed.

Lemma newer_than_nil c r older :
  newer_than c (r :: older) = [] → c = Some (revision_id r).
Proof.
  destruct c as [last|]; unfold newer_than.
  - cbn [walk].
    destruct (decide (revision_id r = last)) as [->|Hne]; [done|].
    destruct (newer_than_prefix (Some last) older) as (newer & _ & _).
    intros H.
    destruct (first_with_id last older) as [Hh|(nw&x&old&->&Hx&Hnw)].
    + rewrite walk_all in H by done. by destruct (reverse older).
    + rewrite walk_stop in H by done. by destruct (reverse nw).
  - rewrite reverse_cons. by destruct (reverse older).
Qed.

(** The loop of the recent handler. *)
Lemma revisions_after_Some c w l :
  revisions_after c w = Some l →
  ∃ before r, w = before ++ r :: l ∧ Some (revision_id r) = c.
Proof.
  induction w as [|x w IH]; [done|]. cbn.
  destruct (decide (Some (revision_id x) = c)) as [Hx|Hx].
  - intros [= <-]. by exists [], x.
  - intros (before & r & -> & Hr)%IH. by exists (x :: before), r.
Qed.

Lemma revisions_after_None c w :
  revisions_after c w = None ↔ Forall (λ r, Some (revision_id r) ≠ c) w.
Proof.
  induction w as [|x w IH]; cbn; [by split; [constructor|]|].
  destruct (decide (Some (revision_id x) = c)) as [Hx|Hx].
  - split; [done|]. by intros [? _]%Forall_cons.
  - rewrite IH. split; [by constructor|by intros [_ ?]%Forall_cons].
Qed.

Lemma revisions_after_last w r :
  NoDup (revision_id <$> w) → last w = Some r →
  revisions_after (Some (revision_id r)) w = Some [].
Proof.
  induction w as [|x w IH]; [done|]. intros Hnd Hlast.
  rewrite fmap_cons in Hnd. apply NoDup_cons in Hnd as [Hx Hnd].
  cbn [revisions_after].
  destruct w as [|y w].
  - simplify_eq/=. by rewrite decide_True.
  - rewrite decide_False; [by apply IH|].
    intros [= Heq]. apply Hx. rewrite Heq.
    apply list_elem_of_fmap. exists r. split; [done|].
    change (last (x :: y :: w)) with (last (y :: w)) in Hlast.
    by apply last_Some_elem_of.
Qed.
End WalkFacts.

Section Settle.
Import Py PyFacts.

Variable subreddit : Subreddit.
Variable CONFIG_email : option string.
Hypothesis wf : well_formed subreddit.

Local Abbreviation after_replay := (after_replay subreddit CONFIG_email).
Local Abbreviation page_file := (page_file subreddit).
Local Abbreviation full_page := (_handle_full_page subreddit CONFIG_email).
Local Abbreviation recent_page :=
  (_handle_revisions_for_page subreddit CONFIG_email).

Lemma last_word_message r :
  is_token (revision_id r) = true →
  last_word (message_of r) = Some (revision_id r).
Proof.
  intros Hid. unfold message_of.
  destruct (truthy_str (reason r)); [|by apply last_word_token].
  change (str_opt (reason r) +:+ String "010" (String "010" "") +:+ revision_id r)
    with (str_opt (reason r) +:+ String "010" ("" +:+ String "010" (revision_id r))).
  rewrite !last_word_space by done. by rewrite last_word_token.
Qed.

(** A canonical id is read back from the message as it is. *)
Lemma cursor_of_message_canonical r :
  Uuid.canonical (revision_id r) = true →
  cursor_of_message (message_of r) = Some (revision_id r).
Proof.
  intros Hid. unfold cursor_of_message.
  rewrite last_word_message by by apply UuidRoundTrip.canonical_token.
  cbn [from_option id].
  destruct (UuidRoundTrip.UUID_canonical _ Hid) as (n & -> & Hn).
  cbn. by rewrite Hn.
Qed.

Lemma known_page_token page d :
  wiki_pages subreddit !! page = Some d → is_token (page_file page) = true.
Proof.
  intros Hd. apply page_file_token; [apply wf|by eapply wf].
Qed.

(** What the unfiltered page handler does to the store. *)
Lemma full_page_shape page s s' :
  full_page page None true true s = (s', Return tt) →
  ∃ d c, wiki_pages subreddit !! page = Some d ∧
         lookup_cursor (page_file page) s = Return c ∧
         s' = after_replay (newer_than c (history d)) s ∧
         Forall (λ r, name r = page) (newer_than c (history d)).
Proof.
  intros H. destruct (wiki_pages subreddit !! page) as [d|] eqn:Hd.
  2:{ destruct (full_page_unknown _ CONFIG_email page s Hd) as [e He].
      congruence. }
  rewrite (full_page_run _ _ page d) in H by eauto using known_page_token.
  destruct (lookup_cursor _ s) as [c|e] eqn:Hc; [|done].
  exists d, c. simplify_eq. repeat split; try done.
  apply Forall_forall. intros r Hr%newer_than_elem. by eapply wf.
Qed.

(** Once a page has been brought up to date with no commit refused,
    handling it again changes nothing. *)
Lemma full_page_settles page s s' :
  clean s →
  full_page page None true true s = (s', Return tt) →
  refusals s' = refusals s →
  full_page page None true true s' = (s', Return tt).
Proof.
  intros Hclean H Href.
  destruct (full_page_shape _ _ _ H) as (d & c & Hd & Hc & -> & Hnames).
  destruct (last (newer_than c (history d))) as [r|] eqn:Hlast.
  2:{ apply last_None in Hlast. rewrite Hlast in *. done. }
  rewrite (full_page_run _ _ page d) by eauto using known_page_token.
  rewrite (lookup_cursor_replay _ _ page _ r) by done.
  apply newer_than_last in Hlast.
  destruct (history d) as [|r' older] eqn:Hh; simplify_eq/=.
  rewrite cursor_of_message_canonical.
  - by rewrite newer_than_newest.
  - eapply wf; [done|]. rewrite Hh. left.
Qed.

(** Replaying revisions of another page does not wake a page up. *)
Lemma full_page_frame page q revs s :
  clean s →
  full_page page None true true s = (s, Return tt) →
  q ≠ page →
  Forall (λ r, name r = q) revs →
  refusals (after_replay revs s) = refusals s →
  full_page page None true true (after_replay revs s)
  = (after_replay revs s, Return tt).
Proof.
  intros Hclean H Hq Hrevs Href.
  destruct (full_page_shape _ _ _ H) as (d & c & Hd & Hc & Hs & Hnames).
  symmetry in Hs. apply after_replay_same in Hs.
  rewrite (full_page_run _ _ page d) by eauto using known_page_token.
  rewrite (lookup_cursor_replay_other _ _ q revs s _ c); try done.
  - by rewrite Hs.
  - intros Heq%page_file_inj. done.
Qed.
End Settle.

Section SettleRecent.
Import Py PyFacts.

Variable subreddit : Subreddit.
Variable CONFIG_email : option string.
Hypothesis wf : well_formed subreddit.

Local Abbreviation after_replay := (after_replay subreddit CONFIG_email).
Local Abbreviation page_file := (page_file subreddit).
Local Abbreviation full_page := (_handle_full_page subreddit CONFIG_email).
Local Abbreviation recent_page :=
  (_handle_revisions_for_page subreddit CONFIG_email).

Local Abbreviation window_of := (window_of subreddit).

Lemma window_facts page w :
  window_of page w →
  ∃ d first rest,
    w = first :: rest ∧ wiki_pages subreddit !! page = Some d ∧
    Forall (λ r, name r = page) w ∧
    NoDup (revision_id <$> w) ∧
    Forall (λ r, Uuid.canonical (revision_id r) = true) w ∧
    (∀ r, last w = Some r → head (history d) = Some r).
Proof.
  intros (Hne & d & Hd & [k Hk]).
  destruct w as [|first rest]; [done|]. exists d, first, rest.
  assert (∀ r, r ∈ first :: rest → r ∈ history d) as Hin.
  { intros r Hr. rewrite Hk. apply elem_of_app. left.
    by apply elem_of_reverse. }
  repeat split; try done.
  - apply Forall_forall. intros r Hr. eapply wf; eauto.
  - pose proof (wf_distinct _ wf _ _ Hd) as Hnd.
    rewrite Hk, fmap_app, fmap_reverse in Hnd.
    apply NoDup_app in Hnd as (Hnd & _ & _).
    by rewrite reverse_Permutation in Hnd.
  - apply Forall_forall. intros r Hr. eapply wf; eauto.
  - intros r Hr. rewrite Hk. rewrite <- head_reverse in Hr.
    destruct (reverse (first :: rest)); by simplify_eq/=.
Qed.

Lemma recent_page_run first rest s :
  is_token (page_file (name first)) = true →
  recent_page (first :: rest) s
  = match lookup_cursor (page_file (name first)) s with
    | Raise e => (s, Raise e)
    | Return c =>
        match revisions_after c (first :: rest) with
        | Some l => (after_replay l s, Return tt)
        | None => full_page (name first) None true true s
        end
    end.
Proof.
  intros Hp. unfold _handle_revisions_for_page, bind.
  rewrite get_last_saved_revision_run by done.
  destruct (lookup_cursor _ s) as [c|e]; [|done].
  destruct (revisions_after c (first :: rest)); [|done].
  apply for_each_save.
Qed.

Lemma recent_page_shape page w s s' :
  window_of page w →
  recent_page w s = (s', Return tt) →
  ∃ revs, s' = after_replay revs s ∧ Forall (λ r, name r = page) revs.
Proof.
  intros (d & first & rest & -> & Hd & Hnames & _)%window_facts H.
  pose proof Hnames as [Hfirst _]%Forall_cons.
  rewrite recent_page_run in H
    by (rewrite Hfirst; eauto using known_page_token).
  rewrite Hfirst in H.
  destruct (lookup_cursor _ s) as [c|e]; [|done].
  destruct (revisions_after c (first :: rest)) as [l|] eqn:Hl.
  - exists l. simplify_eq. split; [done|].
    apply revisions_after_Some in Hl as (before & r & Hw & _).
    rewrite Hw in Hnames. apply Forall_app in Hnames as [_ Hn].
    by apply Forall_cons in Hn as [_ ?].
  - apply full_page_shape in H as (?&?&?&?&?&?); eauto.
Qed.

Lemma recent_page_settles page w s s' :
  window_of page w →
  clean s →
  recent_page w s = (s', Return tt) →
  refusals s' = refusals s →
  recent_page w s' = (s', Return tt).
Proof.
  intros (d & first & rest & -> & Hd & Hnames & Hnd & Hcan & Hnewest)%window_facts
    Hclean H Href.
  pose proof Hnames as [Hfirst _]%Forall_cons.
  assert (is_token (page_file (name first)) = true) as Htok
    by (rewrite Hfirst; eauto using known_page_token).
  rewrite recent_page_run in H |- * by done. rewrite Hfirst in *.
  destruct (lookup_cursor _ s) as [c|e] eqn:Hc; [|done].
  assert (∀ l r, s' = after_replay l s → Forall (λ r, name r = page) l →
                 last l = Some r → last (first :: rest) = Some r →
                 match lookup_cursor (page_file page) s' with
                 | Return c0 =>
                     match revisions_after c0 (first :: rest) with
                     | Some l0 => (after_replay l0 s', Return ())
                     | None => full_page page None true true s'
                     end
                 | Raise e => (s', Raise e)
                 end = (s', Return tt)) as Hdone.
  { intros l r -> Hl Hlast Hwlast.
    rewrite (lookup_cursor_replay _ _ page _ r) by done.
    rewrite cursor_of_message_canonical.
    - by rewrite revisions_after_last.
    - eapply Forall_forall in Hcan; [done|]. by apply last_Some_elem_of. }
  destruct (revisions_after c (first :: rest)) as [l|] eqn:Hl.
  - simplify_eq.
    destruct (last l) as [r|] eqn:Hlast.
    2:{ apply last_None in Hlast. subst l.
        change (after_replay [] s) with s.
        rewrite Hc. cbv beta iota. by rewrite Hl. }
    apply revisions_after_Some in Hl as (before & x & Hw & _).
    apply (Hdone l r); try done.
    + rewrite Hw in Hnames. apply Forall_app in Hnames as [_ Hn].
      by apply Forall_cons in Hn as [_ ?].
    + rewrite Hw, last_app_cons. by destruct l.
  - destruct (full_page_shape _ _ wf _ _ _ H) as (d' & c' & Hd' & Hc' & -> & Hn).
    assert (c' = c) as -> by congruence.
    assert (d' = d) as -> by congruence.
    destruct (last (newer_than c (history d))) as [r|] eqn:Hlast.
    + apply (Hdone (newer_than c (history d)) r); try done.
      apply newer_than_last in Hlast.
      destruct (last (first :: rest)) as [r'|] eqn:Hw;
        [|by apply last_None in Hw].
      specialize (Hnewest r' eq_refl). congruence.
    + exfalso. apply last_None in Hlast.
      destruct (last (first :: rest)) as [r'|] eqn:Hw;
        [|by apply last_None in Hw].
      specialize (Hnewest r' eq_refl).
      destruct (history d) as [|r0 older]; cbn in Hnewest; [done|].
      injection Hnewest as ->.
      apply newer_than_nil in Hlast. subst c.
      apply revisions_after_None in Hl.
      eapply Forall_forall in Hl; [|by eapply last_Some_elem_of]. done.
Qed.

Lemma recent_page_frame page w q revs s :
  window_of page w →
  clean s →
  recent_page w s = (s, Return tt) →
  q ≠ page →
  Forall (λ r, name r = q) revs →
  refusals (after_replay revs s) = refusals s →
  recent_page w (after_replay revs s) = (after_replay revs s, Return tt).
Proof.
  intros (d & first & rest & -> & Hd & Hnames & _)%window_facts
    Hclean H Hq Hrevs Href.
  pose proof Hnames as [Hfirst _]%Forall_cons.
  assert (is_token (page_file (name first)) = true) as Htok
    by (rewrite Hfirst; eauto using known_page_token).
  rewrite recent_page_run in H |- * by done. rewrite Hfirst in *.
  destruct (lookup_cursor _ s) as [c|e] eqn:Hc; [|done].
  rewrite (lookup_cursor_replay_other _ _ q revs s _ c); try done.
  2:{ intros Heq%page_file_inj. done. }
  destruct (revisions_after c (first :: rest)) as [l|] eqn:Hl.
  - simplify_eq. assert (l = []) as -> by by eapply after_replay_same.
    done.
  - by apply (full_page_frame _ _ wf _ q).
Qed.
End SettleRecent.

Section Grouping.

Lemma append_to_keys k r (G : list (string * list Revision)) :
  (append_to k r G).*1 = if decide (k ∈ G.*1) then G.*1 else (G.*1) ++ [k].
Proof.
  induction G as [|[k' w'] G IH]; [done|].
  cbn [append_to]. rewrite !fmap_cons. cbn [fst].
  destruct (decide (k' = k)) as [->|Hne].
  - rewrite decide_True by left. done.
  - rewrite fmap_cons, IH. cbn [fst].
    destruct (decide (k ∈ G.*1)).
    + rewrite decide_True; [done|]. by right.
    + rewrite decide_False; [done|]. by intros [?|?]%elem_of_cons.
Qed.

Lemma elem_of_append_to k r (G : list (string * list Revision)) k' w' :
  NoDup G.*1 →
  (k', w') ∈ append_to k r G →
  (k' ≠ k ∧ (k', w') ∈ G) ∨
  (k' = k ∧ ((∃ w, (k, w) ∈ G ∧ w' = w ++ [r]) ∨ ((k ∉ G.*1) ∧ w' = [r]))).
Proof.
  induction G as [|[k0 w0] G IH]; intros Hnd.
  - intros [= -> ->]%list_elem_of_singleton. right. split; [done|].
    right. split; [apply not_elem_of_nil|done].
  - rewrite fmap_cons in Hnd. apply NoDup_cons in Hnd as [Hk0 Hnd].
    cbn [append_to fst] in *. destruct (decide (k0 = k)) as [->|Hne].
    + intros [[= -> ->]|Hin]%elem_of_cons.
      * right. split; [done|]. left. exists w0. split; [left|done].
      * left. split; [|by right]. intros ->. apply Hk0.
        apply list_elem_of_fmap. by exists (k, w').
    + intros [[= -> ->]|Hin]%elem_of_cons.
      * left. split; [done|left].
      * destruct (IH Hnd Hin) as [[? ?]|[-> [(w & ? & ->)|[? ->]]]].
        -- left. split; [done|by right].
        -- right. split; [done|]. left. exists w. split; [by right|done].
        -- right. split; [done|]. right. split; [|done].
           rewrite fmap_cons. cbn. by intros [?|?]%elem_of_cons.
Qed.

Lemma filter_none {A} (P : A → Prop) `{!∀ x, Decision (P x)} (l : list A) :
  (∀ x, x ∈ l → ¬ P x) → filter P l = [].
Proof.
  induction l as [|x l IH]; intros Hl; [done|].
  rewrite filter_cons_False by (apply Hl; left).
  apply IH. intros y Hy. apply Hl. by right.
Qed.

(** The dict of [main] holds each page of the feed once, with the
    page's revisions in feed order. *)
Lemma revisions_by_page_spec (l : list Revision) :
  NoDup (revisions_by_page l).*1 ∧
  (∀ k w, (k, w) ∈ revisions_by_page l →
          w = filter (λ x, name x = k) l ∧ w ≠ []) ∧
  (∀ r, r ∈ l → name r ∈ (revisions_by_page l).*1).
Proof.
  induction l as [|r l IH] using rev_ind.
  - split; [apply NoDup_nil_2|]. split.
    + by intros ?? ?%elem_of_nil.
    + by intros ? ?%elem_of_nil.
  - destruct IH as (Hnd & Hw & Hcov).
    unfold revisions_by_page in *. rewrite foldl_app. cbn [foldl].
    set (G := foldl _ [] l) in *.
    assert (∀ k, filter (λ x, name x = k) (l ++ [r])
                 = filter (λ x, name x = k) l
                   ++ (if decide (name r = k) then [r] else [])) as Hf.
    { intros k. by rewrite filter_app. }
    split; [|split].
    + rewrite append_to_keys. destruct (decide (name r ∈ (G.*1))); [done|].
      apply NoDup_app. repeat split; [done| |apply NoDup_singleton].
      by intros x Hx ->%list_elem_of_singleton.
    + intros k w Hin. rewrite Hf.
      apply elem_of_append_to in Hin
          as [[Hne Hin]|[-> [(w0 & Hin & ->)|[Hk ->]]]]; [| | |done].
      * destruct (Hw k w Hin) as [<- ?].
        rewrite decide_False by done. by rewrite (right_id_L [] (++)).
      * destruct (Hw _ w0 Hin) as [<- ?].
        rewrite decide_True by done. split; [done|]. by destruct w0.
      * rewrite decide_True by done. rewrite filter_none; [done|].
        intros x Hx Hname. apply Hk. rewrite <- Hname. by apply Hcov.
    + intros r' Hr'. rewrite append_to_keys.
      apply elem_of_app in Hr' as [Hr' | ->%list_elem_of_singleton].
      * specialize (Hcov r' Hr').
        destruct (decide (name r ∈ (G.*1))); [done|].
        apply elem_of_app. by left.
      * destruct (decide (name r ∈ (G.*1))); [done|].
        apply elem_of_app. right. by apply list_elem_of_singleton.
Qed.
End Grouping.

Section Windows.
Variable subreddit : Subreddit.
Hypothesis wf : well_formed subreddit.

(** Under a well-formed source every entry of the dict is a window. *)
Lemma group_window page w :
  (page, w) ∈ revisions_by_page (reverse (wiki_recent subreddit)) →
  window_of subreddit page w.
Proof.
  intros Hin.
  destruct (revisions_by_page_spec (reverse (wiki_recent subreddit)))
    as (_ & Hw & _).
  destruct (Hw _ _ Hin) as [Heq Hne]. split; [done|].
  destruct w as [|r w']; [done|].
  assert (r ∈ wiki_recent subreddit ∧ name r = page) as [Hr Hname].
  { assert (r ∈ filter (λ x, name x = page) (reverse (wiki_recent subreddit))) as Hr
      by (rewrite <- Heq; left).
    apply list_elem_of_filter in Hr as [? Hr].
    rewrite elem_of_reverse in Hr. done. }
  destruct (wf_recent _ wf r Hr) as (d & Hd & Hpre).
  exists d. rewrite <- Hname at 1. split; [done|].
  rewrite Heq, filter_reverse, reverse_involutive. by rewrite <- Hname.
Qed.
End Windows.

Section Steps.
Import Py PyFacts.

Variable subreddit : Subreddit.
Variable CONFIG_email : option string.

Local Abbreviation full_page := (_handle_full_page subreddit CONFIG_email).
Local Abbreviation recent_page :=
  (_handle_revisions_for_page subreddit CONFIG_email).

Variables (page_list ignore_list : option (list string)).
Variables (include_full include_mod include_unlisted : bool).

Local Abbreviation recent_step :=
  (recent_step subreddit CONFIG_email page_list ignore_list
               include_mod include_unlisted).
Local Abbreviation full_step :=
  (full_step subreddit CONFIG_email ignore_list include_mod include_unlisted).

Lemma main_full :
  include_full = true →
  main subreddit CONFIG_email page_list ignore_list include_full
       include_mod include_unlisted
  = for_each (candidates subreddit page_list include_full) full_step.
Proof.
  intros ->. unfold main, candidates. cbn [andb].
  by destruct (truthy_list page_list).
Qed.

Lemma main_recent :
  include_full = false →
  main subreddit CONFIG_email page_list ignore_list include_full
       include_mod include_unlisted
  = for_each (revisions_by_page (reverse (wiki_recent subreddit)))
             recent_step.
Proof.
  intros ->. unfold main. cbn [andb]. f_equal.
Qed.

Lemma truthy_elem (l : option (list string)) page :
  truthy_list l && bool_decide (page ∈ default [] l)
  = bool_decide (page ∈ default [] l).
Proof.
  destruct l as [[|]|]; cbn; try done;
    symmetry; apply bool_decide_eq_false_2, not_elem_of_nil.
Qed.

(** In recent mode a page of the wiki is handled exactly when the
    conjunction holds. *)
Lemma recent_step_selected page w d s :
  wiki_pages subreddit !! page = Some d →
  recent_step (page, w) s
  = if selected page_list ignore_list include_mod include_unlisted page
         (settings d)
    then recent_page w s
    else (s, Return tt).
Proof.
  intros Hd. unfold recent_step, selected, mod_settings, bind.
  rewrite Hd. unfold ret at 1. rewrite truthy_elem. cbn [default from_option id].
  destruct (truthy_list page_list), (bool_decide (page ∈ default [] page_list)),
    (bool_decide (page ∈ default [] ignore_list)),
    include_mod, include_unlisted,
    (bool_decide (permlevel (settings d) = PERMLEVEL_MOD_ONLY)),
    (listed (settings d)); done.
Qed.

(** In full mode too, for a page taken from the allow-list or, without
    one, from the wiki. *)
Lemma full_step_selected page d s :
  wiki_pages subreddit !! page = Some d →
  (truthy_list page_list = true → page ∈ default [] page_list) →
  full_step page s
  = if selected page_list ignore_list include_mod include_unlisted page
         (settings d)
    then full_page page None true true s
    else (s, Return tt).
Proof.
  intros Hd Hin. unfold full_step.
  rewrite (full_page_selected _ _ page d) by done.
  unfold selected. cbn [default from_option id truthy_list negb orb andb].
  destruct (truthy_list page_list) eqn:Hl; cbn [negb orb].
  - rewrite (bool_decide_eq_true_2 _ (Hin eq_refl)). by rewrite !andb_true_r.
  - by rewrite !andb_true_r.
Qed.

(** Whatever the store, a step of full mode skips the page, handles it
    without filters, or fails at the API. *)
Lemma full_step_cases page :
  (∀ s, full_step page s = (s, Return tt)) ∨
  (∀ s, full_step page s = full_page page None true true s) ∨
  (∀ s, ∃ e, full_step page s = (s, Raise e)).
Proof.
  unfold full_step.
  destruct (wiki_pages subreddit !! page) as [d|] eqn:Hd.
  - destruct (selected None (Some (default [] ignore_list)) include_mod
                include_unlisted page (settings d)) eqn:Hsel.
    + right. left. intros s.
      by rewrite (full_page_selected _ _ page d), Hsel.
    + left. intros s. by rewrite (full_page_selected _ _ page d), Hsel.
  - assert (∀ im iu s,
              full_page page (Some (default [] ignore_list)) im iu s
              = if bool_decide (page ∈ default [] ignore_list)
                then (s, Return tt)
                else full_page page None im iu s) as Hign.
    { intros im iu s. unfold _handle_full_page. rewrite truthy_elem.
      cbn [default from_option id truthy_list andb].
      by destruct (bool_decide _). }
    destruct (bool_decide (page ∈ default [] ignore_list)) eqn:Hin.
    { left. intros s. by rewrite Hign. }
    destruct include_mod, include_unlisted.
    + right. left. intros s. by rewrite Hign.
    + right. right. intros s. exists APIException. rewrite Hign.
      unfold _handle_full_page, mod_settings, bind, ret. by rewrite Hd.
    + right. right. intros s. exists APIException. rewrite Hign.
      unfold _handle_full_page, mod_settings, bind, ret. by rewrite Hd.
    + right. right. intros s. exists APIException. rewrite Hign.
      unfold _handle_full_page, mod_settings, bind, ret. by rewrite Hd.
Qed.
End Steps.

Section SettledRun.
Import Py PyFacts.

Variable subreddit : Subreddit.
Variable CONFIG_email : option string.

Local Abbreviation after_replay := (after_replay subreddit CONFIG_email).

(** Steps of a loop, each about one page: a step replays revisions of
    its page; once it has run with no commit refused it has nothing
    left to do; and replaying revisions of another page does not give
    it anything to do. *)
Context {X : Type} (f : X → M unit) (page_of : X → string) (good : X → Prop).

Hypothesis shape : ∀ x s s',
  good x → f x s = (s', Return tt) →
  ∃ revs, s' = after_replay revs s ∧ Forall (λ r, name r = page_of x) revs.
Hypothesis settles : ∀ x s s',
  good x → clean s → f x s = (s', Return tt) → refusals s' = refusals s →
  f x s' = (s', Return tt).
Hypothesis frame : ∀ x q revs s,
  good x → clean s → f x s = (s, Return tt) → q ≠ page_of x →
  Forall (λ r, name r = q) revs →
  refusals (after_replay revs s) = refusals s →
  f x (after_replay revs s) = (after_replay revs s, Return tt).
Hypothesis same : ∀ x y,
  good x → good y → page_of x = page_of y → x = y.

Lemma for_each_cons_Return x xs s s' :
  for_each (x :: xs) f s = (s', Return tt) →
  ∃ s1, f x s = (s1, Return tt) ∧ for_each xs f s1 = (s', Return tt).
Proof.
  cbn [for_each]. unfold bind.
  destruct (f x s) as [s1 [[]|e]]; [|done]. eauto.
Qed.

Lemma for_each_refusals xs s s' :
  Forall good xs → for_each xs f s = (s', Return tt) →
  (refusals s ≤ refusals s')%nat.
Proof.
  intros Hgood. revert s.
  induction Hgood as [|x xs Hx _ IH]; intros s H.
  - by injection H as ->.
  - apply for_each_cons_Return in H as (s1 & Hs1 & Hrest).
    destruct (shape _ _ _ Hx Hs1) as (revs & -> & _).
    etrans; [apply refusals_after_replay|by apply IH].
Qed.

Lemma for_each_quiet xs s :
  (∀ x, x ∈ xs → f x s = (s, Return tt)) →
  for_each xs f s = (s, Return tt).
Proof.
  induction xs as [|x xs IH]; intros H; [done|].
  cbn [for_each]. unfold bind. rewrite H by left.
  apply IH. intros y Hy. apply H. by right.
Qed.

Lemma settled_steps xs : ∀ done s s',
  Forall good xs → Forall good done → clean s →
  (∀ y, y ∈ done → f y s = (s, Return tt)) →
  for_each xs f s = (s', Return tt) →
  refusals s' = refusals s →
  clean s' ∧ ∀ y, y ∈ done ++ xs → f y s' = (s', Return tt).
Proof.
  induction xs as [|x xs IH]; intros done s s' Hxs Hdone Hclean Hq H Href.
  - injection H as <-. by rewrite (right_id_L [] (++)).
  - apply Forall_cons in Hxs as [Hx Hxs].
    apply for_each_cons_Return in H as (s1 & Hs1 & Hrest).
    destruct (shape _ _ _ Hx Hs1) as (revs & -> & Hrevs).
    pose proof (refusals_after_replay subreddit CONFIG_email revs s).
    pose proof (for_each_refusals _ _ _ Hxs Hrest).
    assert (refusals (after_replay revs s) = refusals s) as Hr1 by lia.
    destruct (IH (done ++ [x]) (after_replay revs s) s') as [Hc Hall];
      try done.
    + apply Forall_app. split; [done|]. by apply Forall_singleton.
    + by apply clean_after_replay.
    + intros y [Hy | ->%list_elem_of_singleton]%elem_of_app.
      * destruct (decide (page_of x = page_of y)) as [Heq|Hne].
        -- assert (y = x) as ->.
           { symmetry. apply same; try done.
             eapply Forall_forall in Hdone; done. }
           by apply (settles x s).
        -- apply (frame y (page_of x)); try done.
           ++ eapply Forall_forall in Hdone; done.
           ++ by apply Hq.
      * by apply (settles x s).
    + lia.
    + split; [done|]. intros y Hy. apply Hall.
      by rewrite <- (assoc_L (++)).
Qed.

(** A loop that ran to its end with no commit refused does nothing when
    it is run again. *)
Lemma settled_run xs s s' :
  Forall good xs → clean s →
  for_each xs f s = (s', Return tt) →
  refusals s' = refusals s →
  for_each xs f s' = (s', Return tt) ∧
  ∀ y, y ∈ xs → f y s' = (s', Return tt).
Proof.
  intros Hxs Hclean H Href.
  destruct (settled_steps xs [] s s') as [_ Hall]; try done.
  { by intros ? ?%elem_of_nil. }
  split; [|done]. by apply for_each_quiet.
Qed.
End SettledRun.

Section SecondRun.
Import Py PyFacts.

Variable subreddit : Subreddit.
Variable CONFIG_email : option string.
Hypothesis wf : well_formed subreddit.

Variables (page_list ignore_list : option (list string)).
Variables (include_mod include_unlisted : bool).

Local Abbreviation after_replay := (after_replay subreddit CONFIG_email).
Local Abbreviation page_file := (page_file subreddit).
Local Abbreviation full_page := (_handle_full_page subreddit CONFIG_email).
Local Abbreviation recent_page :=
  (_handle_revisions_for_page subreddit CONFIG_email).
Local Abbreviation recent_step :=
  (recent_step subreddit CONFIG_email page_list ignore_list
               include_mod include_unlisted).
Local Abbreviation full_step :=
  (full_step subreddit CONFIG_email ignore_list include_mod include_unlisted).
Local Abbreviation groups :=
  (revisions_by_page (reverse (wiki_recent subreddit))).

Lemma full_step_shape page s s' :
  full_step page s = (s', Return tt) →
  ∃ revs, s' = after_replay revs s ∧ Forall (λ r, name r = page) revs.
Proof.
  destruct (full_step_cases subreddit CONFIG_email ignore_list include_mod
              include_unlisted page) as [H|[H|H]]; [rewrite !H|rewrite !H|].
  - intros [= <-]. by exists [].
  - intros (d & c & _ & _ & -> & ?)%full_page_shape; eauto.
  - destruct (H s) as [e He]. congruence.
Qed.

Lemma full_step_settles page s s' :
  clean s → full_step page s = (s', Return tt) →
  refusals s' = refusals s → full_step page s' = (s', Return tt).
Proof.
  destruct (full_step_cases subreddit CONFIG_email ignore_list include_mod
              include_unlisted page) as [H|[H|H]]; [rewrite !H|rewrite !H|].
  - done.
  - by apply full_page_settles.
  - destruct (H s) as [e He]. congruence.
Qed.

Lemma full_step_frame page q revs s :
  clean s → full_step page s = (s, Return tt) → q ≠ page →
  Forall (λ r, name r = q) revs →
  refusals (after_replay revs s) = refusals s →
  full_step page (after_replay revs s) = (after_replay revs s, Return tt).
Proof.
  destruct (full_step_cases subreddit CONFIG_email ignore_list include_mod
              include_unlisted page) as [H|[H|H]]; [rewrite !H|rewrite !H|].
  - done.
  - by apply full_page_frame.
  - destruct (H s) as [e He]. congruence.
Qed.

Lemma recent_step_cases page w :
  (page, w) ∈ groups →
  window_of subreddit page w ∧
  ((∀ s, recent_step (page, w) s = (s, Return tt)) ∨
   (∀ s, recent_step (page, w) s = recent_page w s)).
Proof.
  intros Hw%(group_window _ wf). split; [done|].
  destruct Hw as (_ & d & Hd & _).
  destruct (selected page_list ignore_list include_mod include_unlisted
              page (settings d)) eqn:Hsel; [right|left]; intros s;
    by rewrite (recent_step_selected _ _ _ _ _ _ _ _ d), Hsel.
Qed.

Lemma groups_same (x y : string * list Revision) :
  x ∈ groups → y ∈ groups → x.1 = y.1 → x = y.
Proof.
  destruct x as [k w1], y as [k' w2]. cbn. intros H1 H2 <-.
  destruct (revisions_by_page_spec (reverse (wiki_recent subreddit)))
    as (_ & Hw & _).
  destruct (Hw _ _ H1) as [-> _], (Hw _ _ H2) as [-> _]. done.
Qed.

(** Full mode: the second of two runs finds nothing to do. *)
Lemma second_full_run pages s0 s1 :
  clean s0 →
  for_each pages full_step s0 = (s1, Return tt) →
  refusals s1 = refusals s0 →
  for_each pages full_step s1 = (s1, Return tt) ∧
  ∀ page, page ∈ pages → full_step page s1 = (s1, Return tt).
Proof.
  intros Hclean H Href.
  apply (settled_run subreddit CONFIG_email full_step id (λ _, True)) with s0;
    try done.
  - intros x s s' _. apply full_step_shape.
  - intros x s s' _. apply full_step_settles.
  - intros x q revs s _. apply full_step_frame.
  - by apply Forall_forall.
Qed.

(** Recent mode likewise. *)
Lemma second_recent_run s0 s1 :
  clean s0 →
  for_each groups recent_step s0 = (s1, Return tt) →
  refusals s1 = refusals s0 →
  for_each groups recent_step s1 = (s1, Return tt) ∧
  ∀ x, x ∈ groups → recent_step x s1 = (s1, Return tt).
Proof.
  intros Hclean H Href.
  apply (settled_run subreddit CONFIG_email recent_step fst (λ x, x ∈ groups))
    with s0; try done.
  - intros [page w] s s' [Hw [Hc|Hc]]%recent_step_cases; rewrite !Hc.
    + intros [= <-]. by exists [].
    + by apply (recent_page_shape _ _ wf).
  - intros [page w] s s' [Hw [Hc|Hc]]%recent_step_cases; rewrite !Hc.
    + done.
    + by apply (recent_page_settles _ _ wf page).
  - intros [page w] q revs s [Hw [Hc|Hc]]%recent_step_cases; rewrite !Hc.
    + done.
    + by apply (recent_page_frame _ _ wf page).
  - apply groups_same.
  - by apply Forall_forall.
Qed.
End SecondRun.

Section QuietCursor.
Import Py PyFacts.

Variable subreddit : Subreddit.
Variable CONFIG_email : option string.
Hypothesis wf : well_formed subreddit.

Local Abbreviation after_replay := (after_replay subreddit CONFIG_email).
Local Abbreviation page_file := (page_file subreddit).
Local Abbreviation full_page := (_handle_full_page subreddit CONFIG_email).
Local Abbreviation recent_page :=
  (_handle_revisions_for_page subreddit CONFIG_email).

(** A page with nothing left to do has its newest revision as cursor. *)
Lemma full_page_quiet_cursor page d newest older s :
  wiki_pages subreddit !! page = Some d →
  history d = newest :: older →
  full_page page None true true s = (s, Return tt) →
  lookup_cursor (page_file page) s = Return (Some (revision_id newest)).
Proof.
  intros Hd Hh H.
  destruct (full_page_shape _ _ wf _ _ _ H) as (d' & c & Hd' & Hc & Hs & _).
  assert (d' = d) as -> by congruence.
  symmetry in Hs. apply after_replay_same in Hs. rewrite Hh in Hs.
  apply newer_than_nil in Hs. by rewrite Hc, Hs.
Qed.

Lemma recent_page_quiet_cursor page w d newest older s :
  window_of subreddit page w →
  wiki_pages subreddit !! page = Some d →
  history d = newest :: older →
  recent_page w s = (s, Return tt) →
  lookup_cursor (page_file page) s = Return (Some (revision_id newest)).
Proof.
  intros (d' & first & rest & -> & Hd' & Hnames & _ & _ & Hnewest)%(window_facts _ wf)
    Hd Hh H.
  assert (d' = d) as -> by congruence.
  pose proof Hnames as [Hfirst _]%Forall_cons.
  rewrite recent_page_run in H
    by (rewrite Hfirst; eauto using known_page_token).
  rewrite Hfirst in H.
  destruct (lookup_cursor _ s) as [c|e] eqn:Hc; [|done].
  destruct (revisions_after c (first :: rest)) as [l|] eqn:Hl.
  - injection H as Hs. apply after_replay_same in Hs. subst l.
    apply revisions_after_Some in Hl as (before & r & Hw & <-).
    specialize (Hnewest r). rewrite Hw, last_snoc, Hh in Hnewest.
    specialize (Hnewest eq_refl). by simplify_eq/=.
  - rewrite <- Hc. by eapply full_page_quiet_cursor.
Qed.
End QuietCursor.

Section ReplayRecords.
Import Py PyFacts.
Variable subreddit : Subreddit.
Variable CONFIG_email : option string.

Local Abbreviation save_revision := (save_revision subreddit CONFIG_email).
Local Abbreviation after_save := (after_save subreddit CONFIG_email).
Local Abbreviation after_replay := (after_replay subreddit CONFIG_email).
Local Abbreviation commit_of := (commit_of subreddit CONFIG_email).

(** Whatever is refused, the log grows by the commits of the revisions
    that were not, newest on top. *)
Lemma log_after_replay_kept revs s :
  ∃ new kept,
    log (after_replay revs s) = new ++ log s ∧
    kept `sublist_of` revs ∧
    Forall2 (λ c r, c = commit_of r (tree c)) (reverse new) kept.
Proof.
  revert s. induction revs as [|r revs IH]; intros s.
  - exists [], []. by repeat split.
  - destruct (IH (after_save r s)) as (new & kept & Hlog & Hsub & Hall).
    cbn [after_replay foldl]. fold (after_replay revs (after_save r s)).
    rewrite Hlog.
    destruct (log_after_save subreddit CONFIG_email r s) as [->| ->].
    + exists new, kept. split; [done|]. split; [|done]. by apply sublist_cons.
    + exists (new ++ [commit_of r (staged (after_save r s))]), (r :: kept).
      split; [|split].
      * by rewrite <- (assoc_L (++)).
      * by apply sublist_skip.
      * rewrite reverse_app. cbn. by constructor.
Qed.

(** A refused commit adds nothing to the log. *)
Lemma refused_log r s :
  head (exits (after_save r s)) ≠ Some 0 →
  log (after_save r s) = log s.
Proof. unfold after_save. by repeat case_match. Qed.
End ReplayRecords.

Section Recovery.
Import Py PyFacts.

(** Whatever the path, an id that comes back is what [str] prints for
    a 128-bit value. *)
Lemma recovered_is_printed path s s' c :
  get_last_saved_revision path s = (s', Return (Some c)) →
  ∃ n, 0 ≤ n < 2 ^ 128 ∧ c = Uuid.str n.
Proof.
  unfold get_last_saved_revision, bind, path_exists, check_output, ret, raise.
  repeat (case_match; simplify_eq/=); try done.
  intros [= <- <-]. eexists. split; [|done].
  by eapply UuidRoundTrip.UUID_range.
Qed.

(** The parts of cursor recovery that do what the specification says:
    no file, no cursor; a last word that is no UUID, no cursor. *)
Lemma cursor_none_without_file path s :
  worktree s !! path = None →
  get_last_saved_revision path s = (s, Return None).
Proof.
  intros Hfile. unfold get_last_saved_revision, bind, path_exists.
  rewrite Hfile. rewrite bool_decide_eq_false_2; [done|]. by intros [? ?].
Qed.

Lemma cursor_none_for_foreign_message path s c :
  is_token path = true →
  is_Some (worktree s !! path) →
  Git.last_touching [path] (log s) = Some c →
  Uuid.UUID (default "+0000" (last_word (message c))) = None →
  get_last_saved_revision path s = (s, Return None).
Proof.
  intros Hp [content Hfile] Hc Hword.
  rewrite get_last_saved_revision_run by done.
  unfold lookup_cursor, cursor_of_message. rewrite Hfile, Hc, Hword.
  by destruct (log s).
Qed.
End Recovery.

Section Selection.
Import Py PyFacts.

Lemma for_each_ext {A} (f g : A → M unit) xs s :
  (∀ x s, x ∈ xs → f x s = g x s) →
  for_each xs f s = for_each xs g s.
Proof.
  revert s. induction xs as [|x xs IH]; intros s H; [done|].
  cbn [for_each]. unfold bind. rewrite H by left.
  destruct (g x s) as [s1 [[]|e]]; [|done].
  apply IH. intros y s' Hy. apply H. by right.
Qed.

Lemma for_each_filter {A} (p : A → bool) (f : A → M unit) xs s :
  for_each xs (λ x, if p x then f x else ret tt) s
  = for_each (filter (λ x, p x = true) xs) f s.
Proof.
  revert s. induction xs as [|x xs IH]; intros s; [done|].
  cbn [for_each]. destruct (p x) eqn:Hp.
  - rewrite filter_cons_True by done. cbn [for_each]. unfold bind.
    destruct (f x s) as [s1 [[]|e]]; [|done]. apply IH.
  - rewrite filter_cons_False by congruence. unfold bind, ret. apply IH.
Qed.

Lemma forallb_permutation (l k : list bool) :
  l ≡ₚ k → forallb id l = forallb id k.
Proof.
  induction 1 as [|b l k _ IH|b b' l|l k m _ IH1 _ IH2]; cbn.
  - done.
  - by rewrite IH.
  - by destruct b, b'.
  - by rewrite IH1.
Qed.
End Selection.

Section FullSync.
Import Py PyFacts.
Variable subreddit : Subreddit.
Variable CONFIG_email : option string.

Local Abbreviation after_save := (after_save subreddit CONFIG_email).
Local Abbreviation after_replay := (after_replay subreddit CONFIG_email).
Local Abbreviation commit_of := (commit_of subreddit CONFIG_email).
Local Abbreviation page_file := (page_file subreddit).

(** With no commit refused, the log grows by one commit per revision,
    each holding the text of its revision in the file of its page. *)
Lemma log_after_replay_trees revs s :
  refusals (after_replay revs s) = refusals s →
  ∃ new, log (after_replay revs s) = new ++ log s ∧
         Forall2 (λ c r, c = commit_of r (tree c) ∧
                         tree c !! page_file (name r) = Some (content_md r))
                 (reverse new) revs.
Proof.
  revert s. induction revs as [|r revs IH]; intros s Href.
  - exists []. by split.
  - apply replay_step in Href as [Hr Hrest].
    destruct (IH _ Hrest) as (new & Hlog & Hall).
    apply landed in Hr as (Hr&_&_).
    exists (new ++ [commit_of r (staged (after_save r s))]). split.
    + cbn [after_replay foldl]. fold (after_replay revs (after_save r s)).
      rewrite Hlog, Hr. by rewrite <- (assoc_L (++)).
    + rewrite reverse_app. cbn [reverse rev_append app]. constructor; [|done].
      split; [done|]. cbn [tree commit_of].
      by rewrite staged_after_save, lookup_insert_eq.
Qed.

Lemma Forall2_fmap_eq {A B C} (f : A → C) (g : B → C) l k :
  Forall2 (λ x y, f x = g y) l k → f <$> l = g <$> k.
Proof. induction 1; [done|]. rewrite !fmap_cons. by f_equal. Qed.
End FullSync.

(** * Further properties of the script *)

Section MoreFacts.
Import Py PyFacts.
Variable subreddit : Subreddit.
Variable CONFIG_email : option string.

Local Abbreviation save_revision := (save_revision subreddit CONFIG_email).
Local Abbreviation after_save := (after_save subreddit CONFIG_email).
Local Abbreviation after_replay := (after_replay subreddit CONFIG_email).
Local Abbreviation page_file := (page_file subreddit).

Lemma revisions_after_stop c before r after :
  Forall (λ x, revision_id x ≠ c) before →
  revision_id r = c →
  revisions_after (Some c) (before ++ r :: after) = Some after.
Proof.
  intros Hbefore Hr.
  induction Hbefore as [|x before Hx _ IH]; cbn.
  - by rewrite decide_True by congruence.
  - rewrite decide_False; [done|]. by intros [= ?].
Qed.

(** The return code of [git commit] tells whether the commit was
    refused. *)
Lemma committed_iff_not_refused r s :
  head (exits (after_save r s)) = Some 0 ↔
  refusals (after_save r s) = refusals s.
Proof.
  unfold refusals, after_save.
  repeat case_match; cbn [exits head];
    rewrite ?filter_cons; repeat case_decide; simpl;
    split; intros; simplify_eq; try done; lia.
Qed.

Lemma worktree_after_replay page revs r s :
  Forall (λ x, name x = page) revs →
  last revs = Some r →
  worktree (after_replay revs s) !! page_file page = Some (content_md r) ∧
  staged (after_replay revs s) !! page_file page = Some (content_md r).
Proof.
  revert s. induction revs as [|x revs IH]; intros s Hnames Hlast; [done|].
  apply Forall_cons in Hnames as [Hx Hnames].
  cbn [after_replay foldl]. fold (after_replay revs (after_save x s)).
  destruct revs as [|y revs].
  - simplify_eq/=.
    by rewrite worktree_after_save, staged_after_save, !lookup_insert_eq.
  - by apply IH.
Qed.
End MoreFacts.

Section StateFacts.
Import Py PyFacts.
Variable subreddit : Subreddit.
Variable CONFIG_email : option string.

Local Abbreviation save_revision := (save_revision subreddit CONFIG_email).
Local Abbreviation after_save := (after_save subreddit CONFIG_email).
Local Abbreviation after_replay := (after_replay subreddit CONFIG_email).
Local Abbreviation page_file := (page_file subreddit).
Local Abbreviation full_page := (_handle_full_page subreddit CONFIG_email).
Local Abbreviation recent_page :=
  (_handle_revisions_for_page subreddit CONFIG_email).

(** A revision the source serves: in the feed, or in the history of a
    page. *)
Local Abbreviation served := (λ r : Revision,
  r ∈ wiki_recent subreddit ∨
  ∃ page d, wiki_pages subreddit !! page = Some d ∧ r ∈ history d).

Lemma get_recent_revisions_reads page c s :
  (get_recent_revisions subreddit page c s).1 = s.
Proof.
  unfold get_recent_revisions, revisions, bind, ret, raise.
  destruct c; by destruct (wiki_pages subreddit !! page).
Qed.

Lemma mod_settings_reads page s : (mod_settings subreddit page s).1 = s.
Proof. unfold mod_settings, ret, raise. by case_match. Qed.

(** Whatever a page handler answers, all it did to the store is a
    replay of revisions the source serves. *)
Lemma full_page_state page ign im iu s :
  ∃ revs, (full_page page ign im iu s).1 = after_replay revs s ∧
          Forall served revs.
Proof.
  assert (∃ revs,
            (bind (get_last_saved_revision (page_file page))
               (λ last_revision,
                  bind (get_recent_revisions subreddit page last_revision)
                       (λ revisions, for_each revisions save_revision))
               s).1
            = after_replay revs s ∧ Forall served revs) as Hcore.
  { unfold bind.
    pose proof (get_last_saved_revision_reads (page_file page) s) as H1.
    destruct (get_last_saved_revision _ s) as [s1 [c|e]]; cbn in H1; subst s1;
      [|by exists []].
    destruct (wiki_pages subreddit !! page) as [d|] eqn:Hd.
    - rewrite (get_recent_revisions_run _ page d) by done.
      exists (newer_than c (history d)). rewrite for_each_save.
      split; [done|]. apply Forall_forall. intros r Hr%newer_than_elem.
      right. by exists page, d.
    - exists []. split; [|done].
      unfold get_recent_revisions, revisions, bind, raise. rewrite Hd.
      by destruct c. }
  unfold _handle_full_page.
  destruct (_ && _); [by exists []|].
  unfold bind at 1.
  assert (∀ (m : M bool), (∀ s, (m s).1 = s) →
          ∀ k : bool → M unit,
            (∀ b, ∃ revs, (k b s).1 = after_replay revs s ∧
                          Forall served revs) →
            ∃ revs, (match m s with
                     | (s', Return a) => k a s'
                     | (s', Raise e) => (s', Raise e)
                     end).1 = after_replay revs s ∧
                    Forall served revs) as Hstep.
  { intros m Hm k Hk. specialize (Hm s).
    destruct (m s) as [s1 [b|e]]; cbn in Hm; subst s1; [apply Hk|by exists []]. }
  apply Hstep.
  { intros s0. destruct im; cbn [negb]; [done|]. unfold bind, mod_settings, ret, raise.
    by destruct (wiki_pages subreddit !! page). }
  intros [|]; [by exists []|]. unfold bind at 1. apply Hstep.
  { intros s0. destruct iu; cbn [negb]; [done|]. unfold bind, mod_settings, ret, raise.
    by destruct (wiki_pages subreddit !! page). }
  intros [|]; [by exists []|]. apply Hcore.
Qed.

Lemma recent_page_state w s :
  Forall served w →
  ∃ revs, (recent_page w s).1 = after_replay revs s ∧ Forall served revs.
Proof.
  intros Hw.
  unfold _handle_revisions_for_page. destruct w as [|first rest]; [by exists []|].
  unfold bind.
  pose proof (get_last_saved_revision_reads
                (page_file (name first)) s) as H1.
  destruct (get_last_saved_revision _ s) as [s1 [c|e]]; cbn in H1; subst s1;
    [|by exists []].
  destruct (revisions_after c (first :: rest)) as [l|] eqn:Hl.
  - exists l. rewrite for_each_save. split; [done|].
    apply revisions_after_Some in Hl as (before & r & Heq & _).
    rewrite Heq in Hw. apply Forall_app in Hw as [_ Hw].
    by apply Forall_cons in Hw as [_ Hw].
  - apply full_page_state.
Qed.

Lemma recent_step_state pl il im iu entry s :
  Forall served entry.2 →
  ∃ revs, (recent_step subreddit CONFIG_email pl il im iu entry s).1
          = after_replay revs s ∧ Forall served revs.
Proof.
  unfold recent_step. destruct entry as [page w]. cbn [snd]. intros Hw.
  unfold bind, mod_settings.
  destruct (wiki_pages subreddit !! page); [|by exists []].
  unfold ret at 1.
  repeat (destruct (_ && _); [by exists []|]).
  by apply recent_page_state.
Qed.

Lemma for_each_state {A} (f : A → M unit) xs s :
  (∀ x s, x ∈ xs →
          ∃ revs, (f x s).1 = after_replay revs s ∧ Forall served revs) →
  ∃ revs, (for_each xs f s).1 = after_replay revs s ∧ Forall served revs.
Proof.
  revert s. induction xs as [|x xs IH]; intros s Hf; [by exists []|].
  cbn [for_each]. unfold bind.
  destruct (Hf x s) as (revs1 & H1 & Hs1); [left|].
  destruct (f x s) as [s1 [[]|e]]; cbn in H1; subst s1; [|by exists revs1].
  destruct (IH (after_replay revs1 s)) as (revs2 & H2 & Hs2).
  { intros y s0 Hy. apply Hf. by right. }
  exists (revs1 ++ revs2). rewrite after_replay_app.
  split; [done|]. by apply Forall_app.
Qed.

Lemma main_state pl il full im iu s :
  ∃ revs, (main subreddit CONFIG_email pl il full im iu s).1
          = after_replay revs s ∧ Forall served revs.
Proof.
  unfold main.
  destruct (full && negb _); [|destruct (full && _)].
  - apply for_each_state. intros x s0 _. apply full_page_state.
  - apply for_each_state. intros x s0 _. apply full_page_state.
  - apply for_each_state. intros [page w] s0 Hin.
    apply (recent_step_state pl il im iu (page, w)). cbn [snd].
    destruct (revisions_by_page_spec (reverse (wiki_recent subreddit)))
      as (_ & Hw & _).
    destruct (Hw _ _ Hin) as [-> _].
    apply Forall_forall. intros r [_ Hr]%list_elem_of_filter.
    left. by rewrite elem_of_reverse in Hr.
Qed.

(** A replay writes the files of the pages it replays, and no other. *)
Lemma after_replay_other_files revs s q :
  (∀ page, q ≠ page_file page) →
  worktree (after_replay revs s) !! q = worktree s !! q ∧
  staged (after_replay revs s) !! q = staged s !! q.
Proof.
  intros Hq. revert s. induction revs as [|r revs IH]; intros s; [done|].
  cbn [after_replay foldl]. fold (after_replay revs (after_save r s)).
  destruct (IH (after_save r s)) as [-> ->].
  rewrite worktree_after_save, staged_after_save.
  by rewrite !lookup_insert_ne by (symmetry; apply Hq).
Qed.
End StateFacts.

Section RunFacts.
Import Py PyFacts.
Variable subreddit : Subreddit.
Variable CONFIG_email : option string.

Local Abbreviation save_revision := (save_revision subreddit CONFIG_email).
Local Abbreviation after_save := (after_save subreddit CONFIG_email).
Local Abbreviation after_replay := (after_replay subreddit CONFIG_email).
Local Abbreviation page_file := (page_file subreddit).
Local Abbreviation full_page := (_handle_full_page subreddit CONFIG_email).
Local Abbreviation recent_page :=
  (_handle_revisions_for_page subreddit CONFIG_email).

(** A loop with a step that raises wherever it is run does not
    return. *)
Lemma for_each_raises {A} (f : A → M unit) xs x s :
  x ∈ xs →
  (∀ s, ∃ e, (f x s).2 = Raise e) →
  ∃ e, (for_each xs f s).2 = Raise e.
Proof.
  intros Hx Hf. revert s.
  induction xs as [|y xs IH]; intros s; [by apply elem_of_nil in Hx|].
  cbn [for_each]. unfold bind.
  apply elem_of_cons in Hx as [<-|Hx].
  - destruct (Hf s) as [e He].
    destruct (f x s) as [s1 [[]|e']]; cbn in He; [done|by exists e'].
  - destruct (f y s) as [s1 [[]|e']]; [|by exists e'].
    by apply IH.
Qed.

Lemma full_page_unknown_raises page ign im iu s :
  wiki_pages subreddit !! page = None →
  page ∉ default [] ign →
  ∃ e, (full_page page ign im iu s).2 = Raise e.
Proof.
  intros Hd Hign. unfold _handle_full_page.
  rewrite truthy_elem, bool_decide_eq_false_2 by done.
  unfold bind, mod_settings, get_recent_revisions, revisions, ret, raise.
  rewrite Hd.
  destruct im, iu; cbn [negb]; try by eexists.
  destruct (get_last_saved_revision _ s) as [s1 [c|e]]; [|by eexists].
  destruct c; by eexists.
Qed.

Lemma recent_step_unknown_raises pl il im iu page w s :
  wiki_pages subreddit !! page = None →
  recent_step subreddit CONFIG_email pl il im iu (page, w) s
  = (s, Raise APIException).
Proof.
  intros Hd. unfold recent_step, bind, mod_settings, raise. by rewrite Hd.
Qed.
End RunFacts.

Module CliFacts.
Import Py PyFacts Cli.

Lemma split_on_cons sep s : ∃ piece pieces, split_on sep s = piece :: pieces.
Proof.
  induction s as [|c s (piece & pieces & IH)]; cbn; [by eexists _, _|].
  destruct (Ascii.eqb c sep); [by eexists _, _|].
  rewrite IH. by eexists _, _.
Qed.

Lemma join_cons sep piece piece' pieces :
  join sep (piece :: piece' :: pieces)
  = piece +:+ String sep (join sep (piece' :: pieces)).
Proof. done. Qed.

(** Joining the pieces with the separator gives the text back. *)
Lemma join_split_on sep s : join sep (split_on sep s) = s.
Proof.
  induction s as [|c s IH]; [done|]. cbn [split_on].
  destruct (Ascii.eqb_spec c sep) as [->|Hc].
  - destruct (split_on_cons sep s) as (piece & pieces & Hs).
    rewrite Hs in IH |- *. rewrite join_cons, IH. by rewrite sapp_nil_l.
  - destruct (split_on_cons sep s) as (piece & pieces & Hs).
    rewrite Hs in IH |- *. destruct pieces as [|piece' pieces].
    + cbn in IH |- *. by rewrite IH.
    + rewrite join_cons in IH |- *. by rewrite sapp_cons, IH.
Qed.

(** No piece holds the separator. *)
Lemma split_on_pieces sep s :
  Forall (λ piece, all (λ c, negb (Ascii.eqb c sep)) piece = true)
         (split_on sep s).
Proof.
  induction s as [|c s IH]; [by repeat constructor|]. cbn [split_on].
  destruct (Ascii.eqb c sep) eqn:Hc; [by constructor|].
  destruct (split_on sep s) as [|piece pieces]; [by repeat constructor; cbn; rewrite Hc|].
  apply Forall_cons in IH as [Hpiece Hpieces]. constructor; [|done].
  cbn. by rewrite Hc.
Qed.

(** Pieces without the separator, joined and split, come back. *)
Lemma split_on_join sep piece pieces :
  Forall (λ piece, all (λ c, negb (Ascii.eqb c sep)) piece = true)
         (piece :: pieces) →
  split_on sep (join sep (piece :: pieces)) = piece :: pieces.
Proof.
  revert piece. induction pieces as [|piece' pieces IH]; intros piece Hall.
  - apply Forall_cons in Hall as [Hpiece _]. cbn [join].
    induction piece as [|c piece IHp]; [done|]. cbn in Hpiece |- *.
    apply andb_prop in Hpiece as [Hc Hpiece].
    apply negb_true_iff in Hc. rewrite Hc. by rewrite IHp.
  - apply Forall_cons in Hall as [Hpiece Hall]. rewrite join_cons.
    specialize (IH _ Hall).
    induction piece as [|c piece IHp].
    + rewrite sapp_nil_l. cbn [split_on]. rewrite Ascii.eqb_refl.
      by rewrite IH.
    + cbn in Hpiece. apply andb_prop in Hpiece as [Hc Hpiece].
      apply negb_true_iff in Hc. rewrite sapp_cons. cbn [split_on].
      rewrite Hc. by rewrite IHp.
Qed.
End CliFacts.

Section Quiet.
Import Py PyFacts.
Variable subreddit : Subreddit.
Variable CONFIG_email : option string.

Local Abbreviation save_revision := (save_revision subreddit CONFIG_email).
Local Abbreviation after_save := (after_save subreddit CONFIG_email).
Local Abbreviation after_replay := (after_replay subreddit CONFIG_email).
Local Abbreviation commit_of := (commit_of subreddit CONFIG_email).
Local Abbreviation page_file := (page_file subreddit).
Local Abbreviation full_page := (_handle_full_page subreddit CONFIG_email).
Local Abbreviation recent_page :=
  (_handle_revisions_for_page subreddit CONFIG_email).
Local Abbreviation settled := (settled subreddit).

Lemma same_repository_refl s : same_repository s s.
Proof. done. Qed.

Lemma same_repository_trans s1 s2 s3 :
  same_repository s1 s2 → same_repository s2 s3 → same_repository s1 s3.
Proof. intros (?&?&?) (?&?&?). repeat split; congruence. Qed.

Lemma lookup_cursor_same q s s' :
  same_repository s s' → lookup_cursor q s = lookup_cursor q s'.
Proof. intros (Hw & _ & Hl). unfold lookup_cursor. by rewrite Hw, Hl. Qed.

Lemma settled_same page s s' :
  same_repository s s' → settled page s → settled page s'.
Proof.
  intros Hsame (d & c & Hd & Hc & Hall). exists d, c.
  rewrite <- (lookup_cursor_same _ s s') by done.
  destruct Hsame as (Hw & Hs & _). by rewrite <- Hw, <- Hs.
Qed.

Lemma clean_same s s' : same_repository s s' → clean s → clean s'.
Proof. unfold clean. intros (_ & Hs & Hl). by rewrite Hs, Hl. Qed.

Lemma message_not_empty r :
  Uuid.canonical (revision_id r) = true →
  nonempty (Git.stripspace (message_of r)) = true.
Proof.
  intros Hid%UuidRoundTrip.canonical_token.
  apply (GitFacts.stripspace_nonempty _ (revision_id r)).
  by apply last_word_message.
Qed.

(** What a save does to a clean store, when git takes the date: the
    commit is refused, for the file has that text already, or it
    lands. *)
Lemma after_save_cases r s :
  clean s →
  Uuid.canonical (revision_id r) = true →
  Git.date_ok (revision_date r) = true →
  (staged s !! page_file (name r) = Some (content_md r) ∧
   log (after_save r s) = log s ∧
   staged (after_save r s) = staged s) ∨
  refusals (after_save r s) = refusals s.
Proof.
  intros Hclean Hid%message_not_empty Hdate.
  unfold after_save. rewrite Hid, Hdate. cbn [negb].
  destruct (decide (_ = _)) as [Heq|Hne]; cbn [log staged].
  - left. rewrite <- Hclean in Heq.
    split; [|done]. rewrite <- Heq. apply lookup_insert_eq.
  - right. unfold refusals. cbn [exits]. by rewrite !filter_cons_False by naive_solver.
Qed.

Lemma clean_after_save r s :
  clean s → Uuid.canonical (revision_id r) = true →
  Git.date_ok (revision_date r) = true →
  clean (after_save r s).
Proof.
  intros Hclean Hid Hdate.
  destruct (after_save_cases r s Hclean Hid Hdate) as [(_ & Hl & Hs)|Hland].
  - unfold clean. by rewrite Hs, Hl.
  - by apply landed in Hland as (_ & _ & ?).
Qed.

Lemma clean_after_any_replay revs s :
  clean s →
  Forall (λ r, Uuid.canonical (revision_id r) = true ∧
               Git.date_ok (revision_date r) = true) revs →
  clean (after_replay revs s).
Proof.
  intros Hclean Hids. revert s Hclean.
  induction Hids as [|r revs [Hr Hdate] _ IH]; intros s Hclean; [done|].
  cbn [after_replay foldl]. apply IH. by apply clean_after_save.
Qed.

(** The cursor of another page survives a save, landed or refused. *)
Lemma lookup_cursor_other_any r s q c :
  clean s → Uuid.canonical (revision_id r) = true →
  Git.date_ok (revision_date r) = true →
  q ≠ page_file (name r) →
  lookup_cursor q s = Return c →
  lookup_cursor q (after_save r s) = Return c.
Proof.
  intros Hclean Hid Hdate Hq Hc.
  destruct (after_save_cases r s Hclean Hid Hdate) as [(_ & Hl & _)|Hland].
  - unfold lookup_cursor in *.
    rewrite worktree_after_save, lookup_insert_ne, Hl by done. done.
  - by apply lookup_cursor_other.
Qed.

(** A commit of the log put the file into the head, if it is there. *)
Lemma head_file_was_committed q l text :
  head_tree l !! q = Some text → is_Some (Git.last_touching [q] l).
Proof.
  induction l as [|c older IH]; [done|]. cbn [head_tree Git.last_touching].
  intros Hq. rewrite touches_one. case_bool_decide as Hc; [done|].
  apply IH. by rewrite <- Hc.
Qed.

(** A replay for one page on a clean store, seen from its end: the
    revisions after the last commit that landed were refused, and have
    the text the file holds; the cursor is the last revision that
    landed, if one did, and the log is as it was otherwise. *)
Lemma replay_page_outcome page revs s :
  clean s →
  Forall (λ r, name r = page ∧ Uuid.canonical (revision_id r) = true ∧
               Git.date_ok (revision_date r) = true) revs →
  ∃ landed refused,
    revs = landed ++ refused ∧
    Forall (λ r, worktree (after_replay revs s) !! page_file page
                 = Some (content_md r) ∧
                 staged (after_replay revs s) !! page_file page
                 = Some (content_md r)) refused ∧
    match last landed with
    | Some r => lookup_cursor (page_file page) (after_replay revs s)
                = Return (Some (revision_id r))
    | None => landed = [] ∧ log (after_replay revs s) = log s
    end.
Proof.
  intros Hclean. induction revs as [|x revs IH] using rev_ind; intros Hrevs.
  { exists [], []. by repeat split. }
  apply Forall_app in Hrevs as [Hrevs [(Hname & Hid & Hdate) _]%Forall_cons].
  destruct (IH Hrevs) as (landed & refused & Heq & Hrefused & Hcursor).
  rewrite after_replay_app. cbn [after_replay foldl].
  set (s1 := after_replay revs s) in *.
  assert (clean s1) as Hclean1.
  { apply clean_after_any_replay; [done|].
    eapply Forall_impl; [exact Hrevs|]. by intros ? [_ ?]. }
  destruct (after_save_cases x s1 Hclean1 Hid Hdate)
    as [(Hsame & Hlog & Hst)|Hland].
  - exists landed, (refused ++ [x]). rewrite Hname in Hsame.
    split; [by rewrite Heq, (assoc_L (++))|].
    assert (worktree (after_save x s1) !! page_file page
            = Some (content_md x)) as Hwt
      by (by rewrite worktree_after_save, Hname, lookup_insert_eq).
    split.
    + apply Forall_app. split.
      * eapply Forall_impl; [exact Hrefused|]. cbn.
        intros r [_ Hr]. rewrite Hst, Hwt. split; congruence.
      * constructor; [|done]. by rewrite Hst.
    + destruct (last landed) as [r|].
      * unfold lookup_cursor in Hcursor |- *. rewrite Hwt, Hlog.
        by destruct (worktree s1 !! page_file page).
      * by rewrite Hlog.
  - exists (revs ++ [x]), []. split; [by rewrite (right_id_L [] (++))|].
    split; [done|]. rewrite last_snoc, <- Hname.
    rewrite lookup_cursor_landed by done.
    by rewrite cursor_of_message_canonical.
Qed.

(** Replaying what the file holds already leaves the repository as it
    is. *)
Lemma quiet_replay page revs s :
  clean s →
  Forall (λ r, name r = page ∧
               worktree s !! page_file page = Some (content_md r) ∧
               staged s !! page_file page = Some (content_md r)) revs →
  same_repository s (after_replay revs s).
Proof.
  intros Hclean Hrevs. revert s Hclean Hrevs.
  induction revs as [|r revs IH]; intros s Hclean Hrevs; [done|].
  pose proof Hrevs as [(Hname & Hwt & Hst) _]%Forall_cons.
  assert (same_repository s (after_save r s)) as Hsame.
  { unfold after_save. rewrite Hname.
    rewrite !insert_id by done.
  destruct (Git.date_ok _); cbn [negb]; [by rewrite decide_True|done]. }
  cbn [after_replay foldl].
  apply (same_repository_trans _ (after_save r s)); [done|].
  apply IH; [by eapply clean_same|].
  apply Forall_cons in Hrevs as [_ Hrevs].
  eapply Forall_impl; [exact Hrevs|]. cbn.
  destruct Hsame as (<- & <- & _). done.
Qed.

(** A replay for another page leaves a settled page settled. *)
Lemma settled_frame page q revs s :
  clean s → q ≠ page →
  Forall (λ r, name r = page ∧ Uuid.canonical (revision_id r) = true ∧
               Git.date_ok (revision_date r) = true) revs →
  settled q s → settled q (after_replay revs s).
Proof.
  intros Hclean Hq Hrevs. revert s Hclean.
  induction Hrevs as [|r revs (Hname & Hid & Hdate) _ IH];
    intros s Hclean Hs; [done|].
  cbn [after_replay foldl]. apply IH; [by apply clean_after_save|].
  destruct Hs as (d & c & Hd & Hc & Hall). exists d, c.
  assert (page_file q ≠ page_file (name r)) as Hfile.
  { rewrite Hname. by intros ?%page_file_inj. }
  split; [done|]. split; [by apply lookup_cursor_other_any|].
  by rewrite worktree_after_save, staged_after_save,
       !lookup_insert_ne by done.
Qed.
End Quiet.

Section QuietRun.
Import Py PyFacts.
Variable subreddit : Subreddit.
Variable CONFIG_email : option string.
Hypothesis wf : well_formed subreddit.
Hypothesis dated : dates_accepted subreddit.

Local Abbreviation save_revision := (save_revision subreddit CONFIG_email).
Local Abbreviation after_save := (after_save subreddit CONFIG_email).
Local Abbreviation after_replay := (after_replay subreddit CONFIG_email).
Local Abbreviation page_file := (page_file subreddit).
Local Abbreviation full_page := (_handle_full_page subreddit CONFIG_email).
Local Abbreviation recent_page :=
  (_handle_revisions_for_page subreddit CONFIG_email).
Local Abbreviation settled := (settled subreddit).

Lemma history_facts page d c :
  wiki_pages subreddit !! page = Some d →
  Forall (λ r, name r = page ∧ Uuid.canonical (revision_id r) = true ∧
               Git.date_ok (revision_date r) = true)
         (newer_than c (history d)).
Proof.
  intros Hd. apply Forall_forall. intros r Hr%newer_than_elem.
  split; [by eapply wf_owner|]. split; [by eapply wf_canonical|].
  by eapply dated.
Qed.

(** What is newer than a revision of a reversed prefix of the history
    is what follows it there. *)
Lemma newer_than_split d page newer rest before r after :
  wiki_pages subreddit !! page = Some d →
  history d = newer ++ rest →
  reverse newer = before ++ r :: after →
  newer_than (Some (revision_id r)) (history d) = after.
Proof.
  intros Hd Hh Hsplit.
  assert (newer = reverse after ++ r :: reverse before) as ->.
  { apply (inj reverse). rewrite Hsplit.
    rewrite reverse_app, reverse_cons, !reverse_involutive.
    by rewrite <- (assoc_L (++)). }
  pose proof (wf_distinct _ wf _ _ Hd) as Hnd.
  rewrite Hh, <- !(assoc_L (++)) in Hnd |- *.
  cbn [app] in Hnd |- *. unfold newer_than.
  rewrite walk_stop, reverse_involutive, (right_id_L [] (++)); try done.
  rewrite fmap_app, fmap_cons in Hnd.
  apply NoDup_app in Hnd as (_ & Hnd & _).
  apply Forall_forall. intros x Hx Heq. apply (Hnd (revision_id x)).
  - apply list_elem_of_fmap. by exists x.
  - rewrite Heq. left.
Qed.

(** After the full handler ran on a clean store the page is
    settled. *)
Lemma full_page_settled page d c s :
  wiki_pages subreddit !! page = Some d →
  clean s →
  lookup_cursor (page_file page) s = Return c →
  settled page (after_replay (newer_than c (history d)) s).
Proof.
  intros Hd Hclean Hc.
  pose proof (history_facts page d c Hd) as Hrevs.
  destruct (replay_page_outcome subreddit CONFIG_email page _ s Hclean Hrevs)
    as (landed & refused & Hsplit & Hrefused & Hcursor).
  set (s' := after_replay (newer_than c (history d)) s) in *.
  destruct (last landed) as [r|] eqn:Hlast.
  - exists d, (Some (revision_id r)). split; [done|]. split; [done|].
    apply last_Some in Hlast as [before ->].
    destruct (newer_than_prefix c (history d)) as (newer & Hn & [rest Hh]).
    rewrite Hn, <- (assoc_L (++)) in Hsplit. cbn [app] in Hsplit.
    by rewrite (newer_than_split d page newer rest before r refused).
  - destruct Hcursor as [-> Hlog]. cbn [app] in Hsplit.
    destruct refused as [|x refused].
    { subst s'. rewrite Hsplit. exists d, c.
      split; [done|]. split; [done|]. by rewrite Hsplit. }
    assert (clean s') as Hclean'.
    { apply clean_after_any_replay; [done|].
      eapply Forall_impl; [exact Hrevs|]. by intros ? [_ ?]. }
    pose proof Hrefused as [[Hwt Hst] _]%Forall_cons.
    rewrite Hclean' in Hst.
    destruct (head_file_was_committed _ _ _ Hst) as [commit Hcommit].
    assert (lookup_cursor (page_file page) s'
            = Return (cursor_of_message (message commit))) as Hc'.
    { unfold lookup_cursor. rewrite Hwt, Hcommit.
      by destruct (log s'). }
    exists d, (cursor_of_message (message commit)).
    split; [done|]. split; [done|].
    assert (∀ r, r ∈ newer_than (cursor_of_message (message commit))
                            (history d) →
                 r ∈ newer_than c (history d)) as Hsub.
    { unfold lookup_cursor in Hc. rewrite <- Hlog in Hc.
      destruct (worktree s !! page_file page).
      - destruct (log s'); [done|]. rewrite Hcommit in Hc.
        by injection Hc as <-.
      - injection Hc as <-. intros r Hr%newer_than_elem.
        by apply elem_of_reverse. }
    apply Forall_forall. intros r Hr%Hsub. rewrite Hsplit in Hr.
    rewrite Forall_forall in Hrefused. by apply Hrefused.
Qed.

(** The handler leaves the repository of a settled page as it is. *)
Lemma full_page_quiet page s :
  clean s → settled page s →
  ∃ s', full_page page None true true s = (s', Return tt) ∧
        same_repository s s'.
Proof.
  intros Hclean (d & c & Hd & Hc & Hall).
  rewrite (full_page_run _ _ page d) by eauto using known_page_token.
  rewrite Hc. eexists. split; [done|].
  apply (quiet_replay _ _ page); [done|].
  pose proof (history_facts page d c Hd) as Hrevs.
  rewrite Forall_forall in Hrevs, Hall |- *.
  intros r Hr. split; [by apply Hrevs|by apply Hall].
Qed.

(** With a feed that is the newest part of the history the recent
    handler does what the full handler does. *)
Lemma recent_page_full page w s :
  window_of subreddit page w →
  recent_page w s = full_page page None true true s.
Proof.
  intros Hwin.
  pose proof Hwin as (d & first & rest & -> & Hd & Hnames & Hnd & _)%window_facts;
    [|done].
  pose proof Hnames as [Hfirst _]%Forall_cons.
  assert (is_token (page_file page) = true) as Htok
    by eauto using known_page_token.
  rewrite recent_page_run by (by rewrite Hfirst).
  rewrite Hfirst.
  rewrite (full_page_run _ _ page d) by done.
  destruct (lookup_cursor _ s) as [c|e]; [|done].
  destruct (revisions_after c (first :: rest)) as [l|] eqn:Hl;
    [|done].
  apply revisions_after_Some in Hl as (before & r & Hw & <-).
  destruct Hwin as (_ & d' & Hd' & [older Hh]).
  assert (d' = d) as -> by congruence.
  by rewrite (newer_than_split d page (reverse (first :: rest)) older
                before r l) by (by rewrite ?reverse_involutive).
Qed.
End QuietRun.

Section TwoRuns.
Import Py PyFacts.
Variable subreddit : Subreddit.
Variable CONFIG_email : option string.
Hypothesis wf : well_formed subreddit.
Hypothesis dated : dates_accepted subreddit.

Local Abbreviation after_replay := (after_replay subreddit CONFIG_email).
Local Abbreviation page_file := (page_file subreddit).
Local Abbreviation full_page := (_handle_full_page subreddit CONFIG_email).
Local Abbreviation recent_page :=
  (_handle_revisions_for_page subreddit CONFIG_email).
Local Abbreviation settled := (settled subreddit).

Context {A : Type} (f : A → M unit).

(** The steps of a run: one does nothing, one is the full handler for a
    page the API holds, one raises. *)
Local Abbreviation idle := (λ x : A, ∀ s, f x s = (s, Return tt)).
Local Abbreviation handles := (λ (x : A) (page : string),
  is_Some (wiki_pages subreddit !! page) ∧
  ∀ s, f x s = full_page page None true true s).
Local Abbreviation raises := (λ x : A, ∀ s, ∃ e, f x s = (s, Raise e)).
Local Abbreviation at_rest := (λ (x : A) (s : Store),
  idle x ∨ ∃ page, handles x page ∧ settled page s).

Lemma first_run_settles xs : ∀ seen s s1,
  (∀ x, x ∈ xs → idle x ∨ (∃ page, handles x page) ∨ raises x) →
  clean s →
  (∀ y, y ∈ seen → at_rest y s) →
  for_each xs f s = (s1, Return tt) →
  clean s1 ∧ ∀ y, y ∈ seen ++ xs → at_rest y s1.
Proof.
  induction xs as [|x xs IH]; intros seen s s1 Hkind Hclean Hseen Hrun.
  { injection Hrun as <-. by rewrite (right_id_L [] (++)). }
  apply for_each_cons_Return in Hrun as (s' & Hx & Hrun).
  assert (clean s' ∧ ∀ y, y ∈ seen ++ [x] → at_rest y s') as [Hclean' Hseen'].
  { destruct (Hkind x) as [Hidle|[[page Hpage]|Hraise]]; [left|..].
    - rewrite Hidle in Hx. injection Hx as <-. split; [done|].
      intros y [Hy| ->%list_elem_of_singleton]%elem_of_app; [by apply Hseen|].
      by left.
    - pose proof Hpage as [[d Hd] Hf]. rewrite Hf in Hx.
      rewrite (full_page_run _ _ page d) in Hx
        by eauto using known_page_token.
      destruct (lookup_cursor _ s) as [c|e] eqn:Hc; [|done].
      injection Hx as <-.
      pose proof (history_facts subreddit wf dated page d c Hd) as Hrevs.
      split.
      { apply clean_after_any_replay; [done|].
        eapply Forall_impl; [exact Hrevs|]. by intros ? [_ ?]. }
      intros y [Hy| ->%list_elem_of_singleton]%elem_of_app.
      + destruct (Hseen y Hy) as [Hidle|(q & Hq & Hsettled)]; [by left|].
        right. exists q. split; [done|].
        destruct (decide (q = page)) as [->|Hne].
        * by apply full_page_settled.
        * by apply (settled_frame _ _ page).
      + right. exists page. split; [done|]. by apply full_page_settled.
    - destruct (Hraise s) as [e He]. congruence. }
  destruct (IH (seen ++ [x]) s' s1) as [Hclean1 Hrest]; try done.
  { intros y Hy. apply Hkind. by right. }
  split; [done|]. intros y Hy. apply Hrest.
  by rewrite <- (assoc_L (++)).
Qed.

Lemma next_run_is_quiet xs : ∀ s,
  clean s →
  (∀ y, y ∈ xs → at_rest y s) →
  ∃ s2, for_each xs f s = (s2, Return tt) ∧ same_repository s s2.
Proof.
  induction xs as [|x xs IH]; intros s Hclean Hrest.
  { by exists s. }
  assert (∃ s', f x s = (s', Return tt) ∧ same_repository s s')
    as (s' & Hx & Hsame).
  { destruct (Hrest x) as [Hidle|(page & [_ Hf] & Hsettled)]; [left|..].
    - exists s. by rewrite Hidle.
    - rewrite Hf. by apply full_page_quiet. }
  destruct (IH s') as (s2 & Hrun & Hsame').
  - by eapply clean_same.
  - intros y Hy. destruct (Hrest y) as [Hidle|(page & Hpage & Hsettled)];
      [by right|by left|].
    right. exists page. split; [done|]. by eapply settled_same.
  - exists s2. cbn [for_each]. unfold bind. rewrite Hx.
    split; [done|]. by eapply same_repository_trans.
Qed.
End TwoRuns.

Section TwoRunsOfMain.
Variable subreddit : Subreddit.
Variable CONFIG_email : option string.
Hypothesis wf : well_formed subreddit.
Hypothesis dated : dates_accepted subreddit.

Lemma main_twice page_list ignore_list include_full include_mod
    include_unlisted s s1 :
  clean s →
  main subreddit CONFIG_email page_list ignore_list include_full
       include_mod include_unlisted s = (s1, Return tt) →
  ∃ s2, main subreddit CONFIG_email page_list ignore_list include_full
             include_mod include_unlisted s1 = (s2, Return tt) ∧
        same_repository s1 s2.
Proof.
  intros Hclean Hrun. destruct include_full.
  - rewrite main_full in Hrun |- * by done.
    apply (first_run_settles subreddit CONFIG_email wf dated _ _ []) in Hrun
      as [Hclean1 Hrest]; try done.
    + by apply (next_run_is_quiet subreddit CONFIG_email wf dated).
    + intros page _.
      destruct (full_step_cases subreddit CONFIG_email ignore_list
                  include_mod include_unlisted page) as [H|[H|H]];
        [by left| |by right; right].
      destruct (wiki_pages subreddit !! page) as [d|] eqn:Hd.
      * right. left. exists page. split; [by rewrite Hd|done].
      * right. right. intros s0. rewrite H.
        by apply full_page_unknown.
    + by intros y ?%elem_of_nil.
  - rewrite main_recent in Hrun |- * by done.
    apply (first_run_settles subreddit CONFIG_email wf dated _ _ []) in Hrun
      as [Hclean1 Hrest]; try done.
    + by apply (next_run_is_quiet subreddit CONFIG_email wf dated).
    + intros [page w] Hin.
      destruct (recent_step_cases subreddit CONFIG_email wf page_list
                  ignore_list include_mod include_unlisted page w Hin)
        as [Hwin [H|H]]; [by left|].
      right. left. exists page. split.
      * destruct Hwin as (_ & d & -> & _). done.
      * intros s0. rewrite H. by apply recent_page_full.
    + by intros y ?%elem_of_nil.
Qed.
End TwoRunsOfMain.

Section Selected.
Import Py PyFacts.
Variable subreddit : Subreddit.
Variable CONFIG_email : option string.
Hypothesis wf : well_formed subreddit.

Local Abbreviation after_save := (after_save subreddit CONFIG_email).
Local Abbreviation after_replay := (after_replay subreddit CONFIG_email).
Local Abbreviation page_file := (page_file subreddit).
Local Abbreviation full_page := (_handle_full_page subreddit CONFIG_email).
Local Abbreviation recent_page :=
  (_handle_revisions_for_page subreddit CONFIG_email).

Variables (page_list ignore_list : option (list string)).
Variables (include_mod include_unlisted : bool).

(** A revision of a page that passes the filters. *)
Local Abbreviation taken := (λ r : Revision,
  ∃ d, wiki_pages subreddit !! name r = Some d ∧
       selected page_list ignore_list include_mod include_unlisted
                (name r) (settings d) = true).

Lemma for_each_replays {A} (f : A → M unit) (P : Revision → Prop) xs s :
  (∀ x s, x ∈ xs →
          ∃ revs, (f x s).1 = after_replay revs s ∧ Forall P revs) →
  ∃ revs, (for_each xs f s).1 = after_replay revs s ∧ Forall P revs.
Proof.
  revert s. induction xs as [|x xs IH]; intros s Hf; [by exists []|].
  cbn [for_each]. unfold bind.
  destruct (Hf x s) as (revs1 & H1 & Hs1); [left|].
  destruct (f x s) as [s1 [[]|e]]; cbn in H1; subst s1; [|by exists revs1].
  destruct (IH (after_replay revs1 s)) as (revs2 & H2 & Hs2).
  { intros y s0 Hy. apply Hf. by right. }
  exists (revs1 ++ revs2). rewrite after_replay_app.
  split; [done|]. by apply Forall_app.
Qed.

Lemma full_page_replays_own page d s :
  wiki_pages subreddit !! page = Some d →
  ∃ revs, (full_page page None true true s).1 = after_replay revs s ∧
          Forall (λ r, name r = page) revs.
Proof.
  intros Hd.
  rewrite (full_page_run _ _ page d) by eauto using known_page_token.
  destruct (lookup_cursor _ s) as [c|e]; [|by exists []].
  eexists. split; [done|].
  apply Forall_forall. intros r Hr%newer_than_elem. by eapply wf_owner.
Qed.

Lemma full_step_replays_taken page s :
  (truthy_list page_list = true → page ∈ default [] page_list) →
  ∃ revs, (full_step subreddit CONFIG_email ignore_list include_mod
                     include_unlisted page s).1 = after_replay revs s ∧
          Forall taken revs.
Proof.
  intros Hin. destruct (wiki_pages subreddit !! page) as [d|] eqn:Hd.
  - rewrite (full_step_selected _ _ page_list _ _ _ page d) by done.
    destruct (selected _ _ _ _ page (settings d)) eqn:Hsel; [|by exists []].
    destruct (full_page_replays_own page d s Hd) as (revs & Hrevs & Hown).
    exists revs. split; [done|].
    eapply Forall_impl; [exact Hown|]. cbn. intros r ->. by exists d.
  - destruct (full_step_cases subreddit CONFIG_email ignore_list
                include_mod include_unlisted page) as [H|[H|H]].
    + exists []. by rewrite H.
    + exists []. rewrite H.
      by destruct (full_page_unknown subreddit CONFIG_email page s Hd)
        as [e ->].
    + exists []. by destruct (H s) as [e ->].
Qed.

Lemma recent_step_replays_taken page w s :
  (page, w) ∈ revisions_by_page (reverse (wiki_recent subreddit)) →
  ∃ revs, (recent_step subreddit CONFIG_email page_list ignore_list
                       include_mod include_unlisted (page, w) s).1
          = after_replay revs s ∧
          Forall taken revs.
Proof.
  intros Hwin%(group_window _ wf).
  pose proof Hwin as (_ & d & Hd & _).
  rewrite (recent_step_selected _ _ _ _ _ _ page w d) by done.
  destruct (selected _ _ _ _ page (settings d)) eqn:Hsel; [|by exists []].
  rewrite (recent_page_full _ _ wf page) by done.
  destruct (full_page_replays_own page d s Hd) as (revs & Hrevs & Hown).
  exists revs. split; [done|].
  eapply Forall_impl; [exact Hown|]. cbn. intros r ->. by exists d.
Qed.

Lemma main_replays_taken include_full s :
  ∃ revs, (main subreddit CONFIG_email page_list ignore_list include_full
                include_mod include_unlisted s).1 = after_replay revs s ∧
          Forall taken revs.
Proof.
  destruct include_full.
  - rewrite main_full by done. apply for_each_replays.
    intros page s0 Hpage. apply full_step_replays_taken.
    intros Hl. unfold candidates in Hpage. by rewrite Hl in Hpage.
  - rewrite main_recent by done. apply for_each_replays.
    intros [page w] s0 Hin. by apply recent_step_replays_taken.
Qed.

(** A replay leaves the files of the pages it has no revision of, in
    the working tree, in the staging area and in the commits it adds. *)
Lemma after_replay_skips page revs s :
  Forall (λ r, name r ≠ page) revs →
  worktree (after_replay revs s) !! page_file page
  = worktree s !! page_file page ∧
  staged (after_replay revs s) !! page_file page
  = staged s !! page_file page ∧
  ∃ new, log (after_replay revs s) = new ++ log s ∧
         Forall (λ c, tree c !! page_file page = staged s !! page_file page)
                new.
Proof.
  intros Hrevs. revert s.
  induction Hrevs as [|r revs Hr _ IH]; intros s.
  { repeat split; try done. by exists []. }
  cbn [after_replay foldl]. fold (after_replay revs (after_save r s)).
  destruct (IH (after_save r s)) as (-> & -> & new & -> & Hnew).
  assert (page_file (name r) ≠ page_file page) as Hfile
    by (by intros ?%page_file_inj).
  rewrite worktree_after_save, staged_after_save in *.
  rewrite !lookup_insert_ne in * by done.
  split; [done|]. split; [done|].
  destruct (log_after_save subreddit CONFIG_email r s) as [->| ->].
  - by exists new.
  - exists (new ++ [commit_of subreddit CONFIG_email r
                      (staged (after_save r s))]).
    split; [by rewrite <- (assoc_L (++))|].
    apply Forall_app. split; [done|]. constructor; [|done].
    cbn [tree commit_of]. rewrite staged_after_save.
    by rewrite lookup_insert_ne.
Qed.
End Selected.

(** * The examples are well formed, and git takes their dates *)

Lemma example_wiki_well_formed : well_formed Example.wiki.
Proof.
  assert (∀ page d, wiki_pages Example.wiki !! page = Some d →
                    page = "rules" ∧
                    d = {| settings := Example.open_page;
                           history := [Example.r3; Example.r2; Example.r1] |})
    as Hpage.
  { intros page d Hd. cbn in Hd. by apply lookup_singleton_Some in Hd as [<- <-]. }
  split.
  - reflexivity.
  - by intros page d [-> _]%Hpage.
  - intros page d r [-> ->]%Hpage Hr. cbn in Hr.
    repeat (apply elem_of_cons in Hr as [->|Hr]; [reflexivity|]).
    by apply elem_of_nil in Hr.
  - intros page d r [-> ->]%Hpage Hr. cbn in Hr.
    repeat (apply elem_of_cons in Hr as [->|Hr]; [reflexivity|]).
    by apply elem_of_nil in Hr.
  - intros page d [-> ->]%Hpage. cbn.
    repeat (apply NoDup_cons; split;
            [rewrite ?elem_of_cons, elem_of_nil; intros H;
             repeat (destruct H as [H|H]; [discriminate H|]); done|]).
    apply NoDup_nil_2.
  - intros r Hr. cbn in Hr.
    exists {| settings := Example.open_page;
              history := [Example.r3; Example.r2; Example.r1] |}.
    repeat (apply elem_of_cons in Hr as [->|Hr];
            [split; [reflexivity|by exists [Example.r1]]|]).
    by apply elem_of_nil in Hr.
Qed.

Lemma example_twice_well_formed : well_formed Example.twice.
Proof.
  assert (∀ page d, wiki_pages Example.twice !! page = Some d →
                    page = "rules" ∧
                    d = {| settings := Example.open_page;
                           history := [Example.t2; Example.t1] |})
    as Hpage.
  { intros page d Hd. cbn in Hd. by apply lookup_singleton_Some in Hd as [<- <-]. }
  split.
  - reflexivity.
  - by intros page d [-> _]%Hpage.
  - intros page d r [-> ->]%Hpage Hr. cbn in Hr.
    repeat (apply elem_of_cons in Hr as [->|Hr]; [reflexivity|]).
    by apply elem_of_nil in Hr.
  - intros page d r [-> ->]%Hpage Hr. cbn in Hr.
    repeat (apply elem_of_cons in Hr as [->|Hr]; [reflexivity|]).
    by apply elem_of_nil in Hr.
  - intros page d [-> ->]%Hpage. cbn.
    repeat (apply NoDup_cons; split;
            [rewrite ?elem_of_cons, elem_of_nil; intros H;
             repeat (destruct H as [H|H]; [discriminate H|]); done|]).
    apply NoDup_nil_2.
  - intros r Hr. cbn in Hr.
    exists {| settings := Example.open_page;
              history := [Example.t2; Example.t1] |}.
    repeat (apply elem_of_cons in Hr as [->|Hr];
            [split; [reflexivity|by exists []]|]).
    by apply elem_of_nil in Hr.
Qed.

Lemma sample_two_pages_well_formed : well_formed Sample.two_pages.
Proof.
  pose (faq := {| settings := Sample.hidden;
                  history := [Sample.q2; Sample.q1] |}).
  pose (rules := {| settings := Example.open_page;
                    history := [Example.r3; Example.r2; Example.r1] |}).
  assert (∀ page d, wiki_pages Sample.two_pages !! page = Some d →
                    (page = "faq" ∧ d = faq) ∨ (page = "rules" ∧ d = rules))
    as Hpage.
  { intros page d Hd. cbn in Hd.
    apply lookup_insert_Some in Hd as [[<- <-]|[_ Hd]]; [by left|].
    apply lookup_singleton_Some in Hd as [<- <-]. by right. }
  split.
  - reflexivity.
  - by intros page d [[-> _]|[-> _]]%Hpage.
  - intros page d r [[-> ->]|[-> ->]]%Hpage Hr; cbn in Hr;
      repeat (apply elem_of_cons in Hr as [->|Hr]; [reflexivity|]);
      by apply elem_of_nil in Hr.
  - intros page d r [[-> ->]|[-> ->]]%Hpage Hr; cbn in Hr;
      repeat (apply elem_of_cons in Hr as [->|Hr]; [reflexivity|]);
      by apply elem_of_nil in Hr.
  - intros page d [[-> ->]|[-> ->]]%Hpage; cbn;
      repeat (apply NoDup_cons; split;
              [rewrite ?elem_of_cons, elem_of_nil; intros H;
               repeat (destruct H as [H|H]; [discriminate H|]); done|]);
      apply NoDup_nil_2.
  - intros r Hr. cbn in Hr.
    repeat (apply elem_of_cons in Hr as [->|Hr];
            [first [exists rules; split; [reflexivity|by exists [Example.r1]]
                   |exists faq; split; [reflexivity|by exists []]]|]).
    by apply elem_of_nil in Hr.
Qed.

Lemma example_wiki_dated : dates_accepted Example.wiki.
Proof.
  intros page d r Hd Hr. cbn in Hd.
  apply lookup_singleton_Some in Hd as [<- <-]. cbn in Hr.
  repeat (apply elem_of_cons in Hr as [->|Hr]; [reflexivity|]).
  by apply elem_of_nil in Hr.
Qed.

Lemma example_twice_dated : dates_accepted Example.twice.
Proof.
  intros page d r Hd Hr. cbn in Hd.
  apply lookup_singleton_Some in Hd as [<- <-]. cbn in Hr.
  repeat (apply elem_of_cons in Hr as [->|Hr]; [reflexivity|]).
  by apply elem_of_nil in Hr.
Qed.

Lemma sample_two_pages_dated : dates_accepted Sample.two_pages.
Proof.
  intros page d r Hd Hr. cbn in Hd.
  apply lookup_insert_Some in Hd as [[<- <-]|[_ Hd]].
  - cbn in Hr.
    repeat (apply elem_of_cons in Hr as [->|Hr]; [reflexivity|]).
    by apply elem_of_nil in Hr.
  - apply lookup_singleton_Some in Hd as [<- <-]. cbn in Hr.
    repeat (apply elem_of_cons in Hr as [->|Hr]; [reflexivity|]).
    by apply elem_of_nil in Hr.
Qed.

(** * The claims *)

(** C1. The incremental diff. For a history given newest first: with no
    cursor it is the whole history, oldest first; with a cursor whose id
    occurs in the history it is what precedes the first revision with that
    id, oldest first, without that revision; and for an empty history it
    is empty, whatever the cursor, and nothing is raised. *)
Theorem incremental_diff
    (subreddit : Subreddit) (page : string) (d : PageData) (s : Store) :
  wiki_pages subreddit !! page = Some d →
  get_recent_revisions subreddit page None s
  = (s, Return (reverse (history d))) ∧
  (∀ newer r older,
     history d = newer ++ r :: older →
     Forall (λ x, revision_id x ≠ revision_id r) newer →
     get_recent_revisions subreddit page (Some (revision_id r)) s
     = (s, Return (reverse newer))) ∧
  (history d = [] →
   ∀ cursor, get_recent_revisions subreddit page cursor s = (s, Return [])).
Proof.
  intros Hd. repeat split.
  - by rewrite (get_recent_revisions_run _ page d).
  - intros newer r older Hh Hnewer.
    rewrite (get_recent_revisions_run _ page d) by done.
    unfold newer_than. rewrite Hh, walk_stop by done.
    by rewrite (right_id_L [] (++)).
  - intros Hh cursor. rewrite (get_recent_revisions_run _ page d) by done.
    rewrite Hh. by destruct cursor.
Qed.

Lemma incremental_diff_witness :
  wiki_pages Example.wiki !! "rules"
  = Some {| settings := Example.open_page;
            history := [Example.r3; Example.r2; Example.r1] |} ∧
  get_recent_revisions Example.wiki "rules" (Some Example.id2) Example.fresh
  = (Example.fresh, Return [Example.r3]).
Proof.
  split; [reflexivity|].
  destruct (incremental_diff Example.wiki "rules" _ Example.fresh eq_refl)
    as (_ & Hcursor & _).
  apply (Hcursor [Example.r3] Example.r2 [Example.r1]).
  - reflexivity.
  - repeat constructor. vm_compute. discriminate.
Defined.



(** C3 (as amended). For a well-formed source whose dates git takes and
    a store with nothing staged, after a run of [main] that came to its
    end, a second run with the same arguments and the same source comes
    to its end too and makes no commit: the log, the working tree and the
    staging area stay as the first run left them, in either mode, also
    when git refused commits in the first run.  When no commit was
    refused in the first run, the second run changes nothing at all, and
    for every candidate page that passes the filters the recovered
    cursor is the id of the newest revision, so that the diff is
    empty. *)
Theorem second_run_commits_nothing
    (subreddit : Subreddit) (CONFIG_email : option string)
    (page_list ignore_list : option (list string))
    (include_full include_mod include_unlisted : bool) (s0 s1 : Store) :
  well_formed subreddit →
  dates_accepted subreddit →
  clean s0 →
  main subreddit CONFIG_email page_list ignore_list include_full
       include_mod include_unlisted s0 = (s1, Return tt) →
  (∃ s2,
     main subreddit CONFIG_email page_list ignore_list include_full
          include_mod include_unlisted s1 = (s2, Return tt) ∧
     log s2 = log s1 ∧ worktree s2 = worktree s1 ∧ staged s2 = staged s1) ∧
  (refusals s1 = refusals s0 →
   main subreddit CONFIG_email page_list ignore_list include_full
        include_mod include_unlisted s1 = (s1, Return tt) ∧
   ∀ page d newest older,
     page ∈ candidates subreddit page_list include_full →
     wiki_pages subreddit !! page = Some d →
     selected page_list ignore_list include_mod include_unlisted page
              (settings d) = true →
     history d = newest :: older →
     get_last_saved_revision (page_file subreddit page) s1
     = (s1, Return (Some (revision_id newest))) ∧
     get_recent_revisions subreddit page (Some (revision_id newest)) s1
     = (s1, Return [])).
Proof.
  intros wf Hdated Hclean Hrun. split.
  { destruct (main_twice subreddit CONFIG_email wf Hdated _ _ _ _ _ _ _
                Hclean Hrun) as (s2 & Hrun2 & Hw & Hs & Hl).
    by exists s2. }
  intros Href.
  assert (∀ page d newest older,
            wiki_pages subreddit !! page = Some d →
            history d = newest :: older →
            lookup_cursor (page_file subreddit page) s1
            = Return (Some (revision_id newest)) →
            get_last_saved_revision (page_file subreddit page) s1
            = (s1, Return (Some (revision_id newest))) ∧
            get_recent_revisions subreddit page (Some (revision_id newest)) s1
            = (s1, Return [])) as Hcursor.
  { intros page d newest older Hd Hh Hc. split.
    - rewrite get_last_saved_revision_run by eauto using known_page_token.
      by rewrite Hc.
    - rewrite (get_recent_revisions_run _ page d) by done.
      by rewrite Hh, newer_than_newest. }
  destruct include_full.
  - rewrite main_full in Hrun |- * by done.
    apply second_full_run in Hrun as [Hagain Hquiet]; try done.
    split; [done|]. intros page d newest older Hin Hd Hsel Hh.
    apply (Hcursor page d newest older); try done.
    specialize (Hquiet page Hin).
    rewrite (full_step_selected _ _ page_list _ _ _ _ d) in Hquiet; try done.
    + rewrite Hsel in Hquiet. by eapply full_page_quiet_cursor.
    + intros Ht. unfold candidates in Hin. by rewrite Ht in Hin.
  - rewrite main_recent in Hrun |- * by done.
    apply second_recent_run in Hrun as [Hagain Hquiet]; try done.
    split; [done|]. intros page d newest older Hin Hd Hsel Hh.
    apply (Hcursor page d newest older); try done.
    unfold candidates in Hin. apply list_elem_of_fmap in Hin as ([p w] & -> & Hin).
    cbn [fst] in *.
    specialize (Hquiet _ Hin).
    rewrite (recent_step_selected _ _ _ _ _ _ _ _ d) in Hquiet by done.
    rewrite Hsel in Hquiet.
    eapply recent_page_quiet_cursor; try done. by apply group_window.
Qed.

Lemma second_run_commits_nothing_witness :
  let run := main Example.twice None None None false false false
                  Example.fresh in
  well_formed Example.twice ∧ dates_accepted Example.twice ∧
  clean Example.fresh ∧
  run.2 = Return tt ∧ refusals run.1 ≠ refusals Example.fresh ∧
  ∃ s2,
    main Example.twice None None None false false false run.1
    = (s2, Return tt) ∧
    log s2 = log run.1 ∧ worktree s2 = worktree run.1 ∧
    staged s2 = staged run.1.
Proof.
  cbv zeta.
  assert (main Example.twice None None None false false false Example.fresh
          = ((main Example.twice None None None false false false
                   Example.fresh).1, Return tt)) as Hrun
    by (vm_compute; reflexivity).
  assert (clean Example.fresh) as Hclean by reflexivity.
  split; [exact example_twice_well_formed|].
  split; [exact example_twice_dated|]. split; [exact Hclean|].
  split; [exact (f_equal snd Hrun)|].
  split; [vm_compute; discriminate|].
  exact (proj1 (second_run_commits_nothing Example.twice None None None false
                  false false Example.fresh _ example_twice_well_formed
                  example_twice_dated Hclean Hrun)).
Defined.

(** C3 (as the specification has it) fails.  After the sync of a page
    saved twice with the same text, the cursor is the first revision,
    not the newest, and the diff of the second run is not empty.  When
    the first run starts with a change staged, or a date is one git does
    not take, or the ids of the source are not canonical, the second run
    makes commits; when a page name has a space in it, the second run
    raises. *)
Lemma second_run_is_not_idle :
  ¬ Spec.second_run_idle Example.twice None None None true true true
      Example.fresh ∧
  ¬ Spec.second_run_idle Sample.two_pages None None None true true true
      Sample.dirty ∧
  ¬ Spec.second_run_idle Sample.mixed None None None true true true
      Example.fresh ∧
  ¬ Spec.second_run_idle Sample.capitals None None None true true true
      Example.fresh ∧
  ¬ Spec.second_run_idle Sample.spaces None None None true true true
      Example.fresh.
Proof.
  repeat split.
  - intros H.
    assert (main Example.twice None None None true true true Example.fresh
            = ((main Example.twice None None None true true true
                     Example.fresh).1, Return tt)) as Hrun
      by (vm_compute; reflexivity).
    destruct (H _ Hrun) as [_ Hcursor].
    assert ("rules" ∈ candidates Example.twice None true) as Hin
      by (vm_compute; left).
    specialize (Hcursor "rules" _ Example.t2 [Example.t1] Hin eq_refl eq_refl
                  eq_refl).
    vm_compute in Hcursor. discriminate Hcursor.
  - intros H.
    assert (main Sample.two_pages None None None true true true Sample.dirty
            = ((main Sample.two_pages None None None true true true
                     Sample.dirty).1, Return tt)) as Hrun
      by (vm_compute; reflexivity).
    destruct (H _ Hrun) as [Hlog _].
    apply (f_equal length) in Hlog. vm_compute in Hlog. discriminate Hlog.
  - intros H.
    assert (main Sample.mixed None None None true true true Example.fresh
            = ((main Sample.mixed None None None true true true
                     Example.fresh).1, Return tt)) as Hrun
      by (vm_compute; reflexivity).
    destruct (H _ Hrun) as [Hlog _].
    apply (f_equal length) in Hlog. vm_compute in Hlog. discriminate Hlog.
  - intros H.
    assert (main Sample.capitals None None None true true true Example.fresh
            = ((main Sample.capitals None None None true true true
                     Example.fresh).1, Return tt)) as Hrun
      by (vm_compute; reflexivity).
    destruct (H _ Hrun) as [Hlog _].
    apply (f_equal length) in Hlog. vm_compute in Hlog. discriminate Hlog.
  - intros H.
    assert (main Sample.spaces None None None true true true Example.fresh
            = ((main Sample.spaces None None None true true true
                     Example.fresh).1, Return tt)) as Hrun
      by (vm_compute; reflexivity).
    destruct (H _ Hrun) as [_ Hcursor].
    assert ("my page" ∈ candidates Sample.spaces None true) as Hin
      by (vm_compute; left).
    specialize (Hcursor "my page" _ Sample.spaced [] Hin eq_refl eq_refl
                  eq_refl).
    vm_compute in Hcursor. discriminate Hcursor.
Qed.

Example second_sync_of_a_page_saved_twice :
  let s1 := (main Example.twice None None None true true true
                  Example.fresh).1 in
  exits s1 = [1; 0; 0; 0] ∧
  get_last_saved_revision "wiki/rules.md" s1 = (s1, Return (Some Example.id1)) ∧
  get_recent_revisions Example.twice "rules" (Some Example.id1) s1
  = (s1, Return [Example.t2]) ∧
  log (main Example.twice None None None true true true s1).1 = log s1.
Proof. vm_compute. repeat split; reflexivity. Qed.

(** What the amended claim asks of the source and of the store is
    needed.  When the first run starts with a change staged, the first
    commit of the run takes it along, the cursor of the page changed by
    hand becomes the id of another page, and the second run commits the
    history of that page once more. *)
Example second_run_after_a_dirty_start :
  let run := main Sample.two_pages None None None true true true
                  Sample.dirty in
  ¬ clean Sample.dirty ∧ run.2 = Return tt ∧
  get_last_saved_revision "wiki/faq.md" run.1
  = (run.1, Return (Some Example.id1)) ∧
  length (log run.1) = 6%nat ∧
  length (log (main Sample.two_pages None None None true true true
                    run.1).1) = 8%nat.
Proof.
  cbv zeta. split; [vm_compute; discriminate|].
  vm_compute. repeat split; reflexivity.
Qed.

(** When git does not take the date of a revision, its commit is
    refused, the file stays behind with no commit that touches it, and
    the second run raises. *)
Example second_run_after_a_refused_date :
  let run := main Sample.early None None None true true true
                  Example.fresh in
  run.2 = Return tt ∧ exits run.1 = [128; 0] ∧
  (main Sample.early None None None true true true run.1).2
  = Raise IndexError.
Proof. vm_compute. repeat split; reflexivity. Qed.

(** With a second page after it, the commit of that page takes the
    staged file along, the cursor of the first page becomes an id of the
    second, and the second run commits the first page again. *)
Example second_run_after_a_refused_date_and_another_page :
  let run := main Sample.mixed None None None true true true
                  Example.fresh in
  run.2 = Return tt ∧ exits run.1 = [0; 0; 128; 0; 0; 0] ∧
  get_last_saved_revision "wiki/rules.md" run.1
  = (run.1, Return (Some (revision_id Sample.q1))) ∧
  length (log run.1) = 3%nat ∧
  length (log (main Sample.mixed None None None true true true
                    run.1).1) = 4%nat.
Proof. vm_compute. repeat split; reflexivity. Qed.

(** When the ids of the source are not in canonical form, no cursor
    matches them, and every run commits the whole history again. *)
Example second_run_with_other_spellings :
  let run := main Sample.capitals None None None true true true
                  Example.fresh in
  run.2 = Return tt ∧ exits run.1 = [0; 0; 0; 0] ∧
  length (log run.1) = 3%nat ∧
  length (log (main Sample.capitals None None None true true true
                    run.1).1) = 5%nat.
Proof. vm_compute. repeat split; reflexivity. Qed.

(** C4 (as amended). A full sync of a page whose file no commit has
    touched, that runs to its end with no commit refused, adds exactly one
    commit per revision of the history, oldest first: each ends with the
    id of its revision, holds that revision's text in the page's file and
    bears its date as author and committer date; for a history that the
    source gives newest first, the dates do not decrease in the order
    committed. *)
Theorem full_sync_commits_every_revision
    (subreddit : Subreddit) (CONFIG_email : option string)
    (page : string) (d : PageData)
    (ignore_list : option (list string)) (include_mod include_unlisted : bool)
    (s s' : Store) :
  wiki_pages subreddit !! page = Some d →
  selected None ignore_list include_mod include_unlisted page (settings d)
  = true →
  Py.is_token (page_file subreddit page) = true →
  Forall (λ r, name r = page ∧ Py.is_token (revision_id r) = true)
         (history d) →
  Sorted (λ newer older, revision_date older ≤ revision_date newer)
         (history d) →
  Git.last_touching [page_file subreddit page] (log s) = None →
  _handle_full_page subreddit CONFIG_email page ignore_list include_mod
                    include_unlisted s = (s', Return tt) →
  refusals s' = refusals s →
  ∃ new,
    log s' = new ++ log s ∧
    length new = length (history d) ∧
    Forall2 (λ c r,
               Py.last_word (message c) = Some (revision_id r) ∧
               tree c !! page_file subreddit page = Some (content_md r) ∧
               author_date c = revision_date r ∧
               committer_date c = revision_date r)
            (reverse new) (reverse (history d)) ∧
    Sorted Z.le (author_date <$> reverse new).
Proof.
  intros Hd Hsel Hp Hwf Hsorted Hnone Hrun Href.
  rewrite (full_page_selected _ _ page d), Hsel in Hrun by done.
  rewrite (full_page_run _ _ page d) in Hrun by done.
  unfold lookup_cursor in Hrun. rewrite Hnone in Hrun.
  destruct (worktree s !! page_file subreddit page); [by destruct (log s)|].
  injection Hrun as <-. cbn [newer_than] in *.
  destruct (log_after_replay_trees _ _ _ _ Href) as (new & Hlog & Hall).
  exists new. split; [done|].
  assert (Forall2 (λ c r,
             Py.last_word (message c) = Some (revision_id r) ∧
             tree c !! page_file subreddit page = Some (content_md r) ∧
             author_date c = revision_date r ∧
             committer_date c = revision_date r)
            (reverse new) (reverse (history d))) as Hrec.
  { assert (Forall (λ r, name r = page ∧ Py.is_token (revision_id r) = true)
                   (reverse (history d))) as Hwf'.
    { apply Forall_forall. intros r Hr. rewrite elem_of_reverse in Hr.
      eapply Forall_forall in Hwf; [exact Hwf|exact Hr]. }
    clear Hlog Href. revert Hwf'.
    induction Hall as [|c r cs rs [Hc Ht] _ IH]; intros Hwf'; [constructor|].
    apply Forall_cons in Hwf' as [[Hname Hid] Hwf'].
    constructor; [|by apply IH].
    rewrite <- Hname, Ht. rewrite Hc.
    cbn [message author_date committer_date commit_of].
    by rewrite GitFacts.last_word_stripspace, last_word_message. }
  split; [|split; [done|]].
  - apply Forall2_length in Hrec. by rewrite !length_reverse in Hrec.
  - assert (author_date <$> reverse new
            = revision_date <$> reverse (history d)) as ->.
    { apply Forall2_fmap_eq. eapply Forall2_impl; [exact Hrec|].
      by intros c r (_ & _ & ? & _). }
    apply Sorted_fmap with (R1 := flip (λ newer older,
                                       revision_date older ≤ revision_date newer)).
    + done.
    + by apply Sorted_reverse.
Qed.

Lemma full_sync_commits_every_revision_witness :
  let run := _handle_full_page Example.wiki None "rules" None true true
                               Example.fresh in
  run.2 = Return tt ∧ refusals run.1 = refusals Example.fresh ∧
  ∃ new,
    log run.1 = new ++ log Example.fresh ∧
    length new = 3%nat ∧
    Sorted Z.le (author_date <$> reverse new).
Proof.
  cbv zeta.
  set (data := {| settings := Example.open_page;
                  history := [Example.r3; Example.r2; Example.r1] |}).
  assert (_handle_full_page Example.wiki None "rules" None true true
                            Example.fresh
          = ((_handle_full_page Example.wiki None "rules" None true true
                                Example.fresh).1, Return tt)) as Hrun
    by (vm_compute; reflexivity).
  assert (refusals (_handle_full_page Example.wiki None "rules" None true true
                                      Example.fresh).1
          = refusals Example.fresh) as Href by (vm_compute; reflexivity).
  assert (Forall (λ r, name r = "rules" ∧ Py.is_token (revision_id r) = true)
                 (history data)) as Hwf by (repeat constructor).
  assert (Sorted (λ newer older, revision_date older ≤ revision_date newer)
                 (history data)) as Hsorted
    by (repeat constructor; vm_compute; discriminate).
  split; [exact (f_equal snd Hrun)|]. split; [exact Href|].
  destruct (full_sync_commits_every_revision Example.wiki None "rules" data
              None true true Example.fresh _ eq_refl eq_refl eq_refl
              Hwf Hsorted eq_refl Hrun Href)
    as (new & Hlog & Hlen & _ & Hdates).
  exists new. split; [exact Hlog|]. split; [exact Hlen|exact Hdates].
Defined.

(** C4 (as the specification has it) fails: the page was saved twice
    with the same text, the second commit is refused for want of a change,
    and the sync ends with one commit for two revisions. *)
Lemma unchanged_revision_is_not_committed :
  ¬ Spec.commits_every_revision Example.twice None "rules" Example.fresh.
Proof.
  intros H.
  assert (_handle_full_page Example.twice None "rules" None true true
                            Example.fresh
          = ((_handle_full_page Example.twice None "rules" None true true
                                Example.fresh).1, Return tt)) as Hrun
    by (vm_compute; reflexivity).
  destruct (H {| settings := Example.open_page;
                 history := [Example.t2; Example.t1] |} _
              eq_refl eq_refl Hrun) as (new & Hlog & Hids).
  apply (f_equal length) in Hlog, Hids.
  rewrite length_app in Hlog. rewrite !length_fmap, !length_reverse in Hids.
  assert (length (log (_handle_full_page Example.twice None "rules" None true
                         true Example.fresh).1) = 2%nat) as Hrun2
    by (vm_compute; reflexivity).
  rewrite Hrun2 in Hlog.
  change (length (log Example.fresh)) with 1%nat in Hlog.
  change (length (history _)) with 2%nat in Hids. lia.
Qed.

Example sync_of_a_page_saved_twice :
  let run := _handle_full_page Example.twice None "rules" None true true
                               Example.fresh in
  run.2 = Return tt ∧ exits run.1 = [1; 0; 0; 0] ∧
  message <$> log run.1 = [Example.id1; "initial commit"].
Proof. vm_compute. repeat split; reflexivity. Qed.

(** C5 (where the script departs from it). A file that exists but that
    no commit touches makes cursor recovery raise: [IndexError] on the
    empty output of [git log], or [CalledProcessError] when the repository
    has no commit at all. *)
Theorem cursor_recovery_raises_without_history (path : string) (s : Store) :
  Py.is_token path = true →
  is_Some (worktree s !! path) →
  Git.last_touching [path] (log s) = None →
  get_last_saved_revision path s
  = (s, Raise (match log s with
               | [] => CalledProcessError
               | _ => IndexError
               end)).
Proof.
  intros Hp [content Hfile] Hnone.
  rewrite get_last_saved_revision_run by done.
  unfold lookup_cursor. rewrite Hfile, Hnone. by destruct (log s).
Qed.

Lemma cursor_recovery_raises_without_history_witness :
  Py.is_token "wiki/rules.md" = true ∧
  is_Some (worktree Example.untracked !! "wiki/rules.md") ∧
  Git.last_touching ["wiki/rules.md"] (log Example.untracked) = None ∧
  get_last_saved_revision "wiki/rules.md" Example.untracked
  = (Example.untracked, Raise IndexError).
Proof.
  assert (is_Some (worktree Example.untracked !! "wiki/rules.md")) as Hfile
    by (exists "draft"; reflexivity).
  split; [reflexivity|]. split; [exact Hfile|]. split; [reflexivity|].
  exact (cursor_recovery_raises_without_history "wiki/rules.md"
           Example.untracked eq_refl Hfile eq_refl).
Defined.

(** C6 (as amended). A refused commit is neither caught, retried nor
    raised: [save_revision] returns normally whatever [git commit]
    answered, a refused commit leaves the log as it was, and the replay
    goes on with the revisions that follow; it never raises. *)
Theorem refused_commit_is_ignored
    (subreddit : Subreddit) (CONFIG_email : option string)
    (revision : Revision) (rest : list Revision) (s : Store) :
  let save := save_revision subreddit CONFIG_email in
  (save revision s).2 = Return tt ∧
  (head (exits (save revision s).1) ≠ Some 0 →
   log (save revision s).1 = log s) ∧
  for_each (revision :: rest) save s = for_each rest save (save revision s).1 ∧
  (for_each (revision :: rest) save s).2 = Return tt.
Proof.
  cbv zeta. rewrite save_revision_run. cbn [fst snd]. repeat split.
  - apply refused_log.
  - cbn [for_each]. unfold bind. by rewrite save_revision_run.
  - by rewrite for_each_save.
Qed.

(** C6 (as the specification has it) fails: the second of three
    revisions repeats the text of the first, its commit is refused, and
    the replay goes on to commit the third and returns. *)
Lemma refusal_does_not_abort :
  ¬ Spec.aborts_on_refusal Example.twice None
      [Example.t1; Example.t2; Example.r3] Example.fresh.
Proof.
  intros H.
  destruct (H [Example.t1] Example.t2 [Example.r3] eq_refl) as [e He].
  - vm_compute. discriminate.
  - vm_compute in He. discriminate He.
Qed.

Example replay_past_a_refused_commit :
  let run := for_each [Example.t1; Example.t2; Example.r3]
                      (save_revision Example.twice None) Example.fresh in
  run.2 = Return tt ∧
  exits run.1 = [0; 0; 1; 0; 0; 0] ∧
  message <$> log run.1 = [Example.id3; Example.id1; "initial commit"].
Proof. vm_compute. repeat split; reflexivity. Qed.

(** C7 (as amended). A save whose commit git takes (return code 0) puts
    exactly one commit on the log, and that commit records the revision:
    its message is the text the script hands over (the reason, a blank
    line and the id when there is a reason, the id alone when there is
    none) as git tidies it, which is that very text for a reason of one
    line that does not end in white space; the message ends with the id
    as last word (the id being one word); the author and committer dates
    are the date of the revision; and the page's file has the revision's
    text in the commit.  A save whose commit git does not take leaves
    the log as it is.  So the commits a replay adds are, in order, those
    of the revisions whose commit git took, one each. *)
Theorem replayed_commits_record_revisions
    (subreddit : Subreddit) (CONFIG_email : option string)
    (revisions : list Revision) (s : Store) :
  let save := save_revision subreddit CONFIG_email in
  let records := λ (c : Commit) (r : Revision),
    message c
    = Git.stripspace
        (if Py.truthy_str (reason r)
         then Py.str_opt (reason r) +:+ String "010" (String "010" "")
              +:+ revision_id r
         else revision_id r) ∧
    (∀ text, reason r = Some text → Git.tidy_line text = true →
             message c = text +:+ String "010" (String "010" "")
                         +:+ revision_id r) ∧
    (reason r = None ∨ reason r = Some "" → message c = revision_id r) ∧
    Py.last_word (message c) = Some (revision_id r) ∧
    author_date c = revision_date r ∧
    committer_date c = revision_date r ∧
    tree c !! page_file subreddit (name r) = Some (content_md r) in
  Forall (λ r, Py.is_token (revision_id r) = true) revisions →
  (∀ r s0, r ∈ revisions →
     (head (exits (save r s0).1) = Some 0 →
      ∃ c, log (save r s0).1 = c :: log s0 ∧ records c r) ∧
     (head (exits (save r s0).1) ≠ Some 0 → log (save r s0).1 = log s0)) ∧
  ∃ new,
    log (for_each revisions save s).1 = new ++ log s ∧
    Forall2 records (reverse new)
            (accepted subreddit CONFIG_email revisions s).
Proof.
  cbv zeta. intros Hids.
  assert (∀ r t, Py.is_token (revision_id r) = true →
            t !! page_file subreddit (name r) = Some (content_md r) →
            let c := commit_of subreddit CONFIG_email r t in
            message c
            = Git.stripspace
                (if Py.truthy_str (reason r)
                 then Py.str_opt (reason r) +:+ String "010" (String "010" "")
                      +:+ revision_id r
                 else revision_id r) ∧
            (∀ text, reason r = Some text → Git.tidy_line text = true →
                     message c = text +:+ String "010" (String "010" "")
                                 +:+ revision_id r) ∧
            (reason r = None ∨ reason r = Some "" →
             message c = revision_id r) ∧
            Py.last_word (message c) = Some (revision_id r) ∧
            author_date c = revision_date r ∧
            committer_date c = revision_date r ∧
            tree c !! page_file subreddit (name r) = Some (content_md r))
    as Hrecords.
  { intros r t Hid Ht. cbv zeta.
    cbn [message author_date committer_date tree commit_of].
    split; [done|]. split; [|split; [|split]].
    - intros text Hreason Htext. unfold message_of. rewrite Hreason.
      assert (Py.truthy_str (Some text) = true) as ->.
      { unfold Git.tidy_line in Htext. cbn [Py.truthy_str].
        by destruct (Py.nonempty text). }
      cbn [Py.str_opt]. by apply GitFacts.stripspace_reason.
    - intros [Hreason|Hreason]; unfold message_of; rewrite Hreason;
        cbn [Py.truthy_str Py.nonempty]; by apply GitFacts.stripspace_token.
    - by rewrite GitFacts.last_word_stripspace, last_word_message.
    - done. }
  assert (∀ r s0,
            head (exits (after_save subreddit CONFIG_email r s0)) = Some 0 →
            log (after_save subreddit CONFIG_email r s0)
            = commit_of subreddit CONFIG_email r
                (staged (after_save subreddit CONFIG_email r s0)) :: log s0)
    as Hlanded.
  { intros r s0. unfold after_save. by repeat case_match. }
  split.
  - intros r s0 Hr. rewrite save_revision_run. cbn [fst]. split.
    + intros Hcode. eexists. split; [by apply Hlanded|].
      apply Hrecords.
      * rewrite Forall_forall in Hids. by apply Hids.
      * by rewrite staged_after_save, lookup_insert_eq.
    + apply refused_log.
  - revert s. induction Hids as [|r revs Hid _ IH]; intros s.
    { by exists []. }
    cbn [for_each accepted]. unfold bind. rewrite save_revision_run.
    cbn [fst]. destruct (IH (after_save subreddit CONFIG_email r s))
      as (new & Hlog & Hall).
    rewrite Hlog. case_decide as Hcode.
    + exists (new ++ [commit_of subreddit CONFIG_email r
                        (staged (after_save subreddit CONFIG_email r s))]).
      rewrite (Hlanded r s Hcode). split; [by rewrite <- (assoc_L (++))|].
      rewrite reverse_app. cbn [reverse app]. constructor; [|done].
      apply Hrecords; [done|].
      by rewrite staged_after_save, lookup_insert_eq.
    + exists new. by rewrite (refused_log _ _ r s Hcode).
Qed.

Lemma replayed_commits_record_revisions_witness :
  let save := save_revision Example.wiki None in
  Forall (λ r, Py.is_token (revision_id r) = true)
         [Example.r1; Example.r2; Example.r3] ∧
  head (exits (save Example.r2 Example.fresh).1) = Some 0 ∧
  ∃ c,
    log (save Example.r2 Example.fresh).1 = c :: log Example.fresh ∧
    message c = "fix typo" +:+ String "010" (String "010" "") +:+ Example.id2 ∧
    author_date c = 1600000200 ∧ committer_date c = 1600000200.
Proof.
  cbv zeta.
  assert (Forall (λ r, Py.is_token (revision_id r) = true)
                 [Example.r1; Example.r2; Example.r3]) as Hids
    by (repeat constructor).
  assert (head (exits (save_revision Example.wiki None Example.r2
                         Example.fresh).1) = Some 0) as Hcode
    by (vm_compute; reflexivity).
  split; [exact Hids|]. split; [exact Hcode|].
  destruct (replayed_commits_record_revisions Example.wiki None _
              Example.fresh Hids) as [Hsave _].
  destruct (Hsave Example.r2 Example.fresh) as [Htaken _].
  { right. left. }
  destruct (Htaken Hcode) as (c & Hlog & _ & Htidy & _ & _ & Hauthor & Hcommitter & _).
  exists c. split; [exact Hlog|]. split.
  - apply Htidy; reflexivity.
  - split; [exact Hauthor|exact Hcommitter].
Defined.

(** C7 (as the specification has it) fails: git tidies the message it
    is given, and a reason that ends in white space is not kept as it
    is; and an id of two words is not the last word of the message. *)
Lemma untidy_reason_is_tidied :
  ¬ Spec.message_is_reason_and_id Example.wiki None Sample.untidy
      Example.fresh ∧
  ¬ Spec.message_is_reason_and_id Example.wiki None Sample.loose
      Example.fresh.
Proof.
  split.
  - intros H.
    destruct (H (commit_of Example.wiki None Sample.untidy
                   (staged (save_revision Example.wiki None Sample.untidy
                              Example.fresh).1))) as [Hmessage _].
    + vm_compute. reflexivity.
    + vm_compute in Hmessage. discriminate Hmessage.
  - intros H.
    destruct (H (commit_of Example.wiki None Sample.loose
                   (staged (save_revision Example.wiki None Sample.loose
                              Example.fresh).1))) as (_ & Hword & _).
    + vm_compute. reflexivity.
    + vm_compute in Hword. discriminate Hword.
Qed.

Example commit_of_an_untidy_reason :
  let s' := (save_revision Example.wiki None Sample.untidy Example.fresh).1 in
  head (exits s') = Some 0 ∧
  message <$> head (log s')
  = Some ("typo" +:+ String "010" (String "010" "") +:+ Example.id1) ∧
  Py.last_word <$> (message <$> head (log s')) = Some (Some Example.id1).
Proof. vm_compute. repeat split; reflexivity. Qed.

Example replay_of_three_revisions :
  let run := for_each [Example.r1; Example.r2; Example.r3]
                      (save_revision Example.wiki None) Example.fresh in
  accepted Example.wiki None [Example.r1; Example.r2; Example.r3]
           Example.fresh
  = [Example.r1; Example.r2; Example.r3] ∧
  message <$> log run.1
  = [Example.id3;
     "fix typo" +:+ String "010" (String "010" "") +:+ Example.id2;
     Example.id1; "initial commit"] ∧
  author_date <$> log run.1
  = [1600000300; 1600000200; 1600000100; 1500000000].
Proof. vm_compute. repeat split; reflexivity. Qed.




Example recent_mode_skips_a_quiet_page :
  main Example.quiet None None None false true true Example.fresh
  = (Example.fresh, Return tt) ∧
  message <$> log (main Example.quiet None None None true true true
                        Example.fresh).1
  = [Example.id1; "initial commit"].
Proof. vm_compute. split; reflexivity. Qed.

(** The order of the checks shows on a page the API does not hold: the
    feed names the page [faq], which is on the ignore-list; recent mode
    asks for its settings first and raises, and full mode, given the page
    by name, skips it and goes on to commit the page [rules]. *)
Example ignored_page_the_api_does_not_hold :
  main Sample.gone None None (Some ["faq"]) false true true Example.fresh
  = (Example.fresh, Raise APIException) ∧
  (main Sample.gone None (Some ["faq"; "rules"]) (Some ["faq"]) true true true
        Example.fresh).2 = Return tt ∧
  length (log (main Sample.gone None (Some ["faq"; "rules"]) (Some ["faq"])
                    true true true Example.fresh).1) = 4%nat.
Proof. vm_compute. repeat split; reflexivity. Qed.
(** C9 (where the script departs from it). With no email override, a
    commit of [add_commit] for a present author has the author as author
    and committer name and the author, [@], the wiki's name and [.reddit]
    as author and committer email.  For an absent author (a deleted
    account) the two names fall back to the label [[deleted]], and the
    two emails do not: they are built from the missing value as Python
    prints it, [None@], the wiki's name and [.reddit]. *)
Theorem commit_identity
    (subreddit : Subreddit) (CONFIG_email : option string)
    (file_path : string) (commit_timestamp : Z)
    (commit_author : option string) (commit_message : string)
    (s : Store) (c : Commit) :
  Py.truthy_str CONFIG_email = false →
  log (add_commit subreddit CONFIG_email file_path commit_timestamp
                  commit_author commit_message s).1 = c :: log s →
  committer_name c = author_name c ∧
  committer_email c = author_email c ∧
  (∀ author, commit_author = Some author → author ≠ "" →
             author_name c = author ∧
             author_email c
             = author +:+ "@" +:+ display_name subreddit +:+ ".reddit") ∧
  (commit_author = None →
   author_name c = "[deleted]" ∧
   author_email c = "None@" +:+ display_name subreddit +:+ ".reddit" ∧
   author_email c ≠ "[deleted]@" +:+ display_name subreddit +:+ ".reddit").
Proof.
  intros Hemail. unfold add_commit, bind, subprocess_run, ret, Git.commit.
  rewrite Hemail.
  destruct (Git.add file_path s) as [s1 code] eqn:Hadd.
  assert (log s1 = log s) as Hlog1.
  { unfold Git.add in Hadd. by destruct (worktree s !! file_path); simplify_eq. }
  cbn [worktree staged log exits GIT_AUTHOR_DATE GIT_COMMITTER_DATE].
  assert (∀ l, c :: l ≠ l) as Hfresh.
  { intros l Hl. apply (f_equal length) in Hl. simpl in Hl. lia. }
  destruct (negb _).
  { cbn. rewrite Hlog1. intros Heq. symmetry in Heq. by apply Hfresh in Heq. }
  destruct (decide _).
  { cbn. rewrite Hlog1. intros Heq. symmetry in Heq. by apply Hfresh in Heq. }
  destruct (negb _).
  { cbn. rewrite Hlog1. intros Heq. symmetry in Heq. by apply Hfresh in Heq. }
  cbn [fst log]. rewrite Hlog1. intros [= <-].
  cbn [author_email committer_email author_name committer_name].
  split; [done|]. split; [done|]. split.
  - intros author -> Hne. by destruct author.
  - intros ->. cbn [Py.truthy_str Py.str_opt]. done.
Qed.

Lemma commit_identity_witness :
  let s' := (add_commit Example.wiki None "wiki/rules.md" 1600000200 None
                        "note" Example.untracked).1 in
  Py.truthy_str None = false ∧
  author_name <$> head (log s') = Some "[deleted]" ∧
  author_email <$> head (log s') = Some "None@wiki.reddit" ∧
  committer_email <$> head (log s') = Some "None@wiki.reddit".
Proof.
  cbv zeta. split; [reflexivity|].
  destruct (log (add_commit Example.wiki None "wiki/rules.md" 1600000200 None
                   "note" Example.untracked).1) as [|c l] eqn:Hlog;
    [vm_compute in Hlog; discriminate Hlog|].
  assert (l = log Example.untracked) as ->
    by (vm_compute in Hlog; injection Hlog as _ <-; reflexivity).
  destruct (commit_identity Example.wiki None "wiki/rules.md" 1600000200 None
              "note" Example.untracked c eq_refl Hlog)
    as (_ & Hcommitter & _ & Habsent).
  destruct (Habsent eq_refl) as (Hname & Hmail & _).
  cbn [head fmap option_fmap option_map].
  rewrite Hcommitter, Hname, Hmail. repeat split; reflexivity.
Defined.

(** The same through [save_revision], for the second revision of the
    example, whose author is gone. *)
Example commit_of_a_deleted_account :
  let s' := (save_revision Example.wiki None Example.r2 Example.fresh).1 in
  revision_by Example.r2 = None ∧
  (λ c, (author_name c, author_email c, committer_name c, committer_email c))
    <$> head (log s')
  = Some ("[deleted]", "None@wiki.reddit", "[deleted]", "None@wiki.reddit").
Proof. vm_compute. split; reflexivity. Qed.

(** C10. An id that cursor recovery returns is in canonical form: 36
    characters, lowercase digits, hyphens in their places.  The diff
    that follows compares the ids of the source with it as strings, so it
    stops only at a revision whose id is canonical, and returns the whole
    history when no id of the source is.  This holds whatever the last
    word of the newest commit for the file looks like: a word that
    [uuid.UUID] reads comes back as [str] prints it, so a canonical id
    written in braces, as a URN, without hyphens or in capital digits
    comes back as the canonical id. *)
Theorem recovered_cursor_is_canonical
    (subreddit : Subreddit) (path : string) (s : Store) :
  (∀ cursor s',
     get_last_saved_revision path s = (s', Return (Some cursor)) →
     s' = s ∧ Uuid.canonical cursor = true ∧
     ∀ page d,
       wiki_pages subreddit !! page = Some d →
       ((Forall (λ r, revision_id r ≠ cursor) (history d) ∧
         get_recent_revisions subreddit page (Some cursor) s
         = (s, Return (reverse (history d)))) ∨
        (∃ newer r older,
           history d = newer ++ r :: older ∧
           revision_id r = cursor ∧
           Uuid.canonical (revision_id r) = true ∧
           get_recent_revisions subreddit page (Some cursor) s
           = (s, Return (reverse newer)))) ∧
       (Forall (λ r, Uuid.canonical (revision_id r) = false) (history d) →
        get_recent_revisions subreddit page (Some cursor) s
        = (s, Return (reverse (history d))))) ∧
  (∀ c word,
     is_Some (worktree s !! path) →
     Git.last_touching (Py.split path) (log s) = Some c →
     Py.last_word (message c) = Some word →
     get_last_saved_revision path s
     = (s, Return (Uuid.str <$> Uuid.UUID word)) ∧
     (∀ n, Uuid.UUID word = Some n →
           Uuid.canonical (Uuid.str n) = true ∧
           Uuid.UUID (Uuid.str n) = Some n) ∧
     (∀ id, Uuid.canonical id = true →
            word = id ∨ word ∈ Uuid.spellings id →
            get_last_saved_revision path s = (s, Return (Some id)))).
Proof.
  split.
  - intros cursor s' Hrun.
    pose proof (get_last_saved_revision_reads path s) as Hreads.
    rewrite Hrun in Hreads. cbn in Hreads. subst s'.
    apply recovered_is_printed in Hrun as (n & Hn & ->).
    pose proof (UuidRoundTrip.str_canonical n Hn) as Hcan.
    split; [done|]. split; [done|].
    intros page d Hd. rewrite (get_recent_revisions_run _ page d) by done.
    unfold newer_than. split.
    + destruct (first_with_id (Uuid.str n) (history d))
        as [Hh|(newer & r & older & Hsplit & Hr & Hnewer)].
      * left. split; [done|]. rewrite walk_all by done.
        by rewrite (right_id_L [] (++)).
      * right. exists newer, r, older. rewrite Hr.
        split; [done|]. split; [done|]. split; [done|].
        rewrite Hsplit, walk_stop by done.
        by rewrite (right_id_L [] (++)).
    + intros Hh. rewrite walk_all; [by rewrite (right_id_L [] (++))|].
      eapply Forall_impl; [exact Hh|]. intros r Hr Heq. cbn in Hr.
      rewrite Heq in Hr. congruence.
  - intros c word [content Hfile] Hc Hword.
    assert (get_last_saved_revision path s
            = (s, Return (Uuid.str <$> Uuid.UUID word))) as Hrun.
    { rewrite get_last_saved_revision_words, Hfile, Hc.
      unfold cursor_of_message. rewrite Hword.
      destruct (log s); [done|]. reflexivity. }
    split; [done|]. split.
    + intros n Hn.
      pose proof (UuidRoundTrip.UUID_range _ _ Hn) as Hrange.
      split; [by apply UuidRoundTrip.str_canonical|].
      by apply SpellingFacts.UUID_str.
    + intros id Hid Hw. rewrite Hrun.
      destruct (UuidRoundTrip.UUID_canonical id Hid) as (n & Hn & Hstr).
      assert (Uuid.UUID word = Some n) as ->.
      { destruct Hw as [->|Hw]; [done|].
        by rewrite (SpellingFacts.UUID_spellings id). }
      cbn. by rewrite Hstr.
Qed.

Lemma recovered_cursor_is_canonical_witness :
  get_last_saved_revision "wiki/rules.md" Sample.respelled
  = (Sample.respelled, Return (Some "0000000a-0000-4000-8000-0000000000f1")) ∧
  Uuid.canonical "0000000a-0000-4000-8000-0000000000f1" = true ∧
  get_recent_revisions Sample.capitals "rules"
    (Some "0000000a-0000-4000-8000-0000000000f1") Sample.respelled
  = (Sample.respelled, Return [Sample.u1; Sample.u2]).
Proof.
  assert (is_Some (worktree Sample.respelled !! "wiki/rules.md")) as Hfile
    by (vm_compute; eauto).
  assert (∃ c, Git.last_touching (Py.split "wiki/rules.md")
                 (log Sample.respelled) = Some c ∧
               Py.last_word (message c)
               = Some "{0000000A-0000-4000-8000-0000000000F1}")
    as (c & Hc & Hword) by (eexists; split; vm_compute; reflexivity).
  assert ("{0000000A-0000-4000-8000-0000000000F1}"
          ∈ Uuid.spellings "0000000a-0000-4000-8000-0000000000f1") as Hin
    by (vm_compute; do 4 right; left).
  assert (Uuid.canonical "0000000a-0000-4000-8000-0000000000f1" = true)
    as Hcan by (vm_compute; reflexivity).
  assert (wiki_pages Sample.capitals !! "rules"
          = Some {| settings := Example.open_page;
                    history := [Sample.u2; Sample.u1] |}) as Hd
    by (vm_compute; reflexivity).
  pose proof (recovered_cursor_is_canonical Sample.capitals "wiki/rules.md"
                Sample.respelled) as [Hback Hword'].
  destruct (Hword' c _ Hfile Hc Hword) as (_ & _ & Hid).
  pose proof (Hid _ Hcan (or_intror Hin)) as Hrun.
  destruct (Hback _ _ Hrun) as (_ & Hcanon & Hdiff).
  destruct (Hdiff _ _ Hd) as [_ Hall].
  split; [exact Hrun|]. split; [exact Hcanon|].
  apply Hall. vm_compute. repeat constructor.
Defined.

(** The last word need not be canonical for an id to come back. *)
Example recovered_from_other_spelling :
  cursor_of_message "edit {0000000A-0000-4000-8000-00000000000B}"
  = Some "0000000a-0000-4000-8000-00000000000b".
Proof. vm_compute. reflexivity. Qed.

(** An id of the source in capital digits is never the cursor: after a
    sync of such a page the id that comes back is the lowercase one, and
    the diff against it is the whole history. *)
Example capital_ids_never_match :
  let s := (_handle_full_page Sample.capitals None "rules" None true true
              Example.fresh).1 in
  get_last_saved_revision "wiki/rules.md" s
  = (s, Return (Some "0000000a-0000-4000-8000-0000000000f2")) ∧
  get_recent_revisions Sample.capitals "rules"
    (Some "0000000a-0000-4000-8000-0000000000f2") s
  = (s, Return [Sample.u1; Sample.u2]).
Proof. vm_compute. split; reflexivity. Qed.

(** * More about the handlers, the runs and the entry point *)

(** X1. A cursor that is the id of no revision of the history gives the
    same diff as no cursor: the whole history, oldest first. *)
Theorem unknown_cursor_means_whole_history
    (subreddit : Subreddit) (page : string) (d : PageData)
    (last_revision : string) (s : Store) :
  wiki_pages subreddit !! page = Some d →
  Forall (λ r, revision_id r ≠ last_revision) (history d) →
  get_recent_revisions subreddit page (Some last_revision) s
  = (s, Return (reverse (history d))) ∧
  get_recent_revisions subreddit page (Some last_revision) s
  = get_recent_revisions subreddit page None s.
Proof.
  intros Hd Hmiss.
  rewrite !(get_recent_revisions_run _ page d) by done.
  unfold newer_than. rewrite walk_all by done.
  by rewrite (right_id_L [] (++)).
Qed.

Lemma unknown_cursor_means_whole_history_witness :
  get_recent_revisions Example.wiki "rules"
    (Some "ffffffff-0000-4000-8000-000000000000") Example.fresh
  = (Example.fresh, Return [Example.r1; Example.r2; Example.r3]).
Proof.
  refine (proj1 (unknown_cursor_means_whole_history Example.wiki "rules" _
                   "ffffffff-0000-4000-8000-000000000000" Example.fresh
                   eq_refl _)).
  repeat constructor; vm_compute; discriminate.
Defined.

(** X2. In recent mode, when the cursor is the id of a revision of the
    window, the handler replays exactly the revisions that come after the
    first such revision, in their order, and does not request the
    history of the page. *)
Theorem window_hit_replays_what_follows
    (subreddit : Subreddit) (CONFIG_email : option string)
    (first : Revision) (rest before after : list Revision) (r : Revision)
    (s : Store) :
  get_last_saved_revision (page_file subreddit (name first)) s
  = (s, Return (Some (revision_id r))) →
  first :: rest = before ++ r :: after →
  Forall (λ x, revision_id x ≠ revision_id r) before →
  _handle_revisions_for_page subreddit CONFIG_email (first :: rest) s
  = for_each after (save_revision subreddit CONFIG_email) s.
Proof.
  intros Hcursor Hw Hbefore.
  unfold _handle_revisions_for_page. unfold bind at 1. rewrite Hcursor.
  by rewrite Hw, revisions_after_stop.
Qed.

Lemma window_hit_replays_what_follows_witness :
  let s := (for_each [Example.r1; Example.r2]
                     (save_revision Example.wiki None) Example.fresh).1 in
  get_last_saved_revision "wiki/rules.md" s = (s, Return (Some Example.id2)) ∧
  _handle_revisions_for_page Example.wiki None [Example.r2; Example.r3] s
  = for_each [Example.r3] (save_revision Example.wiki None) s.
Proof.
  cbv zeta.
  assert (get_last_saved_revision (page_file Example.wiki (name Example.r2))
            (for_each [Example.r1; Example.r2]
                      (save_revision Example.wiki None) Example.fresh).1
          = ((for_each [Example.r1; Example.r2]
                       (save_revision Example.wiki None) Example.fresh).1,
             Return (Some (revision_id Example.r2)))) as Hcursor
    by (vm_compute; reflexivity).
  split; [exact Hcursor|].
  exact (window_hit_replays_what_follows Example.wiki None Example.r2
           [Example.r3] [] [Example.r3] Example.r2 _ Hcursor eq_refl
           (Forall_nil_2 _)).
Defined.

(** X3. Saving and recovering agree: when nothing else is staged and
    git commits the revision, cursor recovery for the file of its page
    gives back the id of the revision, provided the id is a canonical UUID
    and the path is one word. *)
Theorem saved_revision_is_the_cursor
    (subreddit : Subreddit) (CONFIG_email : option string)
    (revision : Revision) (s : Store) :
  let s' := (save_revision subreddit CONFIG_email revision s).1 in
  clean s →
  Py.is_token (page_file subreddit (name revision)) = true →
  Uuid.canonical (revision_id revision) = true →
  head (exits s') = Some 0 →
  get_last_saved_revision (page_file subreddit (name revision)) s'
  = (s', Return (Some (revision_id revision))).
Proof.
  cbv zeta. rewrite save_revision_run. cbn [fst].
  intros Hclean Hp Hid Hcode%committed_iff_not_refused.
  rewrite get_last_saved_revision_run by done.
  rewrite lookup_cursor_landed by done.
  by rewrite cursor_of_message_canonical.
Qed.

Lemma saved_revision_is_the_cursor_witness :
  let s' := (save_revision Example.wiki None Example.r2 Example.fresh).1 in
  clean Example.fresh ∧
  head (exits s') = Some 0 ∧
  get_last_saved_revision "wiki/rules.md" s' = (s', Return (Some Example.id2)).
Proof.
  cbv zeta. split; [reflexivity|]. split; [reflexivity|].
  exact (saved_revision_is_the_cursor Example.wiki None Example.r2
           Example.fresh eq_refl eq_refl eq_refl eq_refl).
Defined.

(** X4. Saving a revision of one page does not move the cursor of
    another: when nothing else is staged and git commits the revision,
    what cursor recovery returned for the file of a different page, it
    returns afterwards. *)
Theorem saving_leaves_other_cursors
    (subreddit : Subreddit) (CONFIG_email : option string)
    (revision : Revision) (page : string) (cursor : option string)
    (s : Store) :
  let s' := (save_revision subreddit CONFIG_email revision s).1 in
  clean s →
  Py.is_token (page_file subreddit page) = true →
  page ≠ name revision →
  head (exits s') = Some 0 →
  get_last_saved_revision (page_file subreddit page) s = (s, Return cursor) →
  get_last_saved_revision (page_file subreddit page) s' = (s', Return cursor).
Proof.
  cbv zeta. rewrite save_revision_run. cbn [fst].
  intros Hclean Hp Hne Hcode%committed_iff_not_refused.
  rewrite !get_last_saved_revision_run by done.
  intros [= Hc]. f_equal. apply lookup_cursor_other; try done.
  by intros ?%page_file_inj.
Qed.

Lemma saving_leaves_other_cursors_witness :
  let s := (save_revision Example.wiki None Example.r1 Example.fresh).1 in
  let other := {| revision_id := Example.id3; name := "faq";
                  revision_by := None; revision_date := 1600000400;
                  reason := None; content_md := "q" |} in
  let s' := (save_revision Example.wiki None other s).1 in
  clean s ∧ head (exits s') = Some 0 ∧
  get_last_saved_revision "wiki/rules.md" s' = (s', Return (Some Example.id1)).
Proof.
  cbv zeta. split; [reflexivity|]. split; [reflexivity|].
  refine (saving_leaves_other_cursors Example.wiki None _ "rules" _ _
            _ _ _ _ _).
  - vm_compute. reflexivity.
  - reflexivity.
  - vm_compute. discriminate.
  - reflexivity.
  - vm_compute. reflexivity.
Defined.

(** X5. After a replay for a page the file of the page holds the text of
    the last revision replayed, in the working tree and in the staging
    area, whether git took the commits or refused them. *)
Theorem replay_leaves_the_last_text
    (subreddit : Subreddit) (CONFIG_email : option string)
    (page : string) (revisions : list Revision) (newest : Revision)
    (s : Store) :
  let s' := (for_each revisions (save_revision subreddit CONFIG_email) s).1 in
  Forall (λ r, name r = page) revisions →
  last revisions = Some newest →
  worktree s' !! page_file subreddit page = Some (content_md newest) ∧
  staged s' !! page_file subreddit page = Some (content_md newest).
Proof.
  cbv zeta. rewrite for_each_save. cbn [fst]. apply worktree_after_replay.
Qed.

Lemma replay_leaves_the_last_text_witness :
  worktree (for_each [Example.t1; Example.t2]
                     (save_revision Example.twice None) Example.fresh).1
    !! "wiki/rules.md" = Some "same".
Proof.
  refine (proj1 (replay_leaves_the_last_text Example.twice None "rules"
                   [Example.t1; Example.t2] Example.t2 Example.fresh _ eq_refl)).
  repeat constructor.
Defined.

(** X6. A commit for the page's file whose message does not end with a
    UUID makes the page start over: the full handler replays the whole
    history, oldest first, on top of what the log has. *)
Theorem foreign_commit_restarts_the_page
    (subreddit : Subreddit) (CONFIG_email : option string)
    (page : string) (d : PageData) (c : Commit) (s : Store) :
  wiki_pages subreddit !! page = Some d →
  Py.is_token (page_file subreddit page) = true →
  is_Some (worktree s !! page_file subreddit page) →
  Git.last_touching [page_file subreddit page] (log s) = Some c →
  Uuid.UUID (default "+0000" (Py.last_word (message c))) = None →
  _handle_full_page subreddit CONFIG_email page None true true s
  = for_each (reverse (history d)) (save_revision subreddit CONFIG_email) s.
Proof.
  intros Hd Hp Hfile Hc Hword.
  rewrite (full_page_run _ _ page d) by done.
  rewrite for_each_save.
  pose proof (cursor_none_for_foreign_message _ s c Hp Hfile Hc Hword) as Hnone.
  rewrite get_last_saved_revision_run in Hnone by done.
  injection Hnone as ->. done.
Qed.

Lemma foreign_commit_restarts_the_page_witness :
  is_Some (worktree Sample.edited !! "wiki/rules.md") ∧
  Git.last_touching ["wiki/rules.md"] (log Sample.edited)
  = Some Sample.by_hand ∧
  _handle_full_page Example.wiki None "rules" None true true Sample.edited
  = for_each [Example.r1; Example.r2; Example.r3]
             (save_revision Example.wiki None) Sample.edited.
Proof.
  assert (is_Some (worktree Sample.edited !! "wiki/rules.md")) as Hfile
    by (exists "by hand"; reflexivity).
  split; [exact Hfile|]. split; [reflexivity|].
  exact (foreign_commit_restarts_the_page Example.wiki None "rules" _
           Sample.by_hand Sample.edited eq_refl eq_refl Hfile eq_refl eq_refl).
Defined.

(** X7. A run of [main] only adds to the repository: whatever the
    arguments, and whether it returns or raises, the log afterwards is
    the log before with commits put on top, and a file that is not the
    file of a wiki page is left as it was, in the working tree and in the
    staging area. *)
Theorem main_only_adds
    (subreddit : Subreddit) (CONFIG_email : option string)
    (page_list ignore_list : option (list string))
    (include_full include_mod include_unlisted : bool) (s : Store) :
  let s' := (main subreddit CONFIG_email page_list ignore_list include_full
                  include_mod include_unlisted s).1 in
  (∃ new, log s' = new ++ log s) ∧
  ∀ path, (∀ page, path ≠ page_file subreddit page) →
          worktree s' !! path = worktree s !! path ∧
          staged s' !! path = staged s !! path.
Proof.
  cbv zeta.
  destruct (main_state subreddit CONFIG_email page_list ignore_list
              include_full include_mod include_unlisted s) as (revs & -> & _).
  split.
  - destruct (log_after_replay_kept subreddit CONFIG_email revs s)
      as (new & _ & Hlog & _). by exists new.
  - intros path Hpath. by apply after_replay_other_files.
Qed.

(** X8. Every commit a run of [main] adds records a revision the source
    serves, one of the feed or of the history of a page: it has the
    message, the dates and the names [save_revision] gives that revision.
    No commit is made up, and none is taken from the log. *)
Theorem main_commits_only_revisions
    (subreddit : Subreddit) (CONFIG_email : option string)
    (page_list ignore_list : option (list string))
    (include_full include_mod include_unlisted : bool) (s : Store) :
  let s' := (main subreddit CONFIG_email page_list ignore_list include_full
                  include_mod include_unlisted s).1 in
  ∃ new, log s' = new ++ log s ∧
    Forall (λ c, ∃ r,
      (r ∈ wiki_recent subreddit ∨
       ∃ page d, wiki_pages subreddit !! page = Some d ∧ r ∈ history d) ∧
      c = commit_of subreddit CONFIG_email r (tree c)) new.
Proof.
  cbv zeta.
  destruct (main_state subreddit CONFIG_email page_list ignore_list
              include_full include_mod include_unlisted s)
    as (revs & -> & Hserved).
  destruct (log_after_replay_kept subreddit CONFIG_email revs s)
    as (new & kept & Hlog & Hsub & Hnew).
  exists new. split; [done|].
  apply Forall_forall. intros c Hc.
  rewrite <- elem_of_reverse in Hc.
  apply list_elem_of_lookup in Hc as [i Hi].
  destruct (Forall2_lookup_l _ _ _ _ _ Hnew Hi) as (r & Hr & Hcr).
  exists r. split; [|done].
  apply list_elem_of_lookup_2 in Hr.
  rewrite Forall_forall in Hserved. apply Hserved.
  by eapply elem_of_sublist.
Qed.

(** X9. When CONFIG holds a non-empty email, every commit a run of [main]
    adds has it as author and committer email, whoever wrote the
    revision. *)
Theorem configured_email_is_used
    (subreddit : Subreddit) (email : string)
    (page_list ignore_list : option (list string))
    (include_full include_mod include_unlisted : bool) (s : Store) :
  let s' := (main subreddit (Some email) page_list ignore_list include_full
                  include_mod include_unlisted s).1 in
  Py.nonempty email = true →
  ∃ new, log s' = new ++ log s ∧
         Forall (λ c, author_email c = email ∧ committer_email c = email) new.
Proof.
  cbv zeta. intros Hemail.
  destruct (main_state subreddit (Some email) page_list ignore_list
              include_full include_mod include_unlisted s)
    as (revs & -> & _).
  destruct (log_after_replay_kept subreddit (Some email) revs s)
    as (new & kept & Hlog & _ & Hnew).
  exists new. split; [done|].
  apply Forall_forall. intros c Hc.
  rewrite <- elem_of_reverse in Hc.
  apply list_elem_of_lookup in Hc as [i Hi].
  destruct (Forall2_lookup_l _ _ _ _ _ Hnew Hi) as (r & _ & ->).
  unfold commit_of, email_of. cbn. by rewrite Hemail.
Qed.

Lemma configured_email_is_used_witness :
  Py.nonempty "bot@example.org" = true ∧
  ∃ new,
    log (main Example.wiki (Some "bot@example.org") None None true false false
              Example.fresh).1 = new ++ log Example.fresh ∧
    Forall (λ c, author_email c = "bot@example.org" ∧
                 committer_email c = "bot@example.org") new.
Proof.
  split; [reflexivity|].
  exact (configured_email_is_used Example.wiki "bot@example.org" None None
           true false false Example.fresh eq_refl).
Defined.

(** X10. The dict that [main] builds from the feed holds a page exactly
    when the feed has a revision of it, holds it once, and holds with it
    the revisions the feed has for that page and no other, in the order
    of the list it is built from. *)
Theorem feed_is_grouped_by_page (oldest_first : list Revision) :
  NoDup (revisions_by_page oldest_first).*1 ∧
  (∀ page window,
     (page, window) ∈ revisions_by_page oldest_first ↔
     window = filter (λ r, name r = page) oldest_first ∧ window ≠ []) ∧
  (∀ page, page ∈ (revisions_by_page oldest_first).*1 ↔
           ∃ r, r ∈ oldest_first ∧ name r = page).
Proof.
  destruct (revisions_by_page_spec oldest_first) as (Hnd & Hw & Hcov).
  split; [done|].
  assert (∀ page, page ∈ (revisions_by_page oldest_first).*1 ↔
                  ∃ r, r ∈ oldest_first ∧ name r = page) as Hkeys.
  { intros page. split.
    - intros ([k w] & -> & Hin)%list_elem_of_fmap. cbn.
      destruct (Hw _ _ Hin) as [Heq Hne].
      destruct w as [|r w]; [done|]. exists r.
      assert (r ∈ filter (λ x, name x = k) oldest_first) as Hr
        by (rewrite <- Heq; left).
      by apply list_elem_of_filter in Hr as [? ?].
    - intros (r & Hr & <-). by apply Hcov. }
  split; [|done].
  intros page window. split; [apply Hw|].
  intros [-> Hne].
  destruct (filter (λ r, name r = page) oldest_first) as [|r w] eqn:Hf; [done|].
  assert (page ∈ (revisions_by_page oldest_first).*1) as Hin.
  { apply Hkeys. exists r.
    assert (r ∈ filter (λ x, name x = page) oldest_first) as Hr
      by (rewrite Hf; left).
    by apply list_elem_of_filter in Hr as [? ?]. }
  apply list_elem_of_fmap in Hin as ([k w'] & -> & Hin). cbn in *.
  destruct (Hw _ _ Hin) as [Heq _]. by rewrite Heq, Hf in Hin.
Qed.

(** X11. In full mode ignoring a page is the same as leaving it out: the
    run with an ignore-list is the run of the page handler, without an
    ignore-list, over the candidates that are not on the list, in their
    order.  An ignored page is neither asked of the API nor looked up in
    the repository. *)
Theorem ignored_pages_are_left_out
    (subreddit : Subreddit) (CONFIG_email : option string)
    (page_list ignore_list : option (list string))
    (include_mod include_unlisted : bool) (s : Store) :
  main subreddit CONFIG_email page_list ignore_list true
       include_mod include_unlisted s
  = for_each (filter (λ page, page ∉ default [] ignore_list)
                     (candidates subreddit page_list true))
             (λ page, _handle_full_page subreddit CONFIG_email page None
                                        include_mod include_unlisted) s.
Proof.
  rewrite main_full by done.
  rewrite (for_each_ext _
             (λ page, if negb (bool_decide (page ∈ default [] ignore_list))
                      then _handle_full_page subreddit CONFIG_email page None
                             include_mod include_unlisted
                      else ret tt)).
  - rewrite for_each_filter. f_equal. apply list_filter_iff. intros page.
    rewrite negb_true_iff, bool_decide_eq_false. done.
  - intros page s0 _. unfold full_step, _handle_full_page.
    rewrite truthy_elem. cbn [default from_option id Py.truthy_list andb].
    by destruct (bool_decide _).
Qed.

(** X12. In recent mode the settings of every page of the feed are
    requested before any filter is looked at: when the feed has a
    revision of a page the API does not hold, the run raises, also when
    that page is on the ignore-list or not on the allow-list. *)
Theorem recent_mode_asks_for_every_feed_page
    (subreddit : Subreddit) (CONFIG_email : option string)
    (page_list ignore_list : option (list string))
    (include_mod include_unlisted : bool) (r : Revision) (s : Store) :
  r ∈ wiki_recent subreddit →
  wiki_pages subreddit !! name r = None →
  ∃ e, (main subreddit CONFIG_email page_list ignore_list false
             include_mod include_unlisted s).2 = Raise e.
Proof.
  intros Hr Hd. rewrite main_recent by done.
  destruct (revisions_by_page_spec (reverse (wiki_recent subreddit)))
    as (_ & _ & Hcov).
  specialize (Hcov r). rewrite elem_of_reverse in Hcov.
  apply Hcov, list_elem_of_fmap in Hr as ([page w] & Hpage & Hin).
  cbn in Hpage. subst page.
  apply (for_each_raises _ _ (name r, w)); [done|].
  intros s0. exists APIException.
  by rewrite recent_step_unknown_raises.
Qed.

Lemma recent_mode_asks_for_every_feed_page_witness :
  ∃ e, (main Sample.stray None (Some ["rules"]) (Some ["faq"]) false
             true true Example.fresh).2 = Raise e.
Proof.
  refine (recent_mode_asks_for_every_feed_page Sample.stray None
            (Some ["rules"]) (Some ["faq"]) true true Sample.q1
            Example.fresh _ eq_refl).
  left.
Defined.

(** X13. In full mode a candidate page that the API does not hold and
    that is not ignored ends the run with an exception. *)
Theorem unknown_page_ends_the_full_sync
    (subreddit : Subreddit) (CONFIG_email : option string)
    (page_list ignore_list : option (list string))
    (include_mod include_unlisted : bool) (page : string) (s : Store) :
  page ∈ candidates subreddit page_list true →
  page ∉ default [] ignore_list →
  wiki_pages subreddit !! page = None →
  ∃ e, (main subreddit CONFIG_email page_list ignore_list true
             include_mod include_unlisted s).2 = Raise e.
Proof.
  intros Hpage Hign Hd. rewrite main_full by done.
  apply (for_each_raises _ _ page); [done|].
  intros s0. unfold full_step. by apply full_page_unknown_raises.
Qed.

Lemma unknown_page_ends_the_full_sync_witness :
  ∃ e, (main Example.wiki None (Some ["rules"; "nowhere"]) None true
             false false Example.fresh).2 = Raise e.
Proof.
  refine (unknown_page_ends_the_full_sync Example.wiki None
            (Some ["rules"; "nowhere"]) None false false "nowhere"
            Example.fresh _ _ eq_refl).
  - right. left.
  - apply not_elem_of_nil.
Defined.

(** X14. The page list of the command line is cut at the commas and
    nowhere else: for an argument that is neither empty nor the star, the
    list handed to [main] is not empty, none of its names holds a comma,
    and joined with commas it is the argument, so nothing is trimmed or
    dropped, empty names included. *)
Theorem page_argument_is_cut_at_commas (text : string) :
  Py.nonempty text = true →
  text ≠ "*" →
  ∃ names,
    Cli.page_argument (Some text) = Some names ∧
    Py.truthy_list (Some names) = true ∧
    Cli.join "," names = text ∧
    Forall (λ page, Py.all (λ c, negb (Ascii.eqb c ",")) page = true) names.
Proof.
  intros Htext Hstar. exists (Cli.split_on "," text).
  unfold Cli.page_argument, Cli.comma_list.
  rewrite decide_False by congruence. rewrite Htext.
  split; [done|]. split; [|split].
  - by destruct (CliFacts.split_on_cons "," text) as (? & ? & ->).
  - apply CliFacts.join_split_on.
  - apply CliFacts.split_on_pieces.
Qed.

Lemma page_argument_is_cut_at_commas_witness :
  ∃ names,
    Cli.page_argument (Some "rules, faq,,index") = Some names ∧
    Py.truthy_list (Some names) = true ∧
    Cli.join "," names = "rules, faq,,index" ∧
    Forall (λ page, Py.all (λ c, negb (Ascii.eqb c ",")) page = true) names.
Proof.
  refine (page_argument_is_cut_at_commas "rules, faq,,index" eq_refl _).
  discriminate.
Defined.

(** X15. Every list of page names can be given on the command line,
    joined with commas, and reaches [main] as it is, provided no name
    holds a comma and the list is not the single empty name or the
    single star. *)
Theorem page_names_reach_main (first : string) (rest : list string) :
  Forall (λ page, Py.all (λ c, negb (Ascii.eqb c ",")) page = true)
         (first :: rest) →
  first :: rest ≠ [""] →
  first :: rest ≠ ["*"] →
  Cli.page_argument (Some (Cli.join "," (first :: rest)))
  = Some (first :: rest).
Proof.
  intros Hall Hempty Hstar.
  pose proof (CliFacts.split_on_join "," first rest Hall) as Hsplit.
  unfold Cli.page_argument, Cli.comma_list.
  destruct rest as [|second rest].
  - cbn [Cli.join] in *. rewrite decide_False by congruence.
    destruct first; [done|]. cbn [Py.nonempty]. by rewrite Hsplit.
  - rewrite CliFacts.join_cons in *.
    assert (∀ tail, Py.all (λ c, negb (Ascii.eqb c ","))
                      (first +:+ String "," tail) = false) as Hcomma.
    { clear. intros tail. induction first as [|c first IH]; [done|].
      rewrite PyFacts.sapp_cons. cbn [Py.all]. rewrite IH.
      apply andb_false_r. }
    specialize (Hcomma (Cli.join "," (second :: rest))).
    set (text := first +:+ String "," (Cli.join "," (second :: rest))) in *.
    rewrite decide_False by (intros [= Heq]; by rewrite Heq in Hcomma).
    destruct text; [done|].
    cbn [Py.nonempty]. by rewrite Hsplit.
Qed.

Lemma page_names_reach_main_witness :
  Cli.page_argument (Some "rules,faq") = Some ["rules"; "faq"].
Proof.
  refine (page_names_reach_main "rules" ["faq"] _ _ _).
  - repeat constructor.
  - discriminate.
  - discriminate.
Defined.

(** X16. No page argument, an empty one and the star select the same
    run, and so do no ignore argument and an empty one: [main] is run
    with no allow-list and no ignore-list. *)
Theorem all_pages_spellings
    (subreddit : Subreddit) (CONFIG_email : option string) (args : Cli.Args) :
  Cli.pages args ∈ [None; Some ""; Some "*"] →
  Cli.ignore args ∈ [None; Some ""] →
  Cli.run subreddit CONFIG_email args
  = main subreddit CONFIG_email None None (Cli.full args)
         (Cli.mod_only args) (Cli.unlisted args).
Proof.
  intros Hpages Hignore. unfold Cli.run.
  assert (Cli.comma_list (Cli.ignore args) = None ∨
          Cli.comma_list (Cli.ignore args) = Some []) as [->| ->].
  { set_unfold. destruct Hignore as [->|[->|[]]]; [by left|by right]. }
  all: assert (Cli.page_argument (Cli.pages args) = None ∨
               Cli.page_argument (Cli.pages args) = Some []) as [->| ->]
    by (set_unfold; destruct Hpages as [->|[->|[->|[]]]];
        [by left|by right|by left]).
  all: unfold main; by destruct (Cli.full args).
Qed.

Lemma all_pages_spellings_witness :
  Cli.run Example.wiki None
    {| Cli.pages := Some "*"; Cli.ignore := Some ""; Cli.full := true;
       Cli.mod_only := false; Cli.unlisted := false; Cli.verbose := false |}
  = main Example.wiki None None None true false false.
Proof.
  refine (all_pages_spellings Example.wiki None _ _ _).
  - right. right. left.
  - right. left.
Defined.

(** X17. A full sync of a page that stopped between two revisions is
    taken up where it stopped: when the older part of the history has
    been replayed on a clean store with no commit refused, the full
    handler replays the rest of the history, oldest first, and nothing
    else. *)
Theorem interrupted_sync_resumes
    (subreddit : Subreddit) (CONFIG_email : option string)
    (page : string) (d : PageData) (saved todo : list Revision) (s : Store) :
  let s1 := (for_each saved (save_revision subreddit CONFIG_email) s).1 in
  well_formed subreddit →
  wiki_pages subreddit !! page = Some d →
  reverse (history d) = saved ++ todo →
  saved ≠ [] →
  clean s →
  refusals s1 = refusals s →
  _handle_full_page subreddit CONFIG_email page None true true s1
  = for_each todo (save_revision subreddit CONFIG_email) s1.
Proof.
  cbv zeta. rewrite for_each_save. cbn [fst].
  intros Hwf Hd Hsplit Hsaved Hclean Hquiet.
  rewrite for_each_save.
  rewrite (full_page_run _ _ page d) by (by try eapply known_page_token).
  destruct (exists_last Hsaved) as (older & r & ->).
  assert (history d = reverse todo ++ r :: reverse older) as Hh.
  { apply (inj reverse). rewrite Hsplit.
    rewrite reverse_app, reverse_cons, !reverse_involutive.
    by rewrite <- (assoc_L (++)). }
  assert (∀ x, x ∈ history d → name x = page) as Hnames
    by (intros x Hx; by eapply wf_owner).
  rewrite (lookup_cursor_replay _ _ page (older ++ [r]) r s); try done.
  - rewrite cursor_of_message_canonical.
    + unfold newer_than. rewrite Hh.
      rewrite walk_stop, reverse_involutive, (right_id_L [] (++)); try done.
      pose proof (wf_distinct _ Hwf _ _ Hd) as Hnd.
      rewrite Hh, fmap_app, fmap_cons in Hnd.
      apply NoDup_app in Hnd as (_ & Hnd & _).
      apply Forall_forall. intros x Hx Heq. apply (Hnd (revision_id x)).
      * apply list_elem_of_fmap. by exists x.
      * rewrite Heq. left.
    + apply (wf_canonical _ Hwf _ _ _ Hd). rewrite Hh.
      apply elem_of_app. right. left.
  - apply Forall_forall. intros x Hx. apply Hnames.
    rewrite <- elem_of_reverse, Hsplit. apply elem_of_app. by left.
  - apply last_snoc.
Qed.

Lemma interrupted_sync_resumes_witness :
  let s1 := (for_each [Example.r1] (save_revision Example.wiki None)
                      Example.fresh).1 in
  clean Example.fresh ∧ refusals s1 = refusals Example.fresh ∧
  _handle_full_page Example.wiki None "rules" None true true s1
  = for_each [Example.r2; Example.r3] (save_revision Example.wiki None) s1.
Proof.
  cbv zeta.
  assert (refusals (for_each [Example.r1] (save_revision Example.wiki None)
                             Example.fresh).1 = refusals Example.fresh)
    as Hquiet by (vm_compute; reflexivity).
  split; [reflexivity|]. split; [exact Hquiet|].
  refine (interrupted_sync_resumes Example.wiki None "rules" _ [Example.r1]
            [Example.r2; Example.r3] Example.fresh
            example_wiki_well_formed eq_refl eq_refl _ eq_refl Hquiet).
  discriminate.
Defined.

(** X18. Saving the same revision twice in a row never gives two
    commits: whatever became of the first commit, the second is refused
    by git, with return code 128 when the date of the revision is one git
    does not take and with return code 1 otherwise, and the log, the
    working tree and the staging area stay as the first call left them. *)
Theorem saving_again_is_refused
    (subreddit : Subreddit) (CONFIG_email : option string)
    (revision : Revision) (s : Store) :
  let s1 := (save_revision subreddit CONFIG_email revision s).1 in
  let s2 := (save_revision subreddit CONFIG_email revision s1).1 in
  log s2 = log s1 ∧ worktree s2 = worktree s1 ∧ staged s2 = staged s1 ∧
  exits s2
  = (if Git.date_ok (revision_date revision) then 1 else 128)
    :: 0 :: exits s1.
Proof.
  cbv zeta. rewrite !save_revision_run. cbn [fst].
  set (s1 := after_save subreddit CONFIG_email revision s).
  assert (<[page_file subreddit (name revision) := content_md revision]>
            (staged s1) = staged s1) as Hst.
  { unfold s1. rewrite staged_after_save. apply insert_insert_eq. }
  assert (<[page_file subreddit (name revision) := content_md revision]>
            (worktree s1) = worktree s1) as Hwt.
  { unfold s1. rewrite worktree_after_save. apply insert_insert_eq. }
  assert (Git.date_ok (revision_date revision) = true →
          staged s1 = head_tree (log s1) ∨
          Py.nonempty (Git.stripspace (message_of revision)) = false)
    as Hrefused.
  { intros Hdate. unfold s1, after_save. rewrite Hdate. cbn [negb].
    repeat case_match; cbn; auto.
    right. by apply negb_true_iff. }
  unfold after_save at 1 2 3 4. rewrite Hst, Hwt.
  destruct (Git.date_ok (revision_date revision)); cbn [negb]; [|done].
  destruct Hrefused as [Heq|Hempty]; [done|..].
  - by rewrite decide_True.
  - rewrite Hempty. by case_decide.
Qed.

(** Twice a revision that git takes, twice one whose date it does not
    take. *)
Example saving_twice_return_codes :
  exits (for_each [Example.r1; Example.r1] (save_revision Example.wiki None)
                  Example.fresh).1 = [1; 0; 0; 0] ∧
  exits (for_each [Sample.old1; Sample.old1] (save_revision Sample.early None)
                  Example.fresh).1 = [128; 0; 128; 0].
Proof. vm_compute. split; reflexivity. Qed.

(** X19. In recent mode the pages are handled in the order of their
    oldest revision in the feed, each page once: the keys of the dict
    are the page names of the feed, newest first, with all but the last
    occurrence of each name removed, read backwards.  The commits of a
    run are grouped by page and not merged by date. *)
Theorem feed_pages_by_oldest_revision (newest_first : list Revision) :
  (revisions_by_page (reverse newest_first)).*1
  = reverse (remove_dups (name <$> newest_first)).
Proof.
  induction newest_first as [|r l IH]; [done|].
  rewrite reverse_cons. unfold revisions_by_page in *. rewrite foldl_app.
  cbn [foldl]. rewrite append_to_keys, IH, fmap_cons. cbn [remove_dups].
  assert (name r ∈ reverse (remove_dups (name <$> l)) ↔ name r ∈ name <$> l)
    as Hin by (by rewrite elem_of_reverse, elem_of_remove_dups).
  destruct (decide (name r ∈ reverse _)) as [Hk|Hk];
    destruct (decide_rel elem_of (name r) (name <$> l)) as [Hn|Hn];
    try (by apply Hin in Hk); try (by apply Hin in Hn); try done.
  by rewrite reverse_cons.
Qed.

(** X20. Cursor recovery raises in one situation only: the file is in
    the working tree and [git log], asked about the words of the path,
    finds no commit.  For a path that is one word this is: no commit of
    the log touches the file; a path with white space in it is cut into
    several paths, and the commits that touch the file itself do not
    count.  The exception is what [check_output] raises when there is
    no commit at all, and IndexError otherwise; the ValueError of a last
    word that is no UUID never leaves the function. *)
Theorem cursor_recovery_raises_exactly
    (file_path : string) (s : Store) (e : exn) :
  (get_last_saved_revision file_path s = (s, Raise e) ↔
   is_Some (worktree s !! file_path) ∧
   Git.last_touching (Py.split file_path) (log s) = None ∧
   e = match log s with [] => CalledProcessError | _ => IndexError end) ∧
  (Py.is_token file_path = true →
   (get_last_saved_revision file_path s = (s, Raise e) ↔
    is_Some (worktree s !! file_path) ∧
    Git.last_touching [file_path] (log s) = None ∧
    e = match log s with [] => CalledProcessError | _ => IndexError end)).
Proof.
  assert (get_last_saved_revision file_path s = (s, Raise e) ↔
          is_Some (worktree s !! file_path) ∧
          Git.last_touching (Py.split file_path) (log s) = None ∧
          e = match log s with [] => CalledProcessError | _ => IndexError end)
    as Hany.
  { rewrite get_last_saved_revision_words.
    destruct (worktree s !! file_path) as [text|] eqn:Hfile.
    - destruct (log s) as [|c older] eqn:Hlog.
      + split; [intros [= <-]; by eauto|]. by intros (_ & _ & ->).
      + destruct (Git.last_touching _ (c :: older)) as [c'|].
        * split; [done|]. by intros (_ & ? & _).
        * split; [intros [= <-]; by eauto|]. by intros (_ & _ & ->).
    - split; [done|]. by intros ([? ?] & _). }
  split; [exact Hany|].
  intros Hp. by rewrite <- (PyFacts.split_token file_path Hp).
Qed.

Lemma cursor_recovery_raises_exactly_witness :
  get_last_saved_revision "wiki/rules.md" Example.untracked
  = (Example.untracked, Raise IndexError).
Proof.
  refine (proj2 (proj2 (cursor_recovery_raises_exactly "wiki/rules.md"
                          Example.untracked IndexError) eq_refl) _).
  split; [by eexists|]. split; reflexivity.
Defined.

(** A page name with a space in it: the newest commit is the one of the
    page's file, and cursor recovery raises IndexError all the same. *)
Example cursor_of_a_path_with_a_space :
  let spaced := {| revision_id := Example.id1; name := "my page";
                   revision_by := Some "alice"; revision_date := 1600000100;
                   reason := None; content_md := "first" |} in
  let s := (save_revision Example.wiki None spaced Example.fresh).1 in
  head (exits s) = Some 0 ∧
  Git.last_touching ["wiki/my page.md"] (log s) = head (log s) ∧
  is_Some (head (log s)) ∧
  get_last_saved_revision "wiki/my page.md" s = (s, Raise IndexError).
Proof. vm_compute. repeat split; eauto. Qed.

(** X21. For a well-formed source, the recent handler given the recent
    revisions of a page (not empty, the newest part of the page's
    history) does on every store what the full handler does for that
    page: the window only saves the request for the history. *)
Theorem recent_handler_is_full_handler
    (subreddit : Subreddit) (CONFIG_email : option string)
    (page : string) (window : list Revision) (s : Store) :
  well_formed subreddit →
  window_of subreddit page window →
  _handle_revisions_for_page subreddit CONFIG_email window s
  = _handle_full_page subreddit CONFIG_email page None true true s.
Proof. intros Hwf Hwin. by apply recent_page_full. Qed.

Lemma recent_handler_is_full_handler_witness :
  _handle_revisions_for_page Example.wiki None [Example.r2; Example.r3]
                             Example.fresh
  = _handle_full_page Example.wiki None "rules" None true true Example.fresh.
Proof.
  refine (recent_handler_is_full_handler Example.wiki None "rules"
            [Example.r2; Example.r3] Example.fresh
            example_wiki_well_formed _).
  split; [discriminate|]. eexists. split; [reflexivity|].
  by exists [Example.r1].
Defined.

(** X22. Running [main] twice: for a well-formed source whose revision
    dates are all dates git takes, and a store with nothing staged, when
    a run comes to its end, a second run with the same arguments comes
    to its end too and leaves the working tree, the staging area and the
    log as the first run left them, in either mode and also when git
    refused commits in the first run because they changed nothing.  A
    date git does not take is another matter: the file is written, no
    commit is made, and the second run raises. *)
Theorem second_run_leaves_the_repository
    (subreddit : Subreddit) (CONFIG_email : option string)
    (page_list ignore_list : option (list string))
    (include_full include_mod include_unlisted : bool) (s s1 : Store) :
  well_formed subreddit →
  dates_accepted subreddit →
  clean s →
  main subreddit CONFIG_email page_list ignore_list include_full
       include_mod include_unlisted s = (s1, Return tt) →
  ∃ s2,
    main subreddit CONFIG_email page_list ignore_list include_full
         include_mod include_unlisted s1 = (s2, Return tt) ∧
    worktree s2 = worktree s1 ∧ staged s2 = staged s1 ∧ log s2 = log s1.
Proof.
  intros Hwf Hdated Hclean Hrun.
  destruct (main_twice subreddit CONFIG_email Hwf Hdated _ _ _ _ _ _ _
              Hclean Hrun) as (s2 & Hrun2 & Hw & Hs & Hl).
  by exists s2.
Qed.

Lemma second_run_leaves_the_repository_witness :
  let s1 := (main Example.twice None None None true false false
                  Example.fresh).1 in
  refusals s1 ≠ refusals Example.fresh ∧
  ∃ s2,
    main Example.twice None None None true false false s1 = (s2, Return tt) ∧
    worktree s2 = worktree s1 ∧ staged s2 = staged s1 ∧ log s2 = log s1.
Proof.
  cbv zeta. split; [vm_compute; discriminate|].
  refine (second_run_leaves_the_repository Example.twice None None None
            true false false Example.fresh _
            example_twice_well_formed example_twice_dated eq_refl _).
  vm_compute. reflexivity.
Defined.

(** With a date git does not take, the first run comes to its end with
    the file written and no commit, and the second run raises. *)
Example runs_with_a_refused_date :
  let run := main Sample.early None None None true false false
                  Example.fresh in
  run.2 = Return tt ∧ log run.1 = log Example.fresh ∧
  exits run.1 = [128; 0] ∧
  (main Sample.early None None None true false false run.1).2
  = Raise IndexError.
Proof. vm_compute. repeat split; reflexivity. Qed.

(** Commits that hold a file as their parent holds it are passed over
    by [git log] for the file. *)
Lemma last_touching_passes_over (p : string) (v : option string)
    (new l : list Commit) :
  Forall (λ c, tree c !! p = v) new →
  head_tree l !! p = v →
  Git.last_touching [p] (new ++ l) = Git.last_touching [p] l.
Proof.
  intros Hnew Hl. induction Hnew as [|c new Hc Hnew IH]; [done|].
  cbn [app Git.last_touching].
  assert (head_tree (new ++ l) !! p = v) as Hparent.
  { destruct Hnew as [|c' new' Hc' _]; [done|]. exact Hc'. }
  unfold Git.touches. cbn [existsb].
  rewrite bool_decide_eq_false_2 by done.
  rewrite bool_decide_eq_false_2; [exact IH|].
  intros Hne. apply Hne. by rewrite Hc, Hparent.
Qed.

(** X24. A page that does not pass the filters is left alone: for a
    well-formed source, when a page the API holds is ignored, not on a
    given allow-list, mod-only without mod inclusion or unlisted without
    unlisted inclusion, a run of [main] in either mode writes its file
    neither to the working tree nor to the staging area, and every
    commit the run adds holds the file as the staging area had it when
    the run began.  When nothing was staged then, none of these commits
    changes the file: the newest commit for the file is after the run
    the one it was before. *)
Theorem unselected_page_is_left_alone
    (subreddit : Subreddit) (CONFIG_email : option string)
    (page_list ignore_list : option (list string))
    (include_full include_mod include_unlisted : bool)
    (page : string) (d : PageData) (s : Store) :
  let s' := (main subreddit CONFIG_email page_list ignore_list include_full
                  include_mod include_unlisted s).1 in
  well_formed subreddit →
  wiki_pages subreddit !! page = Some d →
  selected page_list ignore_list include_mod include_unlisted page
           (settings d) = false →
  worktree s' !! page_file subreddit page
  = worktree s !! page_file subreddit page ∧
  staged s' !! page_file subreddit page
  = staged s !! page_file subreddit page ∧
  (∃ new, log s' = new ++ log s ∧
          Forall (λ c, tree c !! page_file subreddit page
                       = staged s !! page_file subreddit page) new) ∧
  (clean s →
   Git.last_touching [page_file subreddit page] (log s')
   = Git.last_touching [page_file subreddit page] (log s)).
Proof.
  cbv zeta. intros Hwf Hd Hsel.
  destruct (main_replays_taken subreddit CONFIG_email Hwf page_list
              ignore_list include_mod include_unlisted include_full s)
    as (revs & -> & Htaken).
  destruct (after_replay_skips subreddit CONFIG_email page revs s)
    as (Hw & Hs & new & Hlog & Hnew).
  { eapply Forall_impl; [exact Htaken|]. cbn.
    intros r (d' & Hd' & Hsel') Heq. rewrite Heq in Hd', Hsel'. congruence. }
  split; [done|]. split; [done|]. split; [by exists new|].
  intros Hclean. rewrite Hlog.
  apply (last_touching_passes_over _ _ _ _ Hnew). by rewrite <- Hclean.
Qed.

Lemma unselected_page_is_left_alone_witness :
  let s' := (main Sample.two_pages None None None false false false
                  Example.fresh).1 in
  worktree s' !! "wiki/faq.md" = worktree Example.fresh !! "wiki/faq.md" ∧
  staged s' !! "wiki/faq.md" = staged Example.fresh !! "wiki/faq.md" ∧
  length (log Example.fresh) = 1%nat ∧ length (log s') = 4%nat ∧
  Git.last_touching ["wiki/faq.md"] (log s')
  = Git.last_touching ["wiki/faq.md"] (log Example.fresh).
Proof.
  destruct (unselected_page_is_left_alone Sample.two_pages None None None
              false false false "faq" _ Example.fresh
              sample_two_pages_well_formed eq_refl eq_refl)
    as (Hw & Hs & _ & Hlast).
  split; [exact Hw|]. split; [exact Hs|].
  split; [reflexivity|]. split; [vm_compute; reflexivity|].
  apply Hlast. reflexivity.
Defined.

(** X25. The requests for the settings and for the history of a page and
    the cursor recovery all come before the first write of a page
    handler: when one of them raises in [_handle_full_page] or in
    [_handle_revisions_for_page], the store is the one the handler was
    called on. *)
Theorem failed_handler_writes_nothing
    (subreddit : Subreddit) (CONFIG_email : option string)
    (page : string) (ignore_list : option (list string))
    (include_mod include_unlisted : bool) (revisions : list Revision)
    (s : Store) :
  (∀ e, (_handle_full_page subreddit CONFIG_email page ignore_list
           include_mod include_unlisted s).2 = Raise e →
        (_handle_full_page subreddit CONFIG_email page ignore_list
           include_mod include_unlisted s).1 = s) ∧
  (∀ e, (_handle_revisions_for_page subreddit CONFIG_email revisions s).2
        = Raise e →
        (_handle_revisions_for_page subreddit CONFIG_email revisions s).1 = s).
Proof.
  assert (∀ page ign im iu e,
            (_handle_full_page subreddit CONFIG_email page ign im iu s).2
            = Raise e →
            (_handle_full_page subreddit CONFIG_email page ign im iu s).1 = s)
    as Hfull.
  { clear. intros page ign im iu.
    assert (∀ {A} (m : M A) (k : A → M unit),
              (m s).1 = s →
              (∀ a e, (k a s).2 = Raise e → (k a s).1 = s) →
              ∀ e, (bind m k s).2 = Raise e → (bind m k s).1 = s) as Hstep.
    { intros A m k Hm Hk e. unfold bind.
      destruct (m s) as [s1 [a|e']]; cbn in Hm; subst s1; [apply Hk|done]. }
    unfold _handle_full_page. destruct (_ && _); [done|].
    apply Hstep.
    { destruct im; cbn [negb]; [done|].
      unfold bind, mod_settings, ret, raise.
      by destruct (wiki_pages subreddit !! page). }
    intros [|]; [done|]. apply Hstep.
    { destruct iu; cbn [negb]; [done|].
      unfold bind, mod_settings, ret, raise.
      by destruct (wiki_pages subreddit !! page). }
    intros [|]; [done|]. apply Hstep.
    { apply get_last_saved_revision_reads. }
    intros c. apply Hstep.
    { apply get_recent_revisions_reads. }
    intros l e. by rewrite for_each_save. }
  split; [apply Hfull|].
  intros e. unfold _handle_revisions_for_page.
  destruct revisions as [|first rest]; [done|]. unfold bind.
  pose proof (get_last_saved_revision_reads
                (page_file subreddit (name first)) s) as H1.
  destruct (get_last_saved_revision _ s) as [s1 [c|e']];
    cbn in H1; subst s1; [|done].
  destruct (revisions_after c (first :: rest)); [by rewrite for_each_save|].
  apply Hfull.
Qed.

(** X26. For a well-formed source, recent mode is full mode on the pages
    of the feed: the run is the full page handler, with the ignore-list
    and the two inclusion flags, run over the pages of the feed that are
    on the allow-list when there is one, in the order the feed gives
    them. *)
Theorem recent_mode_is_full_mode_on_the_feed
    (subreddit : Subreddit) (CONFIG_email : option string)
    (page_list ignore_list : option (list string))
    (include_mod include_unlisted : bool) (s : Store) :
  well_formed subreddit →
  main subreddit CONFIG_email page_list ignore_list false
       include_mod include_unlisted s
  = for_each
      (filter (λ page, Py.truthy_list page_list = true →
                       page ∈ default [] page_list)
              (candidates subreddit page_list false))
      (λ page, _handle_full_page subreddit CONFIG_email page
                 (Some (default [] ignore_list)) include_mod include_unlisted)
      s.
Proof.
  intros Hwf. rewrite main_recent by done. unfold candidates.
  set (groups := revisions_by_page (reverse (wiki_recent subreddit))).
  set (allowed := λ page : string,
         negb (Py.truthy_list page_list)
         || bool_decide (page ∈ default [] page_list)).
  set (handler := λ page,
         _handle_full_page subreddit CONFIG_email page
           (Some (default [] ignore_list)) include_mod include_unlisted).
  rewrite (list_filter_iff _ (λ page, allowed page = true)).
  2:{ intros page. unfold allowed.
      destruct (Py.truthy_list page_list); cbn [negb orb].
      - rewrite bool_decide_eq_true. naive_solver.
      - naive_solver. }
  rewrite <- (for_each_filter allowed handler).
  assert (∀ (xs : list (string * list Revision)) (f : string → M unit) s0,
            for_each xs.*1 f s0 = for_each xs (λ x, f x.1) s0) as Hfmap.
  { clear. induction xs as [|x xs IH]; intros f s0; [done|].
    rewrite fmap_cons. cbn [for_each]. unfold bind.
    destruct (f x.1 s0) as [s1 [[]|e]]; [apply IH|done]. }
  rewrite Hfmap. apply for_each_ext. intros [page w] s0 Hin. cbn [fst].
  pose proof (group_window _ Hwf _ _ Hin) as Hwin.
  pose proof Hwin as (_ & d & Hd & _).
  rewrite (recent_step_selected _ _ _ _ _ _ page w d) by done.
  rewrite (recent_page_full _ _ Hwf page) by done.
  pose proof (full_page_selected subreddit CONFIG_email page d
                (Some (default [] ignore_list)) include_mod include_unlisted
                s0 Hd) as Hhandler.
  fold (handler page) in Hhandler.
  unfold selected in *. cbn [default from_option id Py.truthy_list negb orb]
    in Hhandler |- *.
  unfold allowed, ret.
  destruct (Py.truthy_list page_list),
    (bool_decide (page ∈ default [] page_list)),
    (bool_decide (page ∈ default [] ignore_list));
    cbn [negb orb andb] in Hhandler |- *; try done;
    rewrite Hhandler; try done.
  all: by repeat destruct (_ || _)%bool.
Qed.

Lemma recent_mode_is_full_mode_on_the_feed_witness :
  main Sample.two_pages None None (Some ["index"]) false false true
       Example.fresh
  = for_each ["faq"; "rules"]
      (λ page, _handle_full_page Sample.two_pages None page
                 (Some ["index"]) false true)
      Example.fresh.
Proof.
  exact (recent_mode_is_full_mode_on_the_feed Sample.two_pages None None
           (Some ["index"]) false true Example.fresh
           sample_two_pages_well_formed).
Defined.
